(** * Vision Transformer (vit.py): a shallow embedding and its properties

    The program composes tensor-library operations.  Tensors are modelled as
    a shape together with the row-major list of their elements; every
    library operation the program calls is written out on that
    representation, with the shape checks under which the library raises.
    Scalars (floating-point numbers in the program) are kept abstract behind
    the [Scalar] interface, so every statement holds for any arithmetic. *)

From Stdlib Require Import String.
From Stdlib Require Import List ZArith QArith Lia Bool Arith.
Import ListNotations.
Local Open Scope string_scope.
Local Open Scope list_scope.
Local Open Scope nat_scope.

Set Implicit Arguments.

(** ** Exceptions and results *)

Inductive exn : Type :=
| ValueError (msg : string)
| RuntimeError (msg : string)
| ZeroDivisionError
| IndexError
| TypeError.

Inductive result (A : Type) : Type :=
| Ok (a : A)
| Raise (e : exn).
Arguments Ok {A} a.
Arguments Raise {A} e.

Definition rbind {A B} (r : result A) (k : A -> result B) : result B :=
  match r with
  | Ok a => k a
  | Raise e => Raise e
  end.

Declare Scope result_scope.
Delimit Scope result_scope with result.
Notation "'let?' x := c 'in' k" := (rbind c (fun x => k))
  (at level 10, x pattern, c at level 100, k at level 200) : result_scope.

(** ** Scalars

    The element type of tensors and the arithmetic the tensor library
    performs on it. *)

Class Scalar (R : Type) : Type := {
  r0 : R;
  r1 : R;
  radd : R -> R -> R;
  rsub : R -> R -> R;
  rmul : R -> R -> R;
  rdiv : R -> R -> R;
  rsqrt : R -> R;
  rexp : R -> R;
  rgelu : R -> R;
  r_of_Z : Z -> R;
  r_of_Q : Q -> R
}.

(** ** Tensors *)

Record Tensor (R : Type) : Type := mkTensor {
  shape : list nat;
  data : list R
}.
Arguments mkTensor {R} shape data.

Fixpoint numel (sh : list nat) : nat :=
  match sh with
  | [] => 1
  | d :: sh' => d * numel sh'
  end.

(** All multi-indices of a shape, in row-major order. *)
Fixpoint indices (sh : list nat) : list (list nat) :=
  match sh with
  | [] => [[]]
  | d :: sh' => flat_map (fun i => map (cons i) (indices sh')) (seq 0 d)
  end.

(** Row-major position of a multi-index. *)
Fixpoint offset (sh idx : list nat) : nat :=
  match sh, idx with
  | _ :: sh', i :: idx' => i * numel sh' + offset sh' idx'
  | _, _ => 0
  end.

Definition in_bounds (sh idx : list nat) : Prop := Forall2 lt idx sh.

(** Replace position [n] of a list. *)
Fixpoint set_nth {A} (n : nat) (a : A) (l : list A) : list A :=
  match l, n with
  | [], _ => []
  | _ :: l', O => a :: l'
  | x :: l', S n' => x :: set_nth n' a l'
  end.

(** Consecutive chunks of length [d]; [n] is the number of chunks. *)
Fixpoint chunks {A} (d n : nat) (l : list A) : list (list A) :=
  match n with
  | O => []
  | S n' => firstn d l :: chunks d n' (skipn d l)
  end.

Section TensorLibrary.
Context {R : Type} {SR : Scalar R}.

Definition wf (t : Tensor R) : Prop := List.length (data t) = numel (shape t).

Definition tget (t : Tensor R) (idx : list nat) : R :=
  nth (offset (shape t) idx) (data t) r0.

Definition tgen (sh : list nat) (f : list nat -> R) : Tensor R :=
  mkTensor sh (map f (indices sh)).

(** *** [Tensor.unfold(dimension, size, step)]

    All slices of length [size] taken every [step] along [dimension]; the
    slice position becomes a new last axis.  The library raises when the
    slice is longer than the axis or the step is not positive. *)

Definition unfold_src (dim : nat) (step : nat) (idx : list nat) : list nat :=
  let src := removelast idx in
  set_nth dim (nth dim src 0 * step + last idx 0) src.

Definition unfold (dim : nat) (size step : Z) (t : Tensor R)
  : result (Tensor R) :=
  match nth_error (shape t) dim with
  | None => Raise IndexError
  | Some n =>
      if (Z.of_nat n <? size)%Z then
        Raise (RuntimeError "maximum size for tensor at dimension exceeded")
      else if (step <=? 0)%Z then
        Raise (RuntimeError "step must be > 0")
      else if (size <? 0)%Z then
        Raise (RuntimeError "size must be >= 0")
      else
        let sz := Z.to_nat size in
        let st := Z.to_nat step in
        let cnt := (n - sz) / st + 1 in
        Ok (tgen (set_nth dim cnt (shape t) ++ [sz])
                 (fun idx => tget t (unfold_src dim st idx)))
  end.

(** *** [Tensor.reshape]

    At most one entry may be [-1]; it is inferred from the number of
    elements.  The element order is unchanged. *)

Definition count_infer (dims : list Z) : nat :=
  List.length (filter (fun d => (d =? -1)%Z) dims).

Definition known_size (dims : list Z) : nat :=
  numel (map Z.to_nat (filter (fun d => negb (d =? -1)%Z) dims)).

Definition reshape (dims : list Z) (t : Tensor R) : result (Tensor R) :=
  if existsb (fun d => (d <? -1)%Z) dims then
    Raise (RuntimeError "invalid shape dimension")
  else if 1 <? count_infer dims then
    Raise (RuntimeError "only one dimension can be inferred")
  else
    let n := numel (shape t) in
    let known := known_size dims in
    if count_infer dims =? 0 then
      if n =? known then Ok (mkTensor (map Z.to_nat dims) (data t))
      else Raise (RuntimeError "shape is invalid for input size")
    else if (n =? known) || ((0 <? known) && (n mod known =? 0)) then
      if known =? 0 then
        Raise (RuntimeError "unspecified dimension size -1 is ambiguous")
      else
        Ok (mkTensor
              (map (fun d => if (d =? -1)%Z then n / known else Z.to_nat d)
                   dims)
              (data t))
    else Raise (RuntimeError "shape is invalid for input size").

(** *** Broadcasting *)

(** Shapes are aligned on their last axis; the argument lists are
    reversed shapes. *)
Fixpoint broadcast_rev (a b : list nat) : result (list nat) :=
  match a, b with
  | [], _ => Ok b
  | _, [] => Ok a
  | x :: a', y :: b' =>
      match broadcast_rev a' b' with
      | Raise e => Raise e
      | Ok r =>
          if x =? y then Ok (x :: r)
          else if x =? 1 then Ok (y :: r)
          else if y =? 1 then Ok (x :: r)
          else Raise (RuntimeError "shapes are not broadcastable")
      end
  end.

Definition broadcast_shapes (a b : list nat) : result (list nat) :=
  match broadcast_rev (rev a) (rev b) with
  | Ok r => Ok (rev r)
  | Raise e => Raise e
  end.

(** Index into an operand of shape [sh] for the index [idx] of the
    broadcast result: leading axes are dropped, axes of size 1 read
    position 0. *)
Definition bidx (sh idx : list nat) : list nat :=
  map (fun di => if fst di =? 1 then 0 else snd di)
      (combine sh (skipn (List.length idx - List.length sh) idx)).

Definition tadd (a b : Tensor R) : result (Tensor R) :=
  match broadcast_shapes (shape a) (shape b) with
  | Raise e => Raise e
  | Ok sh =>
      Ok (tgen sh (fun idx => radd (tget a (bidx (shape a) idx))
                                   (tget b (bidx (shape b) idx))))
  end.

(** [a += b]: the broadcast shape must be the shape of [a]. *)
Definition tadd_inplace (a b : Tensor R) : result (Tensor R) :=
  match broadcast_shapes (shape a) (shape b) with
  | Raise e => Raise e
  | Ok sh =>
      if list_eq_dec Nat.eq_dec sh (shape a) then
        Ok (tgen sh (fun idx => radd (tget a idx)
                                     (tget b (bidx (shape b) idx))))
      else Raise (RuntimeError "output shape does not match broadcast shape")
  end.

Definition tmul_scalar (a : Tensor R) (c : R) : Tensor R :=
  mkTensor (shape a) (map (fun x => rmul x c) (data a)).

Definition tmap (f : R -> R) (a : Tensor R) : Tensor R :=
  mkTensor (shape a) (map f (data a)).

(** *** [Tensor.expand] on reversed size and shape lists *)
Fixpoint expand_rev (sizes : list Z) (sh : list nat) : result (list nat) :=
  match sizes, sh with
  | [], [] => Ok []
  | [], _ :: _ =>
      Raise (RuntimeError "number of sizes must be at least the rank")
  | s :: sizes', [] =>
      if (s <? 0)%Z then
        Raise (RuntimeError "size -1 is not allowed in a leading dimension")
      else
        match expand_rev sizes' [] with
        | Ok r => Ok (Z.to_nat s :: r)
        | Raise e => Raise e
        end
  | s :: sizes', d :: sh' =>
      match expand_rev sizes' sh' with
      | Raise e => Raise e
      | Ok r =>
          if (s =? -1)%Z then Ok (d :: r)
          else if (s =? Z.of_nat d)%Z then Ok (d :: r)
          else if (d =? 1) && (0 <=? s)%Z then Ok (Z.to_nat s :: r)
          else Raise (RuntimeError "expanded size must match existing size")
      end
  end.

Definition expand (sizes : list Z) (t : Tensor R) : result (Tensor R) :=
  match expand_rev (rev sizes) (rev (shape t)) with
  | Raise e => Raise e
  | Ok r => Ok (tgen (rev r) (fun idx => tget t (bidx (shape t) idx)))
  end.

(** *** [torch.cat((a, b), dim)] *)
Definition cat (dim : nat) (a b : Tensor R) : result (Tensor R) :=
  match nth_error (shape a) dim, nth_error (shape b) dim with
  | Some na, Some nb =>
      if list_eq_dec Nat.eq_dec (set_nth dim 0 (shape a))
                                (set_nth dim 0 (shape b)) then
        Ok (tgen (set_nth dim (na + nb) (shape a))
                 (fun idx =>
                    let i := nth dim idx 0 in
                    if i <? na then tget a idx
                    else tget b (set_nth dim (i - na) idx)))
      else Raise (RuntimeError "sizes of tensors must match except in cat dim")
  | _, _ => Raise IndexError
  end.

(** *** [x[:, 0]] *)
Definition select_first (t : Tensor R) : result (Tensor R) :=
  match shape t with
  | b :: n :: rest =>
      if n =? 0 then Raise IndexError
      else Ok (tgen (b :: rest)
                    (fun idx => tget t (hd 0 idx :: 0 :: tl idx)))
  | _ => Raise IndexError
  end.

(** *** [Tensor.permute] *)
Fixpoint index_of (j : nat) (dims : list nat) : nat :=
  match dims with
  | [] => 0
  | d :: dims' => if d =? j then 0 else S (index_of j dims')
  end.

Definition is_permutation (dims : list nat) : bool :=
  forallb (fun j => List.length (filter (Nat.eqb j) dims) =? 1)
          (seq 0 (List.length dims)).

Definition permute (dims : list nat) (t : Tensor R) : result (Tensor R) :=
  if negb (List.length dims =? List.length (shape t)) then
    Raise (RuntimeError "number of dims does not match in permute")
  else if negb (is_permutation dims) then
    Raise (RuntimeError "repeated or out-of-range dim in permute")
  else
    Ok (tgen (map (fun d => nth d (shape t) 0) dims)
             (fun idx =>
                tget t (map (fun j => nth (index_of j dims) idx 0)
                            (seq 0 (List.length dims))))).

(** *** [Tensor.transpose(dim0, dim1)]; negative axes count from the end *)
Definition wrap_dim (rank : nat) (d : Z) : result nat :=
  let r := Z.of_nat (Nat.max rank 1) in
  if ((d <? - r) || (r <=? d))%Z then Raise IndexError
  else Ok (Z.to_nat (if (d <? 0)%Z then d + r else d)%Z).

Definition swap_nth {A} (i j : nat) (dflt : A) (l : list A) : list A :=
  set_nth i (nth j l dflt) (set_nth j (nth i l dflt) l).

Definition transpose (d0 d1 : Z) (t : Tensor R) : result (Tensor R) :=
  match wrap_dim (List.length (shape t)) d0,
        wrap_dim (List.length (shape t)) d1 with
  | Ok i, Ok j =>
      Ok (tgen (swap_nth i j 0 (shape t))
               (fun idx => tget t (swap_nth i j 0 idx)))
  | Raise e, _ => Raise e
  | _, Raise e => Raise e
  end.

(** *** Tuple unpacking [q, k, v = t]: iteration over the first axis *)
Definition slice0 (i : nat) (t : Tensor R) : Tensor R :=
  let sh := tl (shape t) in
  mkTensor sh (firstn (numel sh) (skipn (i * numel sh) (data t))).

Definition unpack3 (t : Tensor R) : result (Tensor R * Tensor R * Tensor R) :=
  match shape t with
  | [] => Raise TypeError
  | d :: _ =>
      if d =? 3 then Ok (slice0 0 t, slice0 1 t, slice0 2 t)
      else Raise (ValueError "not enough or too many values to unpack")
  end.

(** *** Sums and inner products *)
Definition rsum (l : list R) : R := fold_right radd r0 l.

Definition dotp (a b : list R) : R :=
  rsum (map (fun xy => rmul (fst xy) (snd xy)) (combine a b)).

(** *** [a @ b] ([torch.matmul])

    The last two axes are multiplied as matrices, the leading axes are
    broadcast.  An operand of rank 1 is treated as a row (left) or column
    (right) whose added axis is removed from the result. *)
Definition matmul_nd (a b : Tensor R) : result (Tensor R) :=
  match rev (shape a), rev (shape b) with
  | k :: n :: ba, m :: k' :: bb =>
      if k =? k' then
        match broadcast_rev ba bb with
        | Raise e => Raise e
        | Ok br =>
            let bs := rev br in
            let nb := List.length bs in
            Ok (tgen (bs ++ [n; m])
                     (fun idx =>
                        let bi := firstn nb idx in
                        let i := nth nb idx 0 in
                        let j := nth (S nb) idx 0 in
                        rsum (map (fun l =>
                                     rmul
                                       (tget a (bidx (rev ba) bi ++ [i; l]))
                                       (tget b (bidx (rev bb) bi ++ [l; j])))
                                  (seq 0 k))))
        end
      else Raise (RuntimeError "matrix shapes cannot be multiplied")
  | _, _ => Raise (RuntimeError "matmul operands must be at least 1D")
  end.

Definition matmul (a b : Tensor R) : result (Tensor R) :=
  match shape a, shape b with
  | [], _ | _, [] => Raise (RuntimeError "matmul operands must be at least 1D")
  | [k], [k'] =>
      match matmul_nd (mkTensor [1; k] (data a)) (mkTensor [k'; 1] (data b)) with
      | Ok r => Ok (mkTensor [] (data r))
      | Raise e => Raise e
      end
  | [k], _ =>
      match matmul_nd (mkTensor [1; k] (data a)) b with
      | Ok r => Ok (mkTensor (removelast (removelast (shape r))
                              ++ [last (shape r) 0]) (data r))
      | Raise e => Raise e
      end
  | _, [k'] =>
      match matmul_nd a (mkTensor [k'; 1] (data b)) with
      | Ok r => Ok (mkTensor (removelast (shape r)) (data r))
      | Raise e => Raise e
      end
  | _, _ => matmul_nd a b
  end.

(** *** Row-wise operations on the last axis *)
Definition last_dim (sh : list nat) : nat := last sh 1.

Definition rows (t : Tensor R) : list (list R) :=
  chunks (last_dim (shape t)) (numel (removelast (shape t))) (data t).

Definition softmax_row (l : list R) : list R :=
  let e := map rexp l in
  map (fun x => rdiv x (rsum e)) e.

(** [Tensor.softmax(dim=-1)] *)
Definition softmax (t : Tensor R) : Tensor R :=
  mkTensor (shape t) (concat (map softmax_row (rows t))).

End TensorLibrary.

(** ** ImgPatches *)

Module ImgPatches.

Record t : Type := mk { patch_size : Z }.

Definition init (patch_size : Z) : t := mk patch_size.

Section Forward.
Context {R : Type} {SR : Scalar R}.
Local Open Scope result_scope.

Definition forward (self : t) (img : Tensor R) : result (Tensor R) :=
  match shape img with
  | [b; c; h; w] =>
      let? u := unfold 2 (patch_size self) (patch_size self) img in
      let? patches := unfold 3 (patch_size self) (patch_size self) u in
      reshape [Z.of_nat b; (-1)%Z;
               (Z.of_nat c * patch_size self * patch_size self)%Z]
              patches
  | _ => Raise (ValueError "not enough or too many values to unpack")
  end.
End Forward.

End ImgPatches.

(** ** Random source, interpreter state and effects

    Parameter initialisation and dropout draw from the library's random
    generator, and [print] writes to standard output.  Both are threaded
    through every stateful call. *)

Class Random (R G : Type) : Type := {
  rand_keep : Q -> G -> bool * G;
  rand_init : nat -> G -> R * G
}.

Record world (G : Type) : Type := mkWorld {
  w_rng : G;
  w_stdout : list string
}.
Arguments mkWorld {G} w_rng w_stdout.

Definition M (G A : Type) : Type := world G -> result (A * world G).

Definition ret {G A} (a : A) : M G A := fun w => Ok (a, w).

Definition bind {G A B} (c : M G A) (k : A -> M G B) : M G B :=
  fun w =>
    match c w with
    | Ok (a, w') => k a w'
    | Raise e => Raise e
    end.

Definition lift {G A} (r : result A) : M G A :=
  fun w =>
    match r with
    | Ok a => Ok (a, w)
    | Raise e => Raise e
    end.

Definition raise {G A} (e : exn) : M G A := fun _ => Raise e.

Definition print {G} (line : string) : M G unit :=
  fun w => Ok (tt, mkWorld (w_rng w) (w_stdout w ++ [line])).

(** The value a call returns, without the state it leaves. *)
Definition value {A W} (r : result (A * W)) : result A :=
  match r with
  | Ok (a, _) => Ok a
  | Raise e => Raise e
  end.

Declare Scope monad_scope.
Delimit Scope monad_scope with monad.
Notation "x <- c ;; k" := (bind c (fun x => k))
  (at level 61, c at next level, right associativity) : monad_scope.
Notation "' pat <- c ;; k" := (bind c (fun x => match x with pat => k end))
  (at level 61, pat pattern, c at next level, right associativity)
  : monad_scope.

(** [n] successive draws. *)
Fixpoint draws {G A} (f : G -> A * G) (n : nat) (g : G) : list A * G :=
  match n with
  | O => ([], g)
  | S n' =>
      let (a, g1) := f g in
      let (l, g2) := draws f n' g1 in
      (a :: l, g2)
  end.

(** ** nn.Dropout *)

Module Dropout.

Record t : Type := mk { p : Q; training : bool }.

Definition init (p : Q) : result t :=
  if Qle_bool 0 p && Qle_bool p 1 then Ok (mk p true)
  else Raise (ValueError "dropout probability has to be between 0 and 1").

(** No randomness is consumed when the layer cannot drop anything. *)
Definition inert (self : t) : bool :=
  Qeq_bool (p self) 0 || negb (training self).

Section Forward.
Context {R G : Type} {SR : Scalar R} {RG : Random R G}.

Definition noise (self : t) (keep : bool) : R :=
  rdiv (if keep then r1 else r0) (r_of_Q (1 - p self)).

Definition forward (self : t) (x : Tensor R) : M G (Tensor R) :=
  fun w =>
    if inert self || (numel (shape x) =? 0) then Ok (x, w)
    else if Qeq_bool (p self) 1 then Ok (tmul_scalar x r0, w)
    else
      let (ks, g) :=
        draws (rand_keep (p self)) (List.length (data x)) (w_rng w) in
      Ok (mkTensor (shape x)
                   (map (fun xk => rmul (fst xk) (noise self (snd xk)))
                        (combine (data x) ks)),
          mkWorld g (w_stdout w)).
End Forward.

End Dropout.

(** ** nn.Linear *)

Module Linear.

Record t (R : Type) : Type := mk {
  weight : Tensor R;
  bias : option (Tensor R)
}.
Arguments mk {R} weight bias.

Section Linear.
Context {R G : Type} {SR : Scalar R} {RG : Random R G}.
Local Open Scope monad_scope.

Definition rand_tensor (sh : list nat) (fan_in : nat) : M G (Tensor R) :=
  fun w =>
    let (l, g) := draws (rand_init fan_in) (numel sh) (w_rng w) in
    Ok (mkTensor sh l, mkWorld g (w_stdout w)).

Definition init (in_features out_features : Z) (use_bias : bool)
  : M G (t R) :=
  if ((in_features <? 0) || (out_features <? 0))%Z then
    raise (RuntimeError "trying to create tensor with negative dimension")
  else
    let i := Z.to_nat in_features in
    let o := Z.to_nat out_features in
    w <- rand_tensor [o; i] i ;;
    if use_bias then
      b <- rand_tensor [o] i ;;
      ret (mk w (Some b))
    else ret (mk w None).

Definition forward (self : t R) (x : Tensor R) : result (Tensor R) :=
  match shape (weight self), shape x with
  | [o; i], _ :: _ =>
      if last_dim (shape x) =? i then
        let y :=
          mkTensor (removelast (shape x) ++ [o])
                   (concat (map (fun r => map (dotp r) (rows (weight self)))
                                (rows x))) in
        match bias self with
        | None => Ok y
        | Some b => tadd y b
        end
      else Raise (RuntimeError "mat1 and mat2 shapes cannot be multiplied")
  | _, _ => Raise (RuntimeError "linear: bad operand ranks")
  end.
End Linear.

End Linear.

(** ** nn.LayerNorm *)

Module LayerNorm.

Record t (R : Type) : Type := mk {
  normalized_shape : nat;
  eps : R;
  weight : Tensor R;
  bias : Tensor R
}.
Arguments mk {R} normalized_shape eps weight bias.

Section LayerNorm.
Context {R : Type} {SR : Scalar R}.

Definition init (dim : Z) : result (t R) :=
  if (dim <? 0)%Z then
    Raise (RuntimeError "trying to create tensor with negative dimension")
  else
    let n := Z.to_nat dim in
    Ok (mk n (r_of_Q (1 # 100000))
           (mkTensor [n] (repeat r1 n)) (mkTensor [n] (repeat r0 n))).

Definition norm_row (self : t R) (r : list R) : list R :=
  let n := r_of_Z (Z.of_nat (List.length r)) in
  let mean := rdiv (rsum r) n in
  let var :=
    rdiv (rsum (map (fun x => rmul (rsub x mean) (rsub x mean)) r)) n in
  map (fun xwb =>
         radd (rmul (rdiv (rsub (fst xwb) mean)
                          (rsqrt (radd var (eps self))))
                    (fst (snd xwb)))
              (snd (snd xwb)))
      (combine r (combine (data (weight self)) (data (bias self)))).

Definition forward (self : t R) (x : Tensor R) : result (Tensor R) :=
  match shape x with
  | [] => Raise (RuntimeError "input shape does not end with normalized_shape")
  | _ :: _ =>
      if last_dim (shape x) =? normalized_shape self then
        Ok (mkTensor (shape x) (concat (map (norm_row self) (rows x))))
      else
        Raise (RuntimeError "input shape does not end with normalized_shape")
  end.
End LayerNorm.

End LayerNorm.

(** Python truth value of an optional integer argument. *)
Definition falsy (o : option Z) : bool :=
  match o with
  | None => true
  | Some z => (z =? 0)%Z
  end.

(** ** MLP *)

Module MLP.

Record t (R : Type) : Type := mk {
  fc1 : Linear.t R;
  fc2 : Linear.t R;
  dropout : Dropout.t
}.
Arguments mk {R} fc1 fc2 dropout.

Section MLP.
Context {R G : Type} {SR : Scalar R} {RG : Random R G}.
Local Open Scope monad_scope.

Definition init (in_features : Z) (hidden_features out_features : option Z)
           (dropout : Q) : M G (t R) :=
  let hidden_features :=
    if falsy hidden_features then in_features
    else match hidden_features with Some h => h | None => in_features end in
  let out_features :=
    if falsy out_features then in_features
    else match out_features with Some o => o | None => in_features end in
  fc1 <- Linear.init in_features hidden_features true ;;
  fc2 <- Linear.init hidden_features out_features true ;;
  dropout <- lift (Dropout.init dropout) ;;
  ret (mk fc1 fc2 dropout).

Definition forward (self : t R) (x : Tensor R) : M G (Tensor R) :=
  x <- lift (Linear.forward (fc1 self) x) ;;
  x <- ret (tmap rgelu x) ;;
  x <- lift (Linear.forward (fc2 self) x) ;;
  Dropout.forward (dropout self) x.
End MLP.

End MLP.

(** ** Attention *)

Module Attention.

Record t (R : Type) : Type := mk {
  num_heads : Z;
  scale : R;
  qkv : Linear.t R;
  attn_dropout : Dropout.t;
  out : Linear.t R * Dropout.t
}.
Arguments mk {R} num_heads scale qkv attn_dropout out.

Section Attention.
Context {R G : Type} {SR : Scalar R} {RG : Random R G}.
Local Open Scope monad_scope.

Definition init (dim num_heads : Z) (attn_dropout proj_dropout : Q)
  : M G (t R) :=
  if (dim =? 0)%Z then raise ZeroDivisionError
  else
    let scale := rdiv r1 (rsqrt (r_of_Z dim)) in
    qkv <- Linear.init dim (dim * 3) false ;;
    attn_dropout <- lift (Dropout.init attn_dropout) ;;
    out_linear <- Linear.init dim dim true ;;
    out_dropout <- lift (Dropout.init proj_dropout) ;;
    ret (mk num_heads scale qkv attn_dropout (out_linear, out_dropout)).

(** Lines 40-41: the joint projection, split into heads. *)
Definition qkv_heads (self : t R) (b n c : nat) (x : Tensor R)
  : result (Tensor R * Tensor R * Tensor R) :=
  match Linear.forward (qkv self) x with
  | Raise e => Raise e
  | Ok y =>
      if (num_heads self =? 0)%Z then Raise ZeroDivisionError
      else
        match reshape [Z.of_nat b; Z.of_nat n; 3%Z; num_heads self;
                       (Z.of_nat c / num_heads self)%Z] y with
        | Raise e => Raise e
        | Ok r =>
            match permute [2; 0; 3; 1; 4] r with
            | Raise e => Raise e
            | Ok r' => unpack3 r'
            end
        end
  end.

(** Line 42: the scaled scores. *)
Definition scores (self : t R) (q k : Tensor R) : result (Tensor R) :=
  match transpose (-2) (-1) k with
  | Raise e => Raise e
  | Ok kt =>
      match matmul q kt with
      | Raise e => Raise e
      | Ok qk => Ok (tmul_scalar qk (scale self))
      end
  end.

Definition forward {Mask : Type} (self : t R) (x : Tensor R)
           (mask : option Mask) : M G (Tensor R) :=
  match shape x with
  | [b; n; c] =>
      ' (q, k, v) <- lift (qkv_heads self b n c x) ;;
      dot <- lift (scores self q k) ;;
      _ <- match mask with
           | Some _ => print "Mask is yet to be implemented."
           | None => ret tt
           end ;;
      attn <- ret (softmax dot) ;;
      attn <- Dropout.forward (attn_dropout self) attn ;;
      av <- lift (matmul attn v) ;;
      avt <- lift (transpose 1 2 av) ;;
      x' <- lift (reshape [Z.of_nat b; Z.of_nat n; Z.of_nat c] avt) ;;
      x' <- lift (Linear.forward (fst (out self)) x') ;;
      Dropout.forward (snd (out self)) x'
  | _ => raise (ValueError "not enough or too many values to unpack")
  end.
End Attention.

End Attention.

(** ** Block *)

Module Block.

Record t (R : Type) : Type := mk {
  ln1 : LayerNorm.t R;
  attn : Attention.t R;
  ln2 : LayerNorm.t R;
  mlp : MLP.t R
}.
Arguments mk {R} ln1 attn ln2 mlp.

Section Block.
Context {R G : Type} {SR : Scalar R} {RG : Random R G}.
Local Open Scope monad_scope.

Definition init (dim num_heads mlp_ratio : Z) (drop_rate : Q)
  : M G (t R) :=
  ln1 <- lift (LayerNorm.init dim) ;;
  attn <- Attention.init dim num_heads drop_rate drop_rate ;;
  ln2 <- lift (LayerNorm.init dim) ;;
  mlp <- MLP.init dim (Some (dim * mlp_ratio)%Z) None drop_rate ;;
  ret (mk ln1 attn ln2 mlp).

Definition forward {Mask : Type} (self : t R) (x : Tensor R)
           (mask : option Mask) : M G (Tensor R) :=
  x1 <- lift (LayerNorm.forward (ln1 self) x) ;;
  a <- Attention.forward (attn self) x1 mask ;;
  x <- lift (tadd x a) ;;
  x2 <- lift (LayerNorm.forward (ln2 self) x) ;;
  f <- MLP.forward (mlp self) x2 ;;
  lift (tadd x f).
End Block.

End Block.

(** ** Transformer *)

Module Transformer.

Record t (R : Type) : Type := mk { blocks : list (Block.t R) }.
Arguments mk {R} blocks.

Section Transformer.
Context {R G : Type} {SR : Scalar R} {RG : Random R G}.
Local Open Scope monad_scope.

Fixpoint init_blocks (n : nat) (dim num_heads mlp_ratio : Z)
         (drop_rate : Q) : M G (list (Block.t R)) :=
  match n with
  | O => ret []
  | S n' =>
      b <- Block.init dim num_heads mlp_ratio drop_rate ;;
      bs <- init_blocks n' dim num_heads mlp_ratio drop_rate ;;
      ret (b :: bs)
  end.

Definition init (depth dim num_heads mlp_ratio : Z) (drop_rate : Q)
  : M G (t R) :=
  bs <- init_blocks (Z.to_nat depth) dim num_heads mlp_ratio drop_rate ;;
  ret (mk bs).

Fixpoint forward_blocks {Mask : Type} (bs : list (Block.t R))
         (x : Tensor R) (mask : option Mask) : M G (Tensor R) :=
  match bs with
  | [] => ret x
  | block :: bs' =>
      x <- Block.forward block x mask ;;
      forward_blocks bs' x mask
  end.

Definition forward {Mask : Type} (self : t R) (x : Tensor R)
           (mask : option Mask) : M G (Tensor R) :=
  forward_blocks (blocks self) x mask.
End Transformer.

End Transformer.

(** ** ViT *)

Module ViT.

Record config : Type := mkConfig {
  img_size : Z;
  patch_size : Z;
  in_ch : Z;
  num_classes : Z;
  use_mlp : bool;
  embed_dim : Z;
  depth : Z;
  num_heads : Z;
  mlp_ratio : Z;
  drop_rate : Q
}.

Definition default_config : config :=
  mkConfig 224 16 3 1000 true 768 12 12 4 0.

Inductive head (R : Type) : Type :=
| HeadMLP (m : MLP.t R)
| HeadLinear (l : Linear.t R).
Arguments HeadMLP {R} m.
Arguments HeadLinear {R} l.

Record t (R : Type) : Type := mk {
  patches : ImgPatches.t;
  patch_embed : Linear.t R;
  pos_emb : Tensor R;
  cls_emb : Tensor R;
  transfomer : Transformer.t R;
  norm : LayerNorm.t R;
  out : head R
}.
Arguments mk {R} patches patch_embed pos_emb cls_emb transfomer norm out.

Section ViT.
Context {R G : Type} {SR : Scalar R} {RG : Random R G}.
Local Open Scope monad_scope.

(** [torch.zeros] *)
Definition zeros (sizes : list Z) : result (Tensor R) :=
  if existsb (fun d => (d <? 0)%Z) sizes then
    Raise (RuntimeError "trying to create tensor with negative dimension")
  else
    let sh := map Z.to_nat sizes in
    Ok (mkTensor sh (repeat r0 (numel sh))).

Definition init (cfg : config) : M G (t R) :=
  if (patch_size cfg =? 0)%Z then raise ZeroDivisionError
  else if negb (img_size cfg mod patch_size cfg =? 0)%Z then
    raise (ValueError "Image size must be divisible by patch size.")
  else
    let num_patches := ((img_size cfg / patch_size cfg) ^ 2)%Z in
    let patch_dim := (in_ch cfg * patch_size cfg * patch_size cfg)%Z in
    let patches := ImgPatches.init (patch_size cfg) in
    patch_embed <- Linear.init patch_dim (embed_dim cfg) true ;;
    pos_emb <- lift (zeros [1; num_patches + 1; embed_dim cfg]%Z) ;;
    cls_emb <- lift (zeros [1; 1; embed_dim cfg]%Z) ;;
    transfomer <- Transformer.init (depth cfg) (embed_dim cfg)
                    (num_heads cfg) (mlp_ratio cfg) (drop_rate cfg) ;;
    norm <- lift (LayerNorm.init (embed_dim cfg)) ;;
    out <- (if use_mlp cfg then
              m <- MLP.init (embed_dim cfg)
                     (Some (embed_dim cfg * mlp_ratio cfg)%Z)
                     (Some (num_classes cfg)) 0 ;;
              ret (HeadMLP m)
            else
              l <- Linear.init (embed_dim cfg) (num_classes cfg) true ;;
              ret (HeadLinear l)) ;;
    ret (mk patches patch_embed pos_emb cls_emb transfomer norm out).

Definition forward {Mask : Type} (self : t R) (x : Tensor R)
           (mask : option Mask) : M G (Tensor R) :=
  b <- lift (match shape x with
             | b :: _ => Ok b
             | [] => Raise IndexError
             end) ;;
  cls_token <- lift (expand [Z.of_nat b; -1; -1]%Z (cls_emb self)) ;;
  p <- lift (ImgPatches.forward (patches self) x) ;;
  x <- lift (Linear.forward (patch_embed self) p) ;;
  x <- lift (cat 1 cls_token x) ;;
  x <- lift (tadd_inplace x (pos_emb self)) ;;
  x <- Transformer.forward (transfomer self) x mask ;;
  x <- lift (select_first x) ;;
  x <- lift (LayerNorm.forward (norm self) x) ;;
  match out self with
  | HeadMLP m => MLP.forward m x
  | HeadLinear l => lift (Linear.forward l x)
  end.
End ViT.

End ViT.

(** ** Vocabulary of the patch properties *)

Section PatchVocabulary.
Context {R : Type} {SR : Scalar R}.

(** Block [j] of the grid of [p] x [p] blocks of image [bi], in row-major
    order of the grid, flattened over channel, row and column. *)
Definition block_patch (p : nat) (img : Tensor R) (bi j : nat) : list R :=
  match shape img with
  | [_; c; _; w] =>
      map (fun idx =>
             tget img [bi; nth 0 idx 0;
                       (j / (w / p)) * p + nth 1 idx 0;
                       (j mod (w / p)) * p + nth 2 idx 0])
          (indices [c; p; p])
  | _ => []
  end.

(** Entry [j] of sequence [bi] of a rank-3 tensor. *)
Definition patch_at (out : Tensor R) (bi j : nat) : list R :=
  match shape out with
  | [_; n; d] => firstn d (skipn ((bi * n + j) * d) (data out))
  | _ => []
  end.

(** The top-left [hh] x [ww] region of every channel of every image. *)
Definition top_left (hh ww : nat) (img : Tensor R) : Tensor R :=
  match shape img with
  | [b; c; _; _] => tgen [b; c; hh; ww] (tget img)
  | _ => img
  end.
(** The rank-6 view [img.unfold(2, p, p).unfold(3, p, p)]. *)
Definition patch_view (p : nat) (img : Tensor R) (b c h w : nat) : Tensor R :=
  tgen [b; c; h / p; w / p; p; p]
       (fun idx =>
          tget (tgen [b; c; h / p; w; p]
                     (fun i => tget img (unfold_src 2 p i)))
               (unfold_src 3 p idx)).
End PatchVocabulary.

(** ** Vocabulary of the module properties *)

(** A linear layer from [i] to [o] features. *)
Definition Linear_dims {R} (l : Linear.t R) (i o : nat) : Prop :=
  shape (Linear.weight l) = [o; i]
  /\ match Linear.bias l with
     | Some b => shape b = [o]
     | None => True
     end.

Definition MLP_dims {R} (m : MLP.t R) (i h o : nat) : Prop :=
  Linear_dims (MLP.fc1 m) i h /\ Linear_dims (MLP.fc2 m) h o.

Definition Attention_dims {R} (a : Attention.t R) (dim : nat) : Prop :=
  Linear_dims (Attention.qkv a) dim (dim * 3)
  /\ Linear_dims (fst (Attention.out a)) dim dim.

Definition Block_dims {R} (b : Block.t R) (dim : nat) : Prop :=
  LayerNorm.normalized_shape (Block.ln1 b) = dim
  /\ Attention_dims (Block.attn b) dim
  /\ LayerNorm.normalized_shape (Block.ln2 b) = dim
  /\ exists h, MLP_dims (Block.mlp b) dim h dim.

(** The dropout layers a module owns. *)
Definition MLP_dropouts {R} (m : MLP.t R) : list Dropout.t :=
  [MLP.dropout m].

Definition Attention_dropouts {R} (a : Attention.t R) : list Dropout.t :=
  [Attention.attn_dropout a; snd (Attention.out a)].

Definition Block_dropouts {R} (b : Block.t R) : list Dropout.t :=
  Attention_dropouts (Block.attn b) ++ MLP_dropouts (Block.mlp b).

Definition Transformer_dropouts {R} (t : Transformer.t R) : list Dropout.t :=
  flat_map Block_dropouts (Transformer.blocks t).

Definition ViT_dropouts {R} (m : ViT.t R) : list Dropout.t :=
  Transformer_dropouts (ViT.transfomer m)
  ++ match ViT.out m with
     | ViT.HeadMLP h => MLP_dropouts h
     | ViT.HeadLinear _ => []
     end.

(** Two stateful computations agree up to the relation [P] on states: from
    related states they raise the same exception or return the same value
    in related states. *)
Definition agree {G A} (P : world G -> world G -> Prop) (c1 c2 : M G A)
  : Prop :=
  forall w1 w2, P w1 w2 ->
    match c1 w1, c2 w2 with
    | Ok (a1, w1'), Ok (a2, w2') => a1 = a2 /\ P w1' w2'
    | Raise e1, Raise e2 => e1 = e2
    | _, _ => False
    end.

Definition same_rng {G} (w1 w2 : world G) : Prop := w_rng w1 = w_rng w2.

(** Arguments the library's constructors accept: no negative dimension, a
    non-zero embedding dimension and a dropout probability in [0, 1]. *)
Definition library_accepts (cfg : ViT.config) : bool :=
  ((0 <=? ViT.in_ch cfg) && (0 <? ViT.embed_dim cfg)
   && (0 <=? ViT.mlp_ratio cfg) && (0 <=? ViT.num_classes cfg))%Z
  && Qle_bool 0 (ViT.drop_rate cfg) && Qle_bool (ViT.drop_rate cfg) 1.

(** ** Vocabulary of the attention scores *)

(** Lines 44-53 of [Attention.forward]: what the module does with the scaled
    scores [dot] and the values [v]. *)
Definition Attention_after_scores {R G : Type} {SR : Scalar R}
           {RG : Random R G} {Mask : Type} (self : Attention.t R)
           (b n c : nat) (v dot : Tensor R) (mask : option Mask)
  : M G (Tensor R) :=
  (_ <- match mask with
        | Some _ => print "Mask is yet to be implemented."
        | None => ret tt
        end ;;
   attn <- ret (softmax dot) ;;
   attn <- Dropout.forward (Attention.attn_dropout self) attn ;;
   av <- lift (matmul attn v) ;;
   avt <- lift (transpose 1 2 av) ;;
   x' <- lift (reshape [Z.of_nat b; Z.of_nat n; Z.of_nat c] avt) ;;
   x' <- lift (Linear.forward (fst (Attention.out self)) x') ;;
   Dropout.forward (snd (Attention.out self)) x')%monad.

(** ** Vocabulary of the further properties *)

(** The number of logits the classification head produces. *)
Definition ViT_out_dim (cfg : ViT.config) : Z :=
  if ViT.use_mlp cfg && (ViT.num_classes cfg =? 0)%Z then ViT.embed_dim cfg
  else ViT.num_classes cfg.

(** The line [Attention.forward] prints when it is given a mask. *)
Definition mask_notice : string := "Mask is yet to be implemented.".

(** Number of notices one attention call prints. *)
Definition notice_count {Mask : Type} (mask : option Mask) : nat :=
  match mask with
  | Some _ => 1
  | None => 0
  end.

(** Every successful run of [c] takes the state [w] to a state related to
    it by [Q k]. *)
Definition emits {G A} (Q : nat -> world G -> world G -> Prop) (k : nat)
           (c : M G A) : Prop :=
  forall w a w', c w = Ok (a, w') -> Q k w w'.

(** [k] notices were appended to standard output. *)
Definition printed {G} (k : nat) (w w' : world G) : Prop :=
  w_stdout w' = w_stdout w ++ repeat mask_notice k.

(** [k] notices were appended to standard output and nothing else
    changed. *)
Definition only_printed {G} (k : nat) (w w' : world G) : Prop :=
  w' = mkWorld (w_rng w) (w_stdout w ++ repeat mask_notice k).

Section PatchOrderVocabulary.
Context {R : Type} {SR : Scalar R}.

(** Block [k] (row-major in the grid) of channel [ch] of image [bi],
    flattened row by row. *)
Definition channel_block (p : nat) (img : Tensor R) (bi ch k : nat) : list R :=
  match shape img with
  | [_; _; _; w] =>
      map (fun i2 => tget img [bi; ch; (k / (w / p)) * p + nth 0 i2 0;
                               (k mod (w / p)) * p + nth 1 i2 0])
          (indices [p; p])
  | _ => []
  end.

(** All rows of sequence [bi] of a rank-3 tensor, one after the other. *)
Definition sequence_data (out : Tensor R) (bi : nat) : list R :=
  match shape out with
  | [_; n; d] => firstn (n * d) (skipn (bi * (n * d)) (data out))
  | _ => []
  end.
End PatchOrderVocabulary.

(** A concrete scalar instance, used to run the definitions. *)
#[export] Instance Scalar_Z : Scalar Z := {|
  r0 := 0%Z; r1 := 1%Z;
  radd := Z.add; rsub := Z.sub; rmul := Z.mul; rdiv := Z.div;
  rsqrt := Z.sqrt; rexp := fun x => x; rgelu := fun x => x;
  r_of_Z := fun z => z;
  r_of_Q := fun q => (Qnum q / Zpos (Qden q))%Z
|}.

(** A counter as random source: every draw keeps the element and advances
    the counter. *)
#[export] Instance Random_Z : Random Z nat := {|
  rand_keep := fun _ g => (Nat.even g, S g);
  rand_init := fun _ g => (Z.of_nat g, S g)
|}.

(** Scalars as the formulas that denote them: no two different formulas are
    identified, so a computed value shows how it was computed. *)
Inductive formula : Type :=
| FInt (z : Z)
| FRat (q : Q)
| FParam (n : nat)
| FAdd (a b : formula)
| FSub (a b : formula)
| FMul (a b : formula)
| FDiv (a b : formula)
| FSqrt (a : formula)
| FExp (a : formula)
| FGelu (a : formula).

#[export] Instance Scalar_formula : Scalar formula := {|
  r0 := FInt 0; r1 := FInt 1;
  radd := FAdd; rsub := FSub; rmul := FMul; rdiv := FDiv;
  rsqrt := FSqrt; rexp := FExp; rgelu := FGelu;
  r_of_Z := FInt;
  r_of_Q := FRat
|}.

(** Initial weights are named parameters, numbered by the draw. *)
#[export] Instance Random_formula : Random formula nat := {|
  rand_keep := fun _ g => (Nat.even g, S g);
  rand_init := fun _ g => (FParam g, S g)
|}.

(** * Properties *)

(** ** Index enumeration *)

Lemma flat_map_block_length {A B} (g : A -> list B) (n : nat) (l : list A) :
  (forall a, List.length (g a) = n) ->
  List.length (flat_map g l) = List.length l * n.
Proof.
  intros Hg. induction l as [|a l IH]; simpl; [reflexivity|].
  rewrite length_app, Hg, IH. reflexivity.
Qed.

Lemma indices_length (sh : list nat) : List.length (indices sh) = numel sh.
Proof.
  induction sh as [|d sh IH]; simpl; [reflexivity|].
  rewrite flat_map_block_length with (n := numel sh).
  - now rewrite length_seq.
  - intros a. now rewrite length_map.
Qed.

Lemma flat_map_block_nth {B} (g : nat -> list B) (n : nat) (dflt : B) :
  (forall a, List.length (g a) = n) ->
  forall d s i k, i < d -> k < n ->
    nth (i * n + k) (flat_map g (seq s d)) dflt = nth k (g (s + i)) dflt.
Proof.
  intros Hg. induction d as [|d IH]; intros s i k Hi Hk; [lia|].
  simpl. destruct i as [|i].
  - simpl. rewrite app_nth1 by (rewrite Hg; exact Hk).
    now rewrite Nat.add_0_r.
  - rewrite app_nth2 by (rewrite Hg; simpl; lia).
    rewrite Hg. replace (S i * n + k - n) with (i * n + k) by (simpl; lia).
    rewrite IH by lia. f_equal. f_equal. lia.
Qed.

Lemma offset_lt (sh idx : list nat) :
  in_bounds sh idx -> offset sh idx < numel sh.
Proof.
  unfold in_bounds. intros H. induction H as [|i d idx sh Hlt _ IH]; simpl.
  - lia.
  - nia.
Qed.

Lemma indices_nth (sh idx : list nat) :
  in_bounds sh idx -> nth (offset sh idx) (indices sh) [] = idx.
Proof.
  unfold in_bounds. intros H. induction H as [|i d idx sh Hlt Hb IH]; simpl.
  - reflexivity.
  - assert (Ho : offset sh idx < numel sh) by (apply offset_lt; exact Hb).
    rewrite flat_map_block_nth with (n := numel sh); try assumption.
    + simpl. rewrite nth_indep with (d' := i :: [])
        by (rewrite length_map, indices_length; exact Ho).
      rewrite map_nth with (f := cons i). now rewrite IH.
    + intros a. now rewrite length_map, indices_length.
Qed.

Lemma indices_in_bounds (sh idx : list nat) :
  In idx (indices sh) -> in_bounds sh idx.
Proof.
  unfold in_bounds. revert idx. induction sh as [|d sh IH]; simpl; intros idx H.
  - destruct H as [<-|[]]. constructor.
  - apply in_flat_map in H. destruct H as [i [Hi H]].
    apply in_map_iff in H. destruct H as [idx' [<- H]].
    apply in_seq in Hi. constructor; [lia|]. now apply IH.
Qed.

Section TensorFacts.
Context {R : Type} {SR : Scalar R}.

Lemma tget_tgen (sh : list nat) (f : list nat -> R) (idx : list nat) :
  in_bounds sh idx -> tget (tgen sh f) idx = f idx.
Proof.
  intros H. unfold tget, tgen. simpl.
  rewrite nth_indep with (d' := f [])
    by (rewrite length_map, indices_length; now apply offset_lt).
  rewrite map_nth. now rewrite indices_nth.
Qed.

Lemma tgen_ext (sh : list nat) (f g : list nat -> R) :
  (forall idx, in_bounds sh idx -> f idx = g idx) -> tgen sh f = tgen sh g.
Proof.
  intros H. unfold tgen. f_equal. apply map_ext_in.
  intros idx Hin. apply H. now apply indices_in_bounds.
Qed.

Lemma wf_tgen (sh : list nat) (f : list nat -> R) : wf (tgen sh f).
Proof. unfold wf, tgen. simpl. now rewrite length_map, indices_length. Qed.
End TensorFacts.

Section PatchFacts.
Context {R : Type} {SR : Scalar R}.

Lemma unfold_ok (dim p n : nat) (t : Tensor R) :
  nth_error (shape t) dim = Some n -> 1 <= p -> p <= n ->
  unfold dim (Z.of_nat p) (Z.of_nat p) t
  = Ok (tgen (set_nth dim (n / p) (shape t) ++ [p])
             (fun idx => tget t (unfold_src dim p idx))).
Proof.
  intros Hn Hp Hpn. unfold unfold. rewrite Hn.
  destruct (Z.ltb_spec (Z.of_nat n) (Z.of_nat p)); [lia|].
  destruct (Z.leb_spec (Z.of_nat p) 0); [lia|].
  destruct (Z.ltb_spec (Z.of_nat p) 0); [lia|].
  rewrite Nat2Z.id.
  replace ((n - p) / p + 1) with (n / p); [reflexivity|].
  replace n with ((n - p) + 1 * p) at 1 by lia.
  rewrite Nat.div_add by lia. reflexivity.
Qed.

Lemma unfold_too_small (dim p n : nat) (t : Tensor R) :
  nth_error (shape t) dim = Some n -> n < p ->
  unfold dim (Z.of_nat p) (Z.of_nat p) t
  = Raise (RuntimeError "maximum size for tensor at dimension exceeded").
Proof.
  intros Hn Hlt. unfold unfold. rewrite Hn.
  destruct (Z.ltb_spec (Z.of_nat n) (Z.of_nat p)); [reflexivity|lia].
Qed.

Lemma reshape_infer_middle (x y : nat) (t : Tensor R) :
  0 < x * y -> numel (shape t) mod (x * y) = 0 ->
  reshape [Z.of_nat x; (-1)%Z; Z.of_nat y] t
  = Ok (mkTensor [x; numel (shape t) / (x * y); y] (data t)).
Proof.
  intros Hpos Hmod. unfold reshape, count_infer, known_size. simpl.
  destruct (Z.ltb_spec (Z.of_nat x) (-1)); [lia|].
  destruct (Z.ltb_spec (Z.of_nat y) (-1)); [lia|].
  destruct (Z.eqb_spec (Z.of_nat x) (-1)); [lia|].
  destruct (Z.eqb_spec (Z.of_nat y) (-1)); [lia|].
  simpl. rewrite !Nat2Z.id. rewrite Nat.mul_1_r.
  destruct (Nat.eqb_spec (x * y) 0); [lia|].
  rewrite Hmod. simpl.
  destruct (Nat.ltb_spec 0 (x * y)); [|lia].
  simpl. rewrite orb_true_r. reflexivity.
Qed.

Lemma forward_view (p : nat) (img : Tensor R) (b c h w : nat) :
  shape img = [b; c; h; w] ->
  1 <= b -> 1 <= c -> 1 <= p -> p <= h -> p <= w ->
  ImgPatches.forward (ImgPatches.init (Z.of_nat p)) img
  = Ok (mkTensor [b; (h / p) * (w / p); c * p * p]
                 (data (patch_view p img b c h w))).
Proof.
  intros Hs Hb Hc Hp Hh Hw. unfold ImgPatches.forward. rewrite Hs. simpl.
  rewrite (@unfold_ok 2 p h img) by (rewrite ?Hs; simpl; auto).
  rewrite Hs. simpl.
  rewrite (@unfold_ok 3 p w) by (simpl; auto).
  simpl. rewrite <- !Nat2Z.inj_mul.
  rewrite reshape_infer_middle.
  - simpl. unfold patch_view. simpl. rewrite Nat.mul_1_r.
    replace (b * (c * (h / p * (w / p * (p * p)))))
      with ((h / p * (w / p)) * (b * (c * p * p))) by lia.
    rewrite Nat.div_mul by nia. reflexivity.
  - nia.
  - simpl. rewrite Nat.mul_1_r.
    replace (b * (c * (h / p * (w / p * (p * p)))))
      with ((h / p * (w / p)) * (b * (c * p * p))) by lia.
    apply Nat.Div0.mod_mul.
Qed.
End PatchFacts.

(** ** ImgPatches *)

Ltac invert_bounds :=
  repeat match goal with
         | H : in_bounds _ _ |- _ => unfold in_bounds in H
         | H : Forall2 _ _ (_ :: _) |- _ => inversion H; subst; clear H
         | H : Forall2 _ _ [] |- _ => inversion H; subst; clear H
         end.

Ltac prove_bounds :=
  unfold in_bounds, swap_nth; simpl;
  repeat (constructor; try assumption; try nia).

Section PatchTheorems.
Context {R : Type} {SR : Scalar R}.

Lemma divides_le (p h : nat) : 1 <= p -> 1 <= h -> h mod p = 0 -> p <= h.
Proof.
  intros Hp Hh Hm. pose proof (Nat.div_mod_eq h p) as E.
  rewrite Hm in E. destruct (h / p); nia.
Qed.

Lemma patch_view_top_left (p : nat) (img : Tensor R) (b c h w : nat) :
  shape img = [b; c; h; w] -> 1 <= p ->
  patch_view p (top_left (h / p * p) (w / p * p) img) b c
             (h / p * p) (w / p * p)
  = patch_view p img b c h w.
Proof.
  intros Hs Hp. unfold patch_view, top_left. rewrite Hs.
  rewrite !Nat.div_mul by lia.
  pose proof (Nat.Div0.mul_div_le h p) as Hh.
  pose proof (Nat.Div0.mul_div_le w p) as Hw.
  apply tgen_ext. intros idx Hb. invert_bounds.
  match goal with
  | Hi : ?i < h / p, Hj : ?j < w / p, Hr : ?r < p, Hq : ?q < p |- _ =>
      assert (i * p + r < h / p * p) by nia;
      assert (j * p + q < w / p * p) by nia;
      assert (j * p + q < w) by nia
  end.
  unfold unfold_src. simpl.
  rewrite !tget_tgen by prove_bounds.
  unfold unfold_src. simpl.
  rewrite ?tget_tgen by prove_bounds. reflexivity.
Qed.

(** C9.  With patch size 16, every image tensor of shape (1, 3, 32, 32)
    is mapped by [ImgPatches.forward] to a patch sequence of shape
    (1, 4, 768); in general, for a non-empty image tensor (B, C, H, W) whose
    height and width are multiples of the patch size P, the result has
    (H/P)*(W/P) patches of flattened dimension C*P*P. *)
Theorem patches_shape :
  (forall img : Tensor R,
      shape img = [1; 3; 32; 32] ->
      exists out,
        ImgPatches.forward (ImgPatches.init 16) img = Ok out
        /\ shape out = [1; 4; 768])
  /\ (forall (p b c h w : nat) (img : Tensor R),
         shape img = [b; c; h; w] ->
         1 <= b -> 1 <= c -> 1 <= h -> 1 <= w -> 1 <= p ->
         h mod p = 0 -> w mod p = 0 ->
         exists out,
           ImgPatches.forward (ImgPatches.init (Z.of_nat p)) img = Ok out
           /\ shape out = [b; (h / p) * (w / p); c * p * p]).
Proof.
  assert (G : forall (p b c h w : nat) (img : Tensor R),
             shape img = [b; c; h; w] ->
             1 <= b -> 1 <= c -> 1 <= h -> 1 <= w -> 1 <= p ->
             h mod p = 0 -> w mod p = 0 ->
             exists out,
               ImgPatches.forward (ImgPatches.init (Z.of_nat p)) img = Ok out
               /\ shape out = [b; (h / p) * (w / p); c * p * p]).
  { intros p b c h w img Hs Hb Hc Hh Hw Hp Hmh Hmw.
    eexists. split.
    - apply forward_view; eauto using divides_le.
    - reflexivity. }
  split; [|exact G].
  intros img Hs.
  destruct (G 16 1 3 32 32 img Hs) as [out [Ho Hsh]];
    try lia; try reflexivity.
  exists out. split; [exact Ho|]. rewrite Hsh. reflexivity.
Qed.

(** C10, as amended.  For a non-empty image tensor (B, C, H, W) and a patch
    size P >= 1, with no divisibility assumed: when H >= P and W >= P the
    call returns floor(H/P)*floor(W/P) patches of dimension C*P*P, and the
    result is the one obtained from the image cut down to its top-left
    floor(H/P)*P rows and floor(W/P)*P columns, so the trailing rows and
    columns are discarded; when H < P or W < P the call raises. *)
Theorem patches_floor (p b c h w : nat) (img : Tensor R) :
  shape img = [b; c; h; w] ->
  1 <= b -> 1 <= c -> 1 <= p ->
  (p <= h -> p <= w ->
   exists out,
     ImgPatches.forward (ImgPatches.init (Z.of_nat p)) img = Ok out
     /\ shape out = [b; (h / p) * (w / p); c * p * p]
     /\ ImgPatches.forward (ImgPatches.init (Z.of_nat p))
          (top_left (h / p * p) (w / p * p) img) = Ok out)
  /\ (h < p \/ w < p ->
      exists e,
        ImgPatches.forward (ImgPatches.init (Z.of_nat p)) img = Raise e).
Proof.
  intros Hs Hb Hc Hp. split.
  - intros Hh Hw. eexists. split; [|split].
    + apply forward_view; eauto.
    + reflexivity.
    + assert (1 <= h / p) by (apply Nat.div_le_lower_bound; lia).
      assert (1 <= w / p) by (apply Nat.div_le_lower_bound; lia).
      rewrite forward_view
        with (b := b) (c := c) (h := h / p * p) (w := w / p * p);
        try assumption; try nia.
      * rewrite !Nat.div_mul by lia.
        rewrite patch_view_top_left by assumption. reflexivity.
      * unfold top_left. rewrite Hs. reflexivity.
  - intros Hsmall. unfold ImgPatches.forward. rewrite Hs. simpl.
    destruct (Nat.lt_ge_cases h p) as [Hlt|Hge].
    + rewrite (@unfold_too_small _ _ 2 p h img)
        by (rewrite ?Hs; simpl; auto).
      simpl. eauto.
    + destruct Hsmall as [Hlt|Hlt]; [lia|].
      rewrite (@unfold_ok _ _ 2 p h img) by (rewrite ?Hs; simpl; auto).
      rewrite Hs. simpl.
      rewrite (@unfold_too_small _ _ 3 p w) by (simpl; auto).
      simpl. eauto.
Qed.
End PatchTheorems.

(** C9 at a concrete image: 2 x 4 pixels, one channel, patch size 2. *)
Lemma patches_shape_witness :
  exists out,
    ImgPatches.forward (ImgPatches.init 2)
      (mkTensor [1; 1; 2; 4] [1; 2; 3; 4; 5; 6; 7; 8]%Z) = Ok out
    /\ shape out = [1; 2; 4].
Proof.
  apply (proj2 (@patches_shape Z Scalar_Z) 2 1 1 2 4
               (mkTensor [1; 1; 2; 4] [1; 2; 3; 4; 5; 6; 7; 8]%Z));
    try reflexivity; lia.
Defined.

(** C10 at a concrete image: 3 x 5 pixels, patch size 2. *)
Lemma patches_floor_witness :
  exists out,
    ImgPatches.forward (ImgPatches.init 2)
      (mkTensor [1; 1; 3; 5] (map Z.of_nat (seq 0 15))) = Ok out
    /\ shape out = [1; 2; 4]
    /\ ImgPatches.forward (ImgPatches.init 2)
         (top_left 2 4 (mkTensor [1; 1; 3; 5] (map Z.of_nat (seq 0 15))))
       = Ok out.
Proof.
  apply (proj1 (@patches_floor Z Scalar_Z 2 1 1 3 5
                  (mkTensor [1; 1; 3; 5] (map Z.of_nat (seq 0 15)))
                  eq_refl (le_n 1) (le_n 1) (le_S _ _ (le_n 1))));
    lia.
Defined.

(** C10 as stated fails: a 1 x 1 image with patch size 2 has a height that
    2 does not divide, and the call raises instead of returning zero
    patches. *)
Lemma patches_small_image_raises :
  ~ exists out,
      ImgPatches.forward (ImgPatches.init 2) (mkTensor [1; 1; 1; 1] [7%Z])
      = Ok out.
Proof.
  intros [out H]. vm_compute in H. discriminate H.
Qed.

(** C1 at the failing input: two channels, one row of two pixels, patch
    size 1.  The code returns the patches [1; 2] and [3; 4]; block 0 of the
    image, with both its channel values, is [1; 3]. *)
Theorem patches_mix_blocks :
  let img := mkTensor [1; 2; 1; 2] [1; 2; 3; 4]%Z in
  exists out,
    ImgPatches.forward (ImgPatches.init 1) img = Ok out
    /\ patch_at out 0 0 = [1; 2]%Z
    /\ patch_at out 0 1 = [3; 4]%Z
    /\ block_patch 1 img 0 0 = [1; 3]%Z
    /\ block_patch 1 img 0 1 = [2; 4]%Z.
Proof.
  eexists. split; [vm_compute; reflexivity|].
  repeat split; vm_compute; reflexivity.
Qed.


(** ** Shapes of the library operations *)

Section ShapeFacts.
Context {R : Type} {SR : Scalar R}.

Lemma no_invalid_dim (sh : list nat) :
  existsb (fun d => (d <? -1)%Z) (map Z.of_nat sh) = false.
Proof.
  induction sh as [|d sh IH]; simpl; [reflexivity|].
  destruct (Z.ltb_spec (Z.of_nat d) (-1)); [lia|]. exact IH.
Qed.

Lemma count_infer_nat (sh : list nat) : count_infer (map Z.of_nat sh) = 0.
Proof.
  unfold count_infer. induction sh as [|d sh IH]; simpl; [reflexivity|].
  destruct (Z.eqb_spec (Z.of_nat d) (-1)); [lia|]. exact IH.
Qed.

Lemma known_size_nat (sh : list nat) : known_size (map Z.of_nat sh) = numel sh.
Proof.
  unfold known_size. induction sh as [|d sh IH]; simpl; [reflexivity|].
  destruct (Z.eqb_spec (Z.of_nat d) (-1)); [lia|]. simpl.
  now rewrite Nat2Z.id, IH.
Qed.

Lemma to_nat_of_nat (sh : list nat) : map Z.to_nat (map Z.of_nat sh) = sh.
Proof.
  induction sh as [|d sh IH]; simpl; [reflexivity|].
  now rewrite Nat2Z.id, IH.
Qed.

Lemma reshape_exact (sh : list nat) (t : Tensor R) :
  numel (shape t) = numel sh ->
  reshape (map Z.of_nat sh) t = Ok (mkTensor sh (data t)).
Proof.
  intros Hn. unfold reshape.
  rewrite no_invalid_dim, count_infer_nat, known_size_nat, to_nat_of_nat.
  simpl. rewrite Hn, Nat.eqb_refl. reflexivity.
Qed.

Lemma reshape_size_mismatch (sh : list nat) (t : Tensor R) :
  numel (shape t) <> numel sh ->
  reshape (map Z.of_nat sh) t
  = Raise (RuntimeError "shape is invalid for input size").
Proof.
  intros Hn. unfold reshape.
  rewrite no_invalid_dim, count_infer_nat, known_size_nat. simpl.
  destruct (Nat.eqb_spec (numel (shape t)) (numel sh)); [contradiction|].
  reflexivity.
Qed.

Lemma broadcast_rev_same (sh : list nat) : broadcast_rev sh sh = Ok sh.
Proof.
  induction sh as [|d sh IH]; simpl; [reflexivity|].
  now rewrite IH, Nat.eqb_refl.
Qed.

Lemma broadcast_shapes_same (sh : list nat) : broadcast_shapes sh sh = Ok sh.
Proof.
  unfold broadcast_shapes. now rewrite broadcast_rev_same, rev_involutive.
Qed.

Lemma tadd_same_shape (a b : Tensor R) :
  shape b = shape a ->
  exists y, tadd a b = Ok y /\ shape y = shape a.
Proof.
  intros E. unfold tadd. rewrite E, broadcast_shapes_same.
  eexists. split; reflexivity.
Qed.

Lemma broadcast_rev_nil_r (a : list nat) : broadcast_rev a [] = Ok a.
Proof. destruct a; reflexivity. Qed.

Lemma broadcast_shapes_last (pre : list nat) (o : nat) :
  broadcast_shapes (pre ++ [o]) [o] = Ok (pre ++ [o]).
Proof.
  unfold broadcast_shapes. rewrite rev_app_distr. simpl.
  rewrite broadcast_rev_nil_r, Nat.eqb_refl. simpl.
  now rewrite rev_involutive.
Qed.

Lemma Linear_forward_shape (l : Linear.t R) (i o : nat) (pre : list nat)
      (x : Tensor R) :
  Linear_dims l i o -> shape x = pre ++ [i] ->
  exists y, Linear.forward l x = Ok y /\ shape y = pre ++ [o].
Proof.
  intros [Hw Hb] Hx. unfold Linear.forward. rewrite Hw, Hx.
  assert (E : exists d sh, pre ++ [i] = d :: sh)
    by (destruct pre; simpl; eauto).
  destruct E as [d [sh E]]. rewrite E. rewrite <- E.
  unfold last_dim. rewrite last_last, Nat.eqb_refl, removelast_last.
  destruct (Linear.bias l) as [b|].
  - unfold tadd. simpl. rewrite Hb, broadcast_shapes_last.
    eexists. split; reflexivity.
  - eexists. split; reflexivity.
Qed.

Lemma LayerNorm_forward_shape (l : LayerNorm.t R) (pre : list nat)
      (x : Tensor R) :
  shape x = pre ++ [LayerNorm.normalized_shape l] ->
  exists y, LayerNorm.forward l x = Ok y /\ shape y = shape x.
Proof.
  intros Hx. unfold LayerNorm.forward.
  assert (E : exists d sh, shape x = d :: sh)
    by (rewrite Hx; destruct pre; simpl; eauto).
  destruct E as [d [sh E]]. rewrite E. rewrite <- E.
  rewrite Hx. unfold last_dim. rewrite last_last, Nat.eqb_refl.
  eexists. split; reflexivity.
Qed.

Lemma transpose_last2 (b h n d : nat) (t : Tensor R) :
  shape t = [b; h; n; d] ->
  exists y, transpose (-2) (-1) t = Ok y /\ shape y = [b; h; d; n].
Proof.
  intros Hs. unfold transpose. rewrite Hs. simpl.
  eexists. split; reflexivity.
Qed.

Lemma transpose_12 (b h n d : nat) (t : Tensor R) :
  shape t = [b; h; n; d] ->
  exists y, transpose 1 2 t = Ok y /\ shape y = [b; n; h; d].
Proof.
  intros Hs. unfold transpose. rewrite Hs. simpl.
  eexists. split; reflexivity.
Qed.

Lemma matmul_shape (b h n k m : nat) (x y : Tensor R) :
  shape x = [b; h; n; k] -> shape y = [b; h; k; m] ->
  exists z, matmul x y = Ok z /\ shape z = [b; h; n; m].
Proof.
  intros Hx Hy. unfold matmul, matmul_nd. rewrite Hx, Hy. simpl.
  rewrite !Nat.eqb_refl. eexists. split; reflexivity.
Qed.
End ShapeFacts.


(** ** Attention: shapes *)

Section AttentionFacts.
Context {R G : Type} {SR : Scalar R} {RG : Random R G}.

Lemma Dropout_forward_shape (d : Dropout.t) (x : Tensor R) (w : world G) :
  exists y w', Dropout.forward d x w = Ok (y, w') /\ shape y = shape x.
Proof.
  unfold Dropout.forward.
  destruct (Dropout.inert d || (numel (shape x) =? 0)); [eauto|].
  destruct (Qeq_bool (Dropout.p d) 1); [eauto|].
  destruct (draws _ _ _) as [ks g]. eauto.
Qed.

Lemma heads_dims (b n c hn : nat) :
  [Z.of_nat b; Z.of_nat n; 3%Z; Z.of_nat hn; (Z.of_nat c / Z.of_nat hn)%Z]
  = map Z.of_nat [b; n; 3; hn; c / hn].
Proof. simpl. now rewrite Nat2Z.inj_div. Qed.

Lemma qkv_heads_shape (a : Attention.t R) (b n c hn : nat) (x : Tensor R) :
  Attention_dims a c -> Attention.num_heads a = Z.of_nat hn ->
  1 <= hn -> c mod hn = 0 -> shape x = [b; n; c] ->
  exists q k v,
    Attention.qkv_heads a b n c x = Ok (q, k, v)
    /\ shape q = [b; hn; n; c / hn]
    /\ shape k = [b; hn; n; c / hn]
    /\ shape v = [b; hn; n; c / hn].
Proof.
  intros [Hqkv _] Hh Hhn Hm Hx. unfold Attention.qkv_heads.
  destruct (@Linear_forward_shape _ _ _ c (c * 3) [b; n] x Hqkv Hx)
    as [y [Hy Sy]].
  rewrite Hy, Hh.
  destruct (Z.eqb_spec (Z.of_nat hn) 0); [lia|].
  rewrite heads_dims, reshape_exact.
  - unfold permute, unpack3. simpl. do 3 eexists. repeat split.
  - rewrite Sy. simpl. pose proof (Nat.div_mod_eq c hn). nia.
Qed.

Lemma qkv_heads_indivisible (a : Attention.t R) (b n c hn : nat)
      (x : Tensor R) :
  Attention_dims a c -> Attention.num_heads a = Z.of_nat hn ->
  1 <= hn -> c mod hn <> 0 -> 1 <= b -> 1 <= n -> shape x = [b; n; c] ->
  Attention.qkv_heads a b n c x
  = Raise (RuntimeError "shape is invalid for input size").
Proof.
  intros [Hqkv _] Hh Hhn Hm Hb Hn Hx. unfold Attention.qkv_heads.
  destruct (@Linear_forward_shape _ _ _ c (c * 3) [b; n] x Hqkv Hx)
    as [y [Hy Sy]].
  rewrite Hy, Hh.
  destruct (Z.eqb_spec (Z.of_nat hn) 0); [lia|].
  rewrite heads_dims, reshape_size_mismatch; [reflexivity|].
  rewrite Sy. simpl. rewrite !Nat.mul_1_r.
  pose proof (Nat.div_mod_eq c hn) as Hc. intros E.
  apply Nat.mul_cancel_l in E; [|lia].
  apply Nat.mul_cancel_l in E; [|lia]. lia.
Qed.

Lemma scores_shape (a : Attention.t R) (b h n d : nat) (q k : Tensor R) :
  shape q = [b; h; n; d] -> shape k = [b; h; n; d] ->
  exists s, Attention.scores a q k = Ok s /\ shape s = [b; h; n; n].
Proof.
  intros Sq Sk. unfold Attention.scores.
  destruct (@transpose_last2 _ _ _ _ _ _ k Sk) as [kt [Hkt Skt]]. rewrite Hkt.
  destruct (@matmul_shape _ _ _ _ _ _ _ q kt Sq Skt) as [qk [Hqk Sqk]]. rewrite Hqk.
  eexists. split; [reflexivity|]. exact Sqk.
Qed.

Lemma Attention_forward_shape {Mask : Type} (a : Attention.t R)
      (b n c hn : nat) (x : Tensor R) (mask : option Mask) (w : world G) :
  Attention_dims a c -> Attention.num_heads a = Z.of_nat hn ->
  1 <= hn -> c mod hn = 0 -> shape x = [b; n; c] ->
  exists y w',
    Attention.forward a x mask w = Ok (y, w') /\ shape y = [b; n; c].
Proof.
  intros Ha Hh Hhn Hm Hx.
  destruct (@qkv_heads_shape a b n c hn x Ha Hh Hhn Hm Hx)
    as (q & k & v & Hq & Sq & Sk & Sv).
  destruct (@scores_shape a _ _ _ _ q k Sq Sk) as [s [Hs Ss]].
  unfold Attention.forward, bind, lift, ret. rewrite Hx, Hq, Hs.
  destruct Ha as [_ Hout].
  destruct mask as [m|]; unfold print.
  all: match goal with
       | |- context [Dropout.forward ?d ?t ?w0] =>
           destruct (Dropout_forward_shape d t w0) as (at1 & w2 & Hd & Sd)
       end.
  all: rewrite Hd; simpl in Sd; rewrite Ss in Sd.
  all: destruct (@matmul_shape _ _ _ _ _ _ _ at1 v Sd Sv) as [av [Hav Sav]].
  all: rewrite Hav.
  all: destruct (@transpose_12 _ _ _ _ _ _ av Sav) as [avt [Havt Savt]].
  all: rewrite Havt.
  all: change [Z.of_nat b; Z.of_nat n; Z.of_nat c]
    with (map Z.of_nat [b; n; c]).
  all: rewrite reshape_exact
    by (rewrite Savt; simpl; pose proof (Nat.div_mod_eq c hn); nia).
  all: destruct (@Linear_forward_shape _ _ _ c c [b; n]
                   (mkTensor [b; n; c] (data avt)) Hout eq_refl)
    as [o [Ho So]].
  all: rewrite Ho.
  all: destruct (Dropout_forward_shape (snd (Attention.out a)) o w2)
    as (y & w3 & Hy & Sy).
  all: exists y, w3; split; [exact Hy|]; now rewrite Sy.
Qed.
End AttentionFacts.

(** ** Constructors *)

Lemma bind_inv {G A B} (c : M G A) (k : A -> M G B) (w w' : world G) (b : B) :
  bind c k w = Ok (b, w') ->
  exists a w1, c w = Ok (a, w1) /\ k a w1 = Ok (b, w').
Proof.
  unfold bind. destruct (c w) as [[a w1]|e]; [eauto|discriminate].
Qed.

Lemma lift_inv {G A} (r : result A) (w w' : world G) (a : A) :
  lift r w = Ok (a, w') -> r = Ok a /\ w' = w.
Proof.
  unfold lift. destruct r; [|discriminate].
  intros H. injection H as -> ->. auto.
Qed.

Lemma ret_inv {G A} (a a' : A) (w w' : world G) :
  ret a w = Ok (a', w') -> a' = a /\ w' = w.
Proof. unfold ret. intros H. injection H as -> ->. auto. Qed.

Ltac minv :=
  repeat match goal with
         | H : bind _ _ _ = Ok _ |- _ =>
             apply bind_inv in H; destruct H as (? & ? & ? & H)
         | H : lift _ _ = Ok _ |- _ =>
             apply lift_inv in H; destruct H as [? ?]; subst
         | H : ret _ _ = Ok _ |- _ =>
             apply ret_inv in H; destruct H as [? ?]; subst
         | H : raise _ _ = Ok _ |- _ => discriminate H
         end.

Section InitFacts.
Context {R G : Type} {SR : Scalar R} {RG : Random R G}.

Lemma rand_tensor_inv (sh : list nat) (fan : nat) (w w' : world G)
      (t : Tensor R) :
  Linear.rand_tensor sh fan w = Ok (t, w') -> shape t = sh.
Proof.
  unfold Linear.rand_tensor. destruct (draws _ _ _) as [l g].
  intros H. injection H as <- _. reflexivity.
Qed.

Lemma rand_tensor_ok (sh : list nat) (fan : nat) (w : world G) :
  exists (t : Tensor R) w', Linear.rand_tensor sh fan w = Ok (t, w').
Proof. unfold Linear.rand_tensor. destruct (draws _ _ _). eauto. Qed.

Lemma Linear_init_inv (i o : Z) (b : bool) (w w' : world G) (l : Linear.t R) :
  Linear.init i o b w = Ok (l, w') ->
  Linear_dims l (Z.to_nat i) (Z.to_nat o).
Proof.
  unfold Linear.init. destruct ((i <? 0)%Z || (o <? 0)%Z); [discriminate|].
  intros H. destruct b; minv.
  all: repeat match goal with
         | H : Linear.rand_tensor _ _ _ = Ok _ |- _ =>
             apply rand_tensor_inv in H
         end.
  all: split; simpl; auto.
Qed.

Lemma Linear_init_ok (i o : Z) (b : bool) (w : world G) :
  (0 <= i)%Z -> (0 <= o)%Z ->
  exists (l : Linear.t R) w', Linear.init i o b w = Ok (l, w').
Proof.
  intros Hi Ho. unfold Linear.init.
  destruct (Z.ltb_spec i 0); [lia|]. destruct (Z.ltb_spec o 0); [lia|].
  simpl. unfold bind.
  destruct (rand_tensor_ok [Z.to_nat o; Z.to_nat i] (Z.to_nat i) w)
    as (t & w1 & ->).
  destruct b.
  - destruct (rand_tensor_ok [Z.to_nat o] (Z.to_nat i) w1) as (t' & w2 & ->).
    unfold ret. eauto.
  - unfold ret. eauto.
Qed.

Lemma Dropout_init_inv (p : Q) (d : Dropout.t) :
  Dropout.init p = Ok d -> d = Dropout.mk p true.
Proof.
  unfold Dropout.init. destruct (_ && _); [|discriminate].
  intros H. now injection H as <-.
Qed.

Lemma Dropout_init_ok (p : Q) :
  Qle_bool 0 p = true -> Qle_bool p 1 = true ->
  Dropout.init p = Ok (Dropout.mk p true).
Proof. intros H0 H1. unfold Dropout.init. now rewrite H0, H1. Qed.

Lemma LayerNorm_init_inv (dim : Z) (l : LayerNorm.t R) :
  LayerNorm.init dim = Ok l ->
  LayerNorm.normalized_shape l = Z.to_nat dim.
Proof.
  unfold LayerNorm.init. destruct (dim <? 0)%Z; [discriminate|].
  intros H. now injection H as <-.
Qed.

Lemma LayerNorm_init_ok (dim : Z) :
  (0 <= dim)%Z -> exists l : LayerNorm.t R, LayerNorm.init dim = Ok l.
Proof.
  intros H. unfold LayerNorm.init. destruct (Z.ltb_spec dim 0); [lia|eauto].
Qed.

Lemma MLP_init_inv (i : Z) (h o : option Z) (p : Q) (w w' : world G)
      (m : MLP.t R) :
  MLP.init i h o p w = Ok (m, w') ->
  MLP.dropout m = Dropout.mk p true
  /\ exists hd,
      MLP_dims m (Z.to_nat i) hd
        (Z.to_nat (if falsy o then i
                   else match o with Some z => z | None => i end)).
Proof.
  unfold MLP.init. intros H. minv.
  repeat match goal with
         | H : Linear.init _ _ _ _ = Ok _ |- _ => apply Linear_init_inv in H
         | H : Dropout.init _ = Ok _ |- _ => apply Dropout_init_inv in H
         end.
  subst. simpl. split; [reflexivity|]. eexists. split; eassumption.
Qed.

Lemma MLP_init_ok (i : Z) (h o : option Z) (p : Q) (w : world G) :
  (0 <= i)%Z ->
  (forall z, h = Some z -> 0 <= z)%Z -> (forall z, o = Some z -> 0 <= z)%Z ->
  Qle_bool 0 p = true -> Qle_bool p 1 = true ->
  exists (m : MLP.t R) w', MLP.init i h o p w = Ok (m, w').
Proof.
  intros Hi Hh Ho H0 H1. unfold MLP.init.
  set (hf := if falsy h then i else _).
  set (outf := if falsy o then i else _).
  assert (0 <= hf)%Z
    by (subst hf; destruct h as [z|]; simpl; [destruct (z =? 0)%Z|]; auto).
  assert (0 <= outf)%Z
    by (subst outf; destruct o as [z|]; simpl; [destruct (z =? 0)%Z|]; auto).
  unfold bind.
  destruct (@Linear_init_ok i hf true w) as (l1 & w1 & ->); try assumption.
  destruct (@Linear_init_ok hf outf true w1) as (l2 & w2 & ->); try assumption.
  unfold lift. rewrite (@Dropout_init_ok _) by assumption. unfold ret. eauto.
Qed.

Lemma Attention_init_inv (dim heads : Z) (ad pd : Q) (w w' : world G)
      (a : Attention.t R) :
  Attention.init dim heads ad pd w = Ok (a, w') ->
  Attention.num_heads a = heads
  /\ Attention.scale a = rdiv r1 (rsqrt (r_of_Z dim))
  /\ Attention_dims a (Z.to_nat dim)
  /\ Attention_dropouts a = [Dropout.mk ad true; Dropout.mk pd true]
  /\ (0 < dim)%Z.
Proof.
  unfold Attention.init. destruct (Z.eqb_spec dim 0); [discriminate|].
  intros H. minv.
  assert (0 < dim)%Z.
  { match goal with
    | H : Linear.init dim dim _ _ = Ok _ |- _ =>
        unfold Linear.init in H;
        destruct (Z.ltb_spec dim 0); [discriminate H|lia]
    end. }
  repeat match goal with
         | H : Linear.init _ _ _ _ = Ok _ |- _ => apply Linear_init_inv in H
         | H : Dropout.init _ = Ok _ |- _ => apply Dropout_init_inv in H
         end.
  subst. unfold Attention_dims, Attention_dropouts. simpl.
  replace (Z.to_nat dim * 3) with (Z.to_nat (dim * 3)) by lia.
  auto 10.
Qed.

Lemma Attention_init_ok (dim heads : Z) (ad pd : Q) (w : world G) :
  (0 < dim)%Z ->
  Qle_bool 0 ad = true -> Qle_bool ad 1 = true ->
  Qle_bool 0 pd = true -> Qle_bool pd 1 = true ->
  exists (a : Attention.t R) w', Attention.init dim heads ad pd w = Ok (a, w').
Proof.
  intros Hd Ha0 Ha1 Hp0 Hp1. unfold Attention.init.
  destruct (Z.eqb_spec dim 0); [lia|]. unfold bind.
  destruct (@Linear_init_ok dim (dim * 3) false w) as (l1 & w1 & ->);
    try lia.
  unfold lift. rewrite (@Dropout_init_ok _) by assumption.
  destruct (@Linear_init_ok dim dim true w1) as (l2 & w2 & ->); try lia.
  rewrite (@Dropout_init_ok _) by assumption. unfold ret. eauto.
Qed.
End InitFacts.

(** ** Attention: shape and scale *)

Section AttentionTheorems.
Context {R G : Type} {SR : Scalar R} {RG : Random R G}.

Lemma to_nat_mod (D Hn : Z) :
  (0 < D)%Z -> (0 < Hn)%Z -> (D mod Hn = 0)%Z ->
  Z.to_nat D mod Z.to_nat Hn = 0.
Proof.
  intros HD HH Hm. apply Nat2Z.inj.
  rewrite Nat2Z.inj_mod, !Z2Nat.id by lia. exact Hm.
Qed.

(** C7.  For an attention module constructed for embedding dimension D and
    a head count Hn >= 1 dividing D, and for every batch size B >= 1 and
    sequence length N >= 1, [Attention.forward] returns, for an input of
    shape (B, N, D), an output of shape (B, N, D), whatever the mask and
    the state of the random source. *)
Theorem Attention_preserves_shape {Mask : Type} (D Hn : Z) (ad pd : Q)
        (w0 w1 w : world G) (a : Attention.t R) (B N : nat) (x : Tensor R)
        (mask : option Mask) :
  Attention.init D Hn ad pd w0 = Ok (a, w1) ->
  (0 < Hn)%Z -> (D mod Hn = 0)%Z ->
  1 <= B -> 1 <= N -> shape x = [B; N; Z.to_nat D] ->
  exists y w',
    Attention.forward a x mask w = Ok (y, w')
    /\ shape y = [B; N; Z.to_nat D].
Proof.
  intros Hinit HH Hm _ _ Hx.
  apply Attention_init_inv in Hinit.
  destruct Hinit as (Hheads & _ & Hdims & _ & HD).
  apply (@Attention_forward_shape _ _ _ _ Mask a B N (Z.to_nat D)
           (Z.to_nat Hn) x mask w); try assumption.
  - rewrite Z2Nat.id by lia. exact Hheads.
  - lia.
  - now apply to_nat_mod.
Qed.

Lemma tget_tmul_scalar (sh : list nat) (f : list nat -> R) (c : R)
      (idx : list nat) :
  in_bounds sh idx ->
  tget (tmul_scalar (tgen sh f) c) idx = rmul (f idx) c.
Proof.
  intros H. unfold tget, tmul_scalar, tgen. simpl. rewrite map_map.
  rewrite nth_indep with (d' := rmul (f []) c)
    by (rewrite length_map, indices_length; now apply offset_lt).
  rewrite map_nth with (f := fun i => rmul (f i) c).
  now rewrite indices_nth.
Qed.

Lemma bidx_in_bounds2 (b h ib ih : nat) :
  ib < b -> ih < h -> bidx [b; h] [ib; ih] = [ib; ih].
Proof.
  intros Hb Hh. unfold bidx. simpl.
  destruct (Nat.eqb_spec b 1); destruct (Nat.eqb_spec h 1);
    repeat f_equal; lia.
Qed.

Lemma reshape_shape (dims : list Z) (t r : Tensor R) :
  reshape dims t = Ok r ->
  exists f : Z -> nat,
    shape r = map f dims /\ forall z, (0 <= z)%Z -> f z = Z.to_nat z.
Proof.
  unfold reshape.
  destruct (existsb _ dims); [discriminate|].
  destruct (1 <? count_infer dims); [discriminate|].
  destruct (count_infer dims =? 0).
  - destruct (_ =? _); [|discriminate].
    intros H. injection H as <-. exists Z.to_nat. split; auto.
  - destruct (_ || _); [|discriminate].
    destruct (known_size dims =? 0); [discriminate|].
    intros H. injection H as <-. eexists. split; [reflexivity|].
    intros z Hz. cbv beta. destruct (Z.eqb_spec z (-1)); [lia|reflexivity].
Qed.

(** When the head split succeeds, Q, K and V have one common shape
    (b, h, n, d). *)
Lemma qkv_heads_ok_shapes (a : Attention.t R) (b n c : nat)
      (x q k v : Tensor R) :
  Attention.qkv_heads a b n c x = Ok (q, k, v) ->
  exists h d,
    shape q = [b; h; n; d] /\ shape k = [b; h; n; d]
    /\ shape v = [b; h; n; d].
Proof.
  unfold Attention.qkv_heads.
  destruct (Linear.forward _ x) as [y|e]; [|discriminate].
  destruct (Attention.num_heads a =? 0)%Z; [discriminate|].
  destruct (reshape _ y) as [r|e] eqn:Hr; [|discriminate].
  apply reshape_shape in Hr. destruct Hr as (f & Sr & Hf).
  cbn [map] in Sr.
  rewrite !Hf in Sr by lia. rewrite !Nat2Z.id in Sr.
  change (Z.to_nat 3) with 3 in Sr.
  unfold permute. rewrite Sr. cbn -[tgen].
  unfold unpack3. cbn -[tgen slice0].
  intros H. injection H as <- <- <-.
  do 2 eexists. repeat split.
Qed.

Lemma scores_entries (a : Attention.t R) (q k : Tensor R) (b h n d : nat) :
  shape q = [b; h; n; d] -> shape k = [b; h; n; d] ->
  exists s,
    Attention.scores a q k = Ok s
    /\ shape s = [b; h; n; n]
    /\ forall ib ih i j,
        ib < b -> ih < h -> i < n -> j < n ->
        tget s [ib; ih; i; j]
        = rmul (rsum (map (fun l => rmul (tget q [ib; ih; i; l])
                                         (tget k [ib; ih; j; l]))
                          (seq 0 d)))
               (Attention.scale a).
Proof.
  intros Sq Sk.
  unfold Attention.scores, transpose, matmul, matmul_nd.
  rewrite Sk. simpl. rewrite Sq. simpl. rewrite !Nat.eqb_refl.
  change (Pos.to_nat 2) with 2. change (Pos.to_nat 3) with 3.
  eexists. split; [reflexivity|]. split; [reflexivity|].
  intros ib ih i j Hib Hih Hi Hj.
  rewrite tget_tmul_scalar by prove_bounds.
  f_equal. f_equal.
  apply map_ext_in. intros l Hl. apply in_seq in Hl.
  cbn [rev app List.length firstn nth].
  rewrite bidx_in_bounds2 by assumption.
  rewrite tget_tgen by prove_bounds. reflexivity.
Qed.

(** C3.  An attention module constructed for embedding dimension D holds
    the scale 1/sqrt(D), whatever its number of heads, and that is the
    factor [Attention.forward] applies: on every input (b, n, c) whose head
    split yields Q, K and V, these have a shape (b, h, n, d) and forward
    is the rest of its body (softmax, dropout, product with V, projection)
    run on scores whose entries are those of Q.K^T multiplied by 1/sqrt(D),
    scores[b, h, i, j] = (sum over l of Q[b, h, i, l] * K[b, h, j, l])
    * (1 / sqrt(D)),
    where d, the size of a head, does not enter the factor.  The head split
    does succeed on every input (B, N, D) when the number of heads is
    positive and divides D. *)
Theorem Attention_scale_full_dim {Mask : Type} (D Hn : Z) (ad pd : Q)
        (w0 w1 : world G) (a : Attention.t R) :
  Attention.init D Hn ad pd w0 = Ok (a, w1) ->
  Attention.scale a = rdiv r1 (rsqrt (r_of_Z D))
  /\ (forall (x : Tensor R) (mask : option Mask) (w : world G)
             (b n c : nat) (q k v : Tensor R),
         shape x = [b; n; c] ->
         Attention.qkv_heads a b n c x = Ok (q, k, v) ->
         exists (h d : nat) (dot : Tensor R),
           shape q = [b; h; n; d] /\ shape k = [b; h; n; d]
           /\ shape dot = [b; h; n; n]
           /\ (forall ib ih i j,
                  ib < b -> ih < h -> i < n -> j < n ->
                  tget dot [ib; ih; i; j]
                  = rmul (rsum (map (fun l => rmul (tget q [ib; ih; i; l])
                                                   (tget k [ib; ih; j; l]))
                                    (seq 0 d)))
                         (rdiv r1 (rsqrt (r_of_Z D))))
           /\ Attention.forward a x mask w
              = Attention_after_scores a b n c v dot mask w)
  /\ (forall (x : Tensor R) (B N : nat),
         (0 < Hn)%Z -> (D mod Hn = 0)%Z ->
         shape x = [B; N; Z.to_nat D] ->
         exists q k v,
           Attention.qkv_heads a B N (Z.to_nat D) x = Ok (q, k, v)).
Proof.
  intros Hinit. apply Attention_init_inv in Hinit.
  destruct Hinit as (Hheads & Hscale & Hdims & _ & HD).
  split; [exact Hscale|]. split.
  - intros x mask w b n c q k v Hx Hq.
    pose proof Hq as Hsh. apply qkv_heads_ok_shapes in Hsh.
    destruct Hsh as (h & d & Sq & Sk & _).
    assert (E : exists s,
               Attention.scores a q k = Ok s
               /\ shape s = [b; h; n; n]
               /\ forall ib ih i j,
                   ib < b -> ih < h -> i < n -> j < n ->
                   tget s [ib; ih; i; j]
                   = rmul (rsum (map (fun l => rmul (tget q [ib; ih; i; l])
                                                    (tget k [ib; ih; j; l]))
                                     (seq 0 d)))
                          (Attention.scale a))
      by (apply scores_entries; assumption).
    destruct E as (s & Hs & Ss & He).
    exists h, d, s. repeat split; try assumption.
    + intros ib ih i j Hib Hih Hi Hj. rewrite <- Hscale. now apply He.
    + unfold Attention.forward. rewrite Hx.
      unfold bind at 1. unfold lift at 1. rewrite Hq.
      unfold bind at 1. unfold lift at 1. rewrite Hs.
      reflexivity.
  - intros x B N HH Hm Hx.
    assert (E : exists q k v,
               Attention.qkv_heads a B N (Z.to_nat D) x = Ok (q, k, v)
               /\ shape q = [B; Z.to_nat Hn; N; Z.to_nat D / Z.to_nat Hn]
               /\ shape k = [B; Z.to_nat Hn; N; Z.to_nat D / Z.to_nat Hn]
               /\ shape v = [B; Z.to_nat Hn; N; Z.to_nat D / Z.to_nat Hn]).
    { apply qkv_heads_shape; try assumption.
      - rewrite Z2Nat.id by lia. exact Hheads.
      - lia.
      - now apply to_nat_mod. }
    destruct E as (q & k & v & E & _). eauto.
Qed.
End AttentionTheorems.

(** C7 at a concrete module: D = 4, two heads, one sequence of 2 tokens. *)
Lemma Attention_preserves_shape_witness :
  exists a w1,
    Attention.init 4 2 0 0 (mkWorld 0 []) = Ok (a, w1)
    /\ exists y w',
        Attention.forward a (mkTensor [1; 2; 4] [1; 2; 3; 4; 5; 6; 7; 8]%Z)
                          (None : option unit) w1 = Ok (y, w')
        /\ shape y = [1; 2; 4].
Proof.
  eexists. eexists. split; [vm_compute; reflexivity|].
  eapply (@Attention_preserves_shape Z nat Scalar_Z Random_Z unit 4 2 0 0
            (mkWorld 0 []) _ _ _ 1 2).
  all: first [lia | vm_compute; reflexivity].
Defined.

(** C3 at a concrete module, with scalars kept as formulas: D = 4 and two
    heads of size 2.  The scale is 1/sqrt(4) and not 1/sqrt(2), and the
    entry of head 1 that forward goes on with is the product of query row 0
    and key row 1 times 1/sqrt(4). *)
Lemma Attention_scale_full_dim_witness :
  let x := mkTensor [1; 2; 4] (map FInt [1; 2; 3; 4; 5; 6; 7; 8]%Z) in
  exists (a : Attention.t formula) w1 q k v h d dot,
    Attention.init 4 2 0 0 (mkWorld 0 []) = Ok (a, w1)
    /\ Attention.scale a = FDiv (FInt 1) (FSqrt (FInt 4))
    /\ Attention.scale a <> FDiv (FInt 1) (FSqrt (FInt 2))
    /\ Attention.qkv_heads a 1 2 4 x = Ok (q, k, v)
    /\ shape q = [1; h; 2; d] /\ h = 2 /\ d = 2
    /\ tget dot [0; 1; 0; 1]
       = FMul (rsum (map (fun l => FMul (tget q [0; 1; 0; l])
                                        (tget k [0; 1; 1; l]))
                         (seq 0 d)))
              (FDiv (FInt 1) (FSqrt (FInt 4)))
    /\ Attention.forward a x (@None unit) w1
       = Attention_after_scores a 1 2 4 v dot (@None unit) w1.
Proof.
  intros x.
  destruct (Attention.init 4 2 0 0 (mkWorld 0 [])
            : result (Attention.t formula * world nat))
    as [[a w1]|e] eqn:Hinit; [|vm_compute in Hinit; discriminate Hinit].
  destruct (@Attention_scale_full_dim formula nat Scalar_formula
              Random_formula unit 4 2 0 0 (mkWorld 0 []) w1 a Hinit)
    as (Hscale & Hfwd & Hok).
  destruct (Hok x 1 2) as (q & k & v & Hq); [lia|reflexivity|reflexivity|].
  destruct (Hfwd x (@None unit) w1 1 2 4 q k v eq_refl Hq)
    as (h & d & dot & Sq & Sk & Sdot & He & Hf).
  assert (Hh : h = 2 /\ d = 2).
  { vm_compute in Hinit. injection Hinit as <- <-.
    vm_compute in Hq. injection Hq as <- <- <-.
    vm_compute in Sq. injection Sq as <- <-. auto. }
  destruct Hh as [Hh Hd].
  exists a, w1, q, k, v, h, d, dot.
  split; [reflexivity|]. split; [exact Hscale|].
  split; [rewrite Hscale; discriminate|].
  split; [exact Hq|]. split; [exact Sq|]. split; [exact Hh|].
  split; [exact Hd|]. split; [|exact Hf].
  apply He; lia.
Defined.

(** ** Agreement of stateful computations *)

Section Agreement.
Context {R G : Type} {SR : Scalar R} {RG : Random R G}.
Variable P : world G -> world G -> Prop.
Variable ok : Dropout.t -> Prop.
Hypothesis P_stdout :
  forall w1 w2 l1 l2,
    P w1 w2 -> P (mkWorld (w_rng w1) l1) (mkWorld (w_rng w2) l2).
Hypothesis ok_dropout :
  forall d (x : Tensor R),
    ok d -> agree P (Dropout.forward d x) (Dropout.forward d x).

Lemma agree_bind {A B} (c1 c2 : M G A) (k1 k2 : A -> M G B) :
  agree P c1 c2 -> (forall a, agree P (k1 a) (k2 a)) ->
  agree P (bind c1 k1) (bind c2 k2).
Proof.
  intros Hc Hk w1 w2 Hw. unfold bind. specialize (Hc w1 w2 Hw).
  destruct (c1 w1) as [[a1 w1']|e1], (c2 w2) as [[a2 w2']|e2];
    try contradiction; try assumption.
  destruct Hc as [<- Hw']. now apply Hk.
Qed.

Lemma agree_ret {A} (a : A) : agree P (ret a) (ret a).
Proof. intros w1 w2 Hw. simpl. auto. Qed.

Lemma agree_lift {A} (r : result A) : agree P (lift r) (lift r).
Proof. intros w1 w2 Hw. unfold lift. destruct r; auto. Qed.

Lemma agree_notice {Mask1 Mask2 : Type} (mask1 : option Mask1)
      (mask2 : option Mask2) :
  agree P
    (match mask1 with
     | Some _ => print "Mask is yet to be implemented."
     | None => ret tt
     end)
    (match mask2 with
     | Some _ => print "Mask is yet to be implemented."
     | None => ret tt
     end).
Proof.
  intros w1 w2 Hw.
  assert (E1 : w1 = mkWorld (w_rng w1) (w_stdout w1)) by now destruct w1.
  assert (E2 : w2 = mkWorld (w_rng w2) (w_stdout w2)) by now destruct w2.
  destruct mask1, mask2; unfold print, ret; split; auto.
  - rewrite E2. now apply P_stdout.
  - rewrite E1. now apply P_stdout.
Qed.

Lemma MLP_agree (m : MLP.t R) (x : Tensor R) :
  Forall ok (MLP_dropouts m) ->
  agree P (MLP.forward m x) (MLP.forward m x).
Proof.
  intros Hd. inversion Hd; subst. unfold MLP.forward.
  repeat (apply agree_bind; [first [apply agree_lift | apply agree_ret]|];
          intros ?).
  now apply ok_dropout.
Qed.

Lemma Attention_agree {Mask1 Mask2 : Type} (a : Attention.t R)
      (x : Tensor R) (mask1 : option Mask1) (mask2 : option Mask2) :
  Forall ok (Attention_dropouts a) ->
  agree P (Attention.forward a x mask1) (Attention.forward a x mask2).
Proof.
  intros Hd. unfold Attention_dropouts in Hd.
  inversion Hd as [|? ? Hd1 Hd']; subst.
  inversion Hd' as [|? ? Hd2 _]; subst.
  unfold Attention.forward.
  destruct (shape x) as [|b [|n [|c [|? ?]]]];
    try (intros ? ? ?; reflexivity).
  apply agree_bind; [apply agree_lift|]. intros [[q k] v].
  apply agree_bind; [apply agree_lift|]. intros dot.
  apply agree_bind; [apply agree_notice|]. intros _.
  apply agree_bind; [apply agree_ret|]. intros attn.
  apply agree_bind; [now apply ok_dropout|]. intros attn'.
  repeat (apply agree_bind; [apply agree_lift|]; intros ?).
  now apply ok_dropout.
Qed.

Lemma Block_agree {Mask1 Mask2 : Type} (b : Block.t R) (x : Tensor R)
      (mask1 : option Mask1) (mask2 : option Mask2) :
  Forall ok (Block_dropouts b) ->
  agree P (Block.forward b x mask1) (Block.forward b x mask2).
Proof.
  intros Hd. unfold Block_dropouts in Hd. apply Forall_app in Hd.
  destruct Hd as [Ha Hm]. unfold Block.forward.
  apply agree_bind; [apply agree_lift|]. intros x1.
  apply agree_bind; [now apply Attention_agree|]. intros a.
  apply agree_bind; [apply agree_lift|]. intros y.
  apply agree_bind; [apply agree_lift|]. intros x2.
  apply agree_bind; [now apply MLP_agree|]. intros f.
  apply agree_lift.
Qed.

Lemma blocks_agree {Mask1 Mask2 : Type} (bs : list (Block.t R))
      (mask1 : option Mask1) (mask2 : option Mask2) :
  Forall ok (flat_map Block_dropouts bs) ->
  forall x,
    agree P (Transformer.forward_blocks bs x mask1)
            (Transformer.forward_blocks bs x mask2).
Proof.
  induction bs as [|b bs IH]; intros Hd x; simpl.
  - apply agree_ret.
  - cbn [flat_map] in Hd. apply Forall_app in Hd. destruct Hd as [Hb Hbs].
    apply agree_bind; [now apply Block_agree|]. intros y. now apply IH.
Qed.

Lemma ViT_agree {Mask1 Mask2 : Type} (m : ViT.t R) (x : Tensor R)
      (mask1 : option Mask1) (mask2 : option Mask2) :
  Forall ok (ViT_dropouts m) ->
  agree P (ViT.forward m x mask1) (ViT.forward m x mask2).
Proof.
  intros Hd. unfold ViT_dropouts in Hd. apply Forall_app in Hd.
  destruct Hd as [Ht Hh]. unfold ViT.forward.
  do 6 (apply agree_bind; [apply agree_lift|]; intros ?).
  apply agree_bind;
    [unfold Transformer.forward; now apply blocks_agree|]. intros y.
  do 2 (apply agree_bind; [apply agree_lift|]; intros ?).
  destruct (ViT.out m) as [h|l].
  - now apply MLP_agree.
  - apply agree_lift.
Qed.
End Agreement.

Lemma agree_value {G A} (P : world G -> world G -> Prop) (c1 c2 : M G A)
      (w1 w2 : world G) :
  agree P c1 c2 -> P w1 w2 -> value (c1 w1) = value (c2 w2).
Proof.
  intros H Hw. specialize (H w1 w2 Hw). unfold value.
  destruct (c1 w1) as [[a1 w1']|e1], (c2 w2) as [[a2 w2']|e2];
    try contradiction.
  - destruct H as [-> _]. reflexivity.
  - now subst.
Qed.

Section MaskAndDeterminism.
Context {R G : Type} {SR : Scalar R} {RG : Random R G}.

Lemma same_rng_stdout (w1 w2 : world G) (l1 l2 : list string) :
  same_rng w1 w2 ->
  same_rng (mkWorld (w_rng w1) l1) (mkWorld (w_rng w2) l2).
Proof. unfold same_rng. simpl. auto. Qed.

Lemma Dropout_same_rng (d : Dropout.t) (x : Tensor R) :
  True -> agree same_rng (Dropout.forward d x) (Dropout.forward d x).
Proof.
  intros _ w1 w2 Hw. unfold same_rng in Hw. unfold Dropout.forward.
  destruct (Dropout.inert d || (numel (shape x) =? 0)); [split; auto|].
  destruct (Qeq_bool (Dropout.p d) 1); [split; auto|].
  rewrite Hw. destruct (draws _ _ _) as [ks g]. split; reflexivity.
Qed.

Lemma Dropout_inert_any (d : Dropout.t) (x : Tensor R) :
  Dropout.inert d = true ->
  agree (fun _ _ => True) (Dropout.forward d x) (Dropout.forward d x).
Proof.
  intros Hd w1 w2 _. unfold Dropout.forward. rewrite Hd. simpl. auto.
Qed.

(** C4.  For every model, every input and every non-null mask value,
    [ViT.forward] returns the same result with the mask as without it (the
    same tensor, or the same exception), and so does [Attention.forward];
    the mask only adds a notice to standard output. *)
Theorem mask_has_no_effect {Mask : Type} :
  (forall (m : ViT.t R) (x : Tensor R) (mask : Mask) (w : world G),
      value (ViT.forward m x (Some mask) w)
      = value (ViT.forward m x (@None Mask) w))
  /\ (forall (a : Attention.t R) (x : Tensor R) (mask : Mask) (w : world G),
         value (Attention.forward a x (Some mask) w)
         = value (Attention.forward a x (@None Mask) w)).
Proof.
  split; intros; apply agree_value with (P := same_rng);
    try reflexivity.
  - apply ViT_agree with (ok := fun _ => True).
    + apply same_rng_stdout.
    + apply Dropout_same_rng.
    + apply Forall_forall. auto.
  - apply Attention_agree with (ok := fun _ => True).
    + apply same_rng_stdout.
    + apply Dropout_same_rng.
    + apply Forall_forall. auto.
Qed.
End MaskAndDeterminism.

(** ** Block, Transformer and ViT constructors *)

Section ModelFacts.
Context {R G : Type} {SR : Scalar R} {RG : Random R G}.

Lemma Block_init_inv (dim heads ratio : Z) (p : Q) (w w' : world G)
      (b : Block.t R) :
  Block.init dim heads ratio p w = Ok (b, w') ->
  Block_dims b (Z.to_nat dim)
  /\ Attention.num_heads (Block.attn b) = heads
  /\ Forall (fun d => Dropout.p d = p) (Block_dropouts b)
  /\ (0 < dim)%Z.
Proof.
  unfold Block.init. intros H. minv.
  repeat match goal with
         | H : LayerNorm.init _ = Ok _ |- _ => apply LayerNorm_init_inv in H
         | H : Attention.init _ _ _ _ _ = Ok _ |- _ =>
             apply Attention_init_inv in H;
             destruct H as (? & ? & ? & Hdrop & ?)
         | H : MLP.init _ _ _ _ _ = Ok _ |- _ =>
             apply MLP_init_inv in H; destruct H as (Hmd & hd & Hm)
         end.
  unfold Block_dims, Block_dropouts, MLP_dropouts.
  cbn [Block.ln1 Block.attn Block.ln2 Block.mlp].
  simpl in Hm. rewrite Hdrop, Hmd.
  split; [|split; [assumption|split; [repeat constructor|assumption]]].
  split; [assumption|]. split; [assumption|]. split; [assumption|].
  eauto.
Qed.

Lemma Block_init_ok (dim heads ratio : Z) (p : Q) (w : world G) :
  (0 < dim)%Z -> (0 <= ratio)%Z ->
  Qle_bool 0 p = true -> Qle_bool p 1 = true ->
  exists (b : Block.t R) w', Block.init dim heads ratio p w = Ok (b, w').
Proof.
  intros Hd Hr H0 H1. unfold Block.init, bind, lift.
  assert (E1 : exists l : LayerNorm.t R, LayerNorm.init dim = Ok l)
    by (apply LayerNorm_init_ok; lia).
  destruct E1 as [l ->].
  assert (E2 : exists (a : Attention.t R) w1,
             Attention.init dim heads p p w = Ok (a, w1))
    by (apply Attention_init_ok; assumption).
  destruct E2 as (a & w1 & ->).
  assert (E3 : exists (m : MLP.t R) w2,
             MLP.init dim (Some (dim * ratio)%Z) None p w1 = Ok (m, w2)).
  { apply MLP_init_ok; try assumption; try lia.
    - intros z Hz. injection Hz as <-. nia.
    - discriminate. }
  destruct E3 as (m & w2 & ->). unfold ret. eauto.
Qed.

Lemma init_blocks_inv (n : nat) (dim heads ratio : Z) (p : Q) :
  forall (w w' : world G) (bs : list (Block.t R)),
    Transformer.init_blocks n dim heads ratio p w = Ok (bs, w') ->
    List.length bs = n
    /\ Forall (fun b => Block_dims b (Z.to_nat dim)
                        /\ Attention.num_heads (Block.attn b) = heads) bs
    /\ Forall (fun d => Dropout.p d = p) (flat_map Block_dropouts bs).
Proof.
  induction n as [|n IH]; intros w w' bs H; simpl in H.
  - apply ret_inv in H. destruct H as [-> _]. simpl. auto.
  - minv.
    match goal with
    | Hb : Block.init _ _ _ _ _ = Ok _ |- _ =>
        apply Block_init_inv in Hb; destruct Hb as (Hd & Hh & Hp & _)
    end.
    match goal with
    | Hbs : Transformer.init_blocks _ _ _ _ _ _ = Ok _ |- _ =>
        apply IH in Hbs; destruct Hbs as (Hl & Hds & Hps)
    end.
    cbn [List.length flat_map]. repeat split.
    + now rewrite Hl.
    + constructor; auto.
    + apply Forall_app. auto.
Qed.

Lemma init_blocks_ok (n : nat) (dim heads ratio : Z) (p : Q) :
  (0 < dim)%Z -> (0 <= ratio)%Z ->
  Qle_bool 0 p = true -> Qle_bool p 1 = true ->
  forall w : world G,
  exists (bs : list (Block.t R)) w',
    Transformer.init_blocks n dim heads ratio p w = Ok (bs, w').
Proof.
  intros Hd Hr H0 H1. induction n as [|n IH]; intros w; simpl.
  - unfold ret. eauto.
  - unfold bind.
    assert (E : exists (b : Block.t R) w1,
               Block.init dim heads ratio p w = Ok (b, w1))
      by (apply Block_init_ok; assumption).
    destruct E as (b & w1 & ->).
    destruct (IH w1) as (bs & w2 & ->). unfold ret. eauto.
Qed.

Lemma zeros_ok (sizes : list Z) :
  Forall (fun d => 0 <= d)%Z sizes ->
  exists t : Tensor R, ViT.zeros sizes = Ok t /\ shape t = map Z.to_nat sizes.
Proof.
  intros H. unfold ViT.zeros.
  assert (E : existsb (fun d => (d <? 0)%Z) sizes = false).
  { induction H as [|d l Hd _ IH]; simpl; [reflexivity|].
    destruct (Z.ltb_spec d 0); [lia|exact IH]. }
  rewrite E. eexists. split; reflexivity.
Qed.

Lemma zeros_inv (sizes : list Z) (t : Tensor R) :
  ViT.zeros sizes = Ok t -> shape t = map Z.to_nat sizes.
Proof.
  unfold ViT.zeros. destruct (existsb _ _); [discriminate|].
  intros H. now injection H as <-.
Qed.

Lemma ViT_init_not_divisible (cfg : ViT.config) (w : world G) :
  ViT.patch_size cfg <> 0%Z ->
  (ViT.img_size cfg mod ViT.patch_size cfg)%Z <> 0%Z ->
  @ViT.init R G SR RG cfg w
  = Raise (ValueError "Image size must be divisible by patch size.").
Proof.
  intros HP Hm. unfold ViT.init.
  destruct (Z.eqb_spec (ViT.patch_size cfg) 0); [contradiction|].
  destruct (Z.eqb_spec (ViT.img_size cfg mod ViT.patch_size cfg) 0);
    [contradiction|].
  reflexivity.
Qed.

Lemma library_accepts_inv (cfg : ViT.config) :
  library_accepts cfg = true ->
  (0 <= ViT.in_ch cfg)%Z /\ (0 < ViT.embed_dim cfg)%Z
  /\ (0 <= ViT.mlp_ratio cfg)%Z /\ (0 <= ViT.num_classes cfg)%Z
  /\ Qle_bool 0 (ViT.drop_rate cfg) = true
  /\ Qle_bool (ViT.drop_rate cfg) 1 = true.
Proof.
  unfold library_accepts. intros H.
  repeat match goal with
         | H : _ && _ = true |- _ => apply andb_prop in H; destruct H
         end.
  repeat split; try assumption; lia.
Qed.

Lemma ViT_init_ok (cfg : ViT.config) (w : world G) :
  ViT.patch_size cfg <> 0%Z ->
  (ViT.img_size cfg mod ViT.patch_size cfg)%Z = 0%Z ->
  library_accepts cfg = true ->
  exists (m : ViT.t R) w', ViT.init cfg w = Ok (m, w').
Proof.
  intros HP Hm Hacc. apply library_accepts_inv in Hacc.
  destruct Hacc as (Hc & Hd & Hr & Hn & H0 & H1).
  unfold ViT.init.
  destruct (Z.eqb_spec (ViT.patch_size cfg) 0); [contradiction|].
  rewrite Hm. change (negb (0 =? 0)%Z) with false. cbv iota.
  unfold bind, lift.
  assert (E1 : exists (l : Linear.t R) w1,
             Linear.init
               (ViT.in_ch cfg * ViT.patch_size cfg * ViT.patch_size cfg)
               (ViT.embed_dim cfg) true w = Ok (l, w1))
    by (apply Linear_init_ok; nia).
  destruct E1 as (l & w1 & ->).
  assert (E2 : exists t : Tensor R,
             ViT.zeros [1; (ViT.img_size cfg / ViT.patch_size cfg) ^ 2 + 1;
                        ViT.embed_dim cfg]%Z = Ok t).
  { assert (F : Forall (fun d => 0 <= d)%Z
                  [1; (ViT.img_size cfg / ViT.patch_size cfg) ^ 2 + 1;
                   ViT.embed_dim cfg]%Z)
      by (repeat constructor; try lia; rewrite Z.pow_2_r; nia).
    destruct (zeros_ok F) as [t [Ht _]]. eauto. }
  destruct E2 as [pe ->].
  assert (E3 : exists t : Tensor R,
             ViT.zeros [1; 1; ViT.embed_dim cfg]%Z = Ok t).
  { assert (F : Forall (fun d => 0 <= d)%Z [1; 1; ViT.embed_dim cfg]%Z)
      by (repeat constructor; lia).
    destruct (zeros_ok F) as [t [Ht _]]. eauto. }
  destruct E3 as [ce ->].
  assert (E4 : exists (bs : list (Block.t R)) w2,
             Transformer.init_blocks (Z.to_nat (ViT.depth cfg))
               (ViT.embed_dim cfg) (ViT.num_heads cfg) (ViT.mlp_ratio cfg)
               (ViT.drop_rate cfg) w1 = Ok (bs, w2))
    by (apply init_blocks_ok; assumption).
  destruct E4 as (bs & w2 & E4).
  unfold Transformer.init, bind. rewrite E4. unfold ret.
  assert (E5 : exists n : LayerNorm.t R,
             LayerNorm.init (ViT.embed_dim cfg) = Ok n)
    by (apply LayerNorm_init_ok; lia).
  destruct E5 as [nm ->].
  destruct (ViT.use_mlp cfg).
  - assert (E6 : exists (h : MLP.t R) w3,
               MLP.init (ViT.embed_dim cfg)
                 (Some (ViT.embed_dim cfg * ViT.mlp_ratio cfg)%Z)
                 (Some (ViT.num_classes cfg)) 0 w2 = Ok (h, w3)).
    { apply MLP_init_ok; try reflexivity; try lia.
      - intros z Hz. injection Hz as <-. nia.
      - intros z Hz. injection Hz as <-. lia. }
    destruct E6 as (h & w3 & ->). eauto.
  - assert (E6 : exists (h : Linear.t R) w3,
               Linear.init (ViT.embed_dim cfg) (ViT.num_classes cfg) true w2
               = Ok (h, w3))
      by (apply Linear_init_ok; lia).
    destruct E6 as (h & w3 & ->). eauto.
Qed.

Lemma ViT_init_dropouts (cfg : ViT.config) (w w' : world G) (m : ViT.t R) :
  ViT.init cfg w = Ok (m, w') ->
  Forall (fun d => Dropout.p d = ViT.drop_rate cfg \/ Dropout.p d = 0%Q)
         (ViT_dropouts m).
Proof.
  unfold ViT.init.
  destruct (ViT.patch_size cfg =? 0)%Z; [discriminate|].
  destruct (negb _); [discriminate|].
  intros H. minv.
  match goal with
  | Ht : Transformer.init _ _ _ _ _ _ = Ok _ |- _ =>
      unfold Transformer.init in Ht; minv
  end.
  match goal with
  | Hbs : Transformer.init_blocks _ _ _ _ _ _ = Ok _ |- _ =>
      apply init_blocks_inv in Hbs; destruct Hbs as (_ & _ & Hps)
  end.
  unfold ViT_dropouts, Transformer_dropouts. simpl.
  apply Forall_app. split.
  - eapply Forall_impl; [|exact Hps]. simpl. auto.
  - destruct (ViT.use_mlp cfg); minv; simpl; [|constructor].
    match goal with
    | Hm : MLP.init _ _ _ _ _ = Ok _ |- _ =>
        apply MLP_init_inv in Hm; destruct Hm as [Hmd _]
    end.
    unfold MLP_dropouts. rewrite Hmd.
    constructor; [right; reflexivity|constructor].
Qed.
End ModelFacts.


(** ** Construction, determinism and the block structure *)

Section ModelTheorems.
Context {R G : Type} {SR : Scalar R} {RG : Random R G}.

(** C5.  When the patch size (a non-zero integer) does not divide the
    image size, [ViT.__init__] raises the configuration error
    [ValueError('Image size must be divisible by patch size.')] and no
    model exists to call forward on; when it divides the image size, and
    the remaining arguments are ones the library's constructors accept,
    construction returns a model.  (With a patch size of zero the test
    [img_size % patch_size] itself raises ZeroDivisionError.) *)
Theorem init_validates_image_size (cfg : ViT.config) (w : world G) :
  (ViT.patch_size cfg <> 0%Z ->
   (ViT.img_size cfg mod ViT.patch_size cfg)%Z <> 0%Z ->
   @ViT.init R G SR RG cfg w
   = Raise (ValueError "Image size must be divisible by patch size."))
  /\ (ViT.patch_size cfg <> 0%Z ->
      (ViT.img_size cfg mod ViT.patch_size cfg)%Z = 0%Z ->
      library_accepts cfg = true ->
      exists (m : ViT.t R) w', ViT.init cfg w = Ok (m, w'))
  /\ (ViT.patch_size cfg = 0%Z ->
      @ViT.init R G SR RG cfg w = Raise ZeroDivisionError).
Proof.
  split; [|split].
  - intros HP Hm. now apply ViT_init_not_divisible.
  - intros HP Hm Hacc. now apply ViT_init_ok.
  - intros HP. unfold ViT.init. rewrite HP. reflexivity.
Qed.

Lemma inert_of_rate (rate : Q) (ds : list Dropout.t) :
  (rate == 0)%Q ->
  Forall (fun d => Dropout.p d = rate \/ Dropout.p d = 0%Q) ds ->
  Forall (fun d => Dropout.inert d = true) ds.
Proof.
  intros Hr H. eapply Forall_impl; [|exact H].
  intros d [E|E]; unfold Dropout.inert; rewrite E.
  - apply Qeq_bool_iff in Hr. now rewrite Hr.
  - reflexivity.
Qed.

Lemma inert_deterministic {Mask : Type} (m : ViT.t R) (x : Tensor R)
      (mask : option Mask) (wa wb : world G) :
  Forall (fun d => Dropout.inert d = true) (ViT_dropouts m) ->
  value (ViT.forward m x mask wa) = value (ViT.forward m x mask wb).
Proof.
  intros Hd. apply agree_value with (P := fun _ _ => True); [|exact I].
  apply ViT_agree with (ok := fun d => Dropout.inert d = true).
  - auto.
  - intros d t Hi. now apply Dropout_inert_any.
  - exact Hd.
Qed.

(** C6.  With dropout disabled, that is, every dropout layer of the model
    in inference mode or with probability 0 (as in every model constructed
    with [drop_rate = 0]), [ViT.forward] is a function of the model and
    its input alone: from any two states of the random source and of
    standard output it returns the same result, and a second invocation
    after a first one returns the same tensor. *)
Theorem forward_deterministic {Mask : Type} :
  (forall (m : ViT.t R) (x : Tensor R) (mask : option Mask)
          (wa wb : world G),
      Forall (fun d => Dropout.inert d = true) (ViT_dropouts m) ->
      value (ViT.forward m x mask wa) = value (ViT.forward m x mask wb))
  /\ (forall (cfg : ViT.config) (w0 w1 : world G) (m : ViT.t R)
             (x : Tensor R) (mask : option Mask) (wa wb : world G),
         ViT.init cfg w0 = Ok (m, w1) ->
         (ViT.drop_rate cfg == 0)%Q ->
         value (ViT.forward m x mask wa) = value (ViT.forward m x mask wb))
  /\ (forall (m : ViT.t R) (x : Tensor R) (mask : option Mask)
             (w w' : world G) (y : Tensor R),
         Forall (fun d => Dropout.inert d = true) (ViT_dropouts m) ->
         ViT.forward m x mask w = Ok (y, w') ->
         value (ViT.forward m x mask w') = Ok y).
Proof.
  split; [|split].
  - intros. now apply inert_deterministic.
  - intros cfg w0 w1 m x mask wa wb Hinit Hrate.
    apply inert_deterministic.
    apply inert_of_rate with (rate := ViT.drop_rate cfg); [exact Hrate|].
    eapply ViT_init_dropouts. exact Hinit.
  - intros m x mask w w' y Hd Hrun.
    rewrite (@inert_deterministic Mask m x mask w' w Hd), Hrun.
    reflexivity.
Qed.

(** C8.  [Block.forward] is the pre-norm residual composition: with
    y = x + Attention(LayerNorm1(x), mask), the result is
    y + MLP(LayerNorm2(y)), for every block made of any two layer norms
    [l1] and [l2] (each with its own parameters), attention [a] and
    feed-forward [f], every input, mask and state; an exception of any
    step is the exception of the call. *)
Theorem Block_is_prenorm_residual {Mask : Type} (l1 l2 : LayerNorm.t R)
        (a : Attention.t R) (f : MLP.t R) (x : Tensor R)
        (mask : option Mask) (w : world G) :
  Block.forward (Block.mk l1 a l2 f) x mask w
  = match LayerNorm.forward l1 x with
    | Raise e => Raise e
    | Ok n1 =>
        match Attention.forward a n1 mask w with
        | Raise e => Raise e
        | Ok (att, w1) =>
            match tadd x att with
            | Raise e => Raise e
            | Ok y =>
                match LayerNorm.forward l2 y with
                | Raise e => Raise e
                | Ok n2 =>
                    match MLP.forward f n2 w1 with
                    | Raise e => Raise e
                    | Ok (ff, w2) =>
                        match tadd y ff with
                        | Raise e => Raise e
                        | Ok out => Ok (out, w2)
                        end
                    end
                end
            end
        end
    end.
Proof.
  unfold Block.forward, bind, lift. simpl.
  destruct (LayerNorm.forward l1 x) as [n1|e]; [|reflexivity].
  destruct (Attention.forward a n1 mask w) as [[att w1]|e]; [|reflexivity].
  destruct (tadd x att) as [y|e]; [|reflexivity].
  destruct (LayerNorm.forward l2 y) as [n2|e]; [|reflexivity].
  destruct (MLP.forward f n2 w1) as [[ff w2]|e]; reflexivity.
Qed.
End ModelTheorems.

(** ** Head count and embedding dimension *)

Section ForwardFailure.
Context {R G : Type} {SR : Scalar R} {RG : Random R G}.

Lemma ViT_init_inv (cfg : ViT.config) (w w' : world G) (m : ViT.t R) :
  ViT.init cfg w = Ok (m, w') ->
  ViT.patches m = ImgPatches.init (ViT.patch_size cfg)
  /\ Linear_dims (ViT.patch_embed m)
       (Z.to_nat (ViT.in_ch cfg * ViT.patch_size cfg * ViT.patch_size cfg))
       (Z.to_nat (ViT.embed_dim cfg))
  /\ shape (ViT.pos_emb m)
     = [1; Z.to_nat ((ViT.img_size cfg / ViT.patch_size cfg) ^ 2 + 1);
        Z.to_nat (ViT.embed_dim cfg)]
  /\ shape (ViT.cls_emb m) = [1; 1; Z.to_nat (ViT.embed_dim cfg)]
  /\ List.length (Transformer.blocks (ViT.transfomer m))
     = Z.to_nat (ViT.depth cfg)
  /\ Forall (fun b => Block_dims b (Z.to_nat (ViT.embed_dim cfg))
                      /\ Attention.num_heads (Block.attn b)
                         = ViT.num_heads cfg)
            (Transformer.blocks (ViT.transfomer m))
  /\ LayerNorm.normalized_shape (ViT.norm m) = Z.to_nat (ViT.embed_dim cfg).
Proof.
  unfold ViT.init.
  destruct (ViT.patch_size cfg =? 0)%Z; [discriminate|].
  destruct (negb _); [discriminate|].
  intros H. minv.
  match goal with
  | Ht : Transformer.init _ _ _ _ _ _ = Ok _ |- _ =>
      unfold Transformer.init in Ht; minv
  end.
  repeat match goal with
         | Hbs : Transformer.init_blocks _ _ _ _ _ _ = Ok _ |- _ =>
             apply init_blocks_inv in Hbs; destruct Hbs as (Hl & Hds & _)
         | Hz : ViT.zeros _ = Ok _ |- _ => apply zeros_inv in Hz
         | Hn : LayerNorm.init _ = Ok _ |- _ => apply LayerNorm_init_inv in Hn
         | Hp : Linear.init (_ * _ * _) _ _ _ = Ok _ |- _ =>
             apply Linear_init_inv in Hp
         end.
  simpl. auto 10.
Qed.

Lemma expand_batch (b d : nat) (t : Tensor R) :
  shape t = [1; 1; d] ->
  exists y, expand [Z.of_nat b; -1; -1]%Z t = Ok y /\ shape y = [b; 1; d].
Proof.
  intros Hs. unfold expand. rewrite Hs. simpl.
  destruct (Z.eqb_spec (Z.of_nat b) (-1)); [lia|].
  destruct (Z.eqb_spec (Z.of_nat b) 1) as [E|E].
  - eexists. split; [reflexivity|]. simpl. repeat f_equal. lia.
  - destruct (Z.leb_spec 0 (Z.of_nat b)); [|lia].
    eexists. split; [reflexivity|]. simpl. now rewrite Nat2Z.id.
Qed.

Lemma cat_tokens (b n d : nat) (c x : Tensor R) :
  shape c = [b; 1; d] -> shape x = [b; n; d] ->
  exists y, cat 1 c x = Ok y /\ shape y = [b; 1 + n; d].
Proof.
  intros Hc Hx. unfold cat. rewrite Hc, Hx. cbn [nth_error set_nth].
  destruct (list_eq_dec Nat.eq_dec [b; 0; d] [b; 0; d]); [|contradiction].
  eexists. split; reflexivity.
Qed.

Lemma tadd_inplace_batch (b n d : nat) (x pe : Tensor R) :
  shape x = [b; n; d] -> shape pe = [1; n; d] ->
  exists y, tadd_inplace x pe = Ok y /\ shape y = [b; n; d].
Proof.
  intros Hx Hp. unfold tadd_inplace, broadcast_shapes. rewrite Hx, Hp.
  cbn [rev app broadcast_rev]. rewrite !Nat.eqb_refl.
  destruct (Nat.eqb_spec b 1); cbn [rev app Nat.eqb].
  all: destruct (list_eq_dec Nat.eq_dec [b; n; d] [b; n; d]);
    [|contradiction].
  all: eexists; split; reflexivity.
Qed.

Lemma Attention_forward_indivisible {Mask : Type} (a : Attention.t R)
      (b n c hn : nat) (x : Tensor R) (mask : option Mask) (w : world G) :
  Attention_dims a c -> Attention.num_heads a = Z.of_nat hn ->
  1 <= hn -> c mod hn <> 0 -> 1 <= b -> 1 <= n -> shape x = [b; n; c] ->
  Attention.forward a x mask w
  = Raise (RuntimeError "shape is invalid for input size").
Proof.
  intros Ha Hh Hhn Hm Hb Hn Hx. unfold Attention.forward, bind, lift.
  rewrite Hx.
  rewrite qkv_heads_indivisible with (hn := hn); auto.
Qed.

Lemma Block_forward_indivisible {Mask : Type} (blk : Block.t R)
      (b n c hn : nat) (x : Tensor R) (mask : option Mask) (w : world G) :
  Block_dims blk c -> Attention.num_heads (Block.attn blk) = Z.of_nat hn ->
  1 <= hn -> c mod hn <> 0 -> 1 <= b -> 1 <= n -> shape x = [b; n; c] ->
  Block.forward blk x mask w
  = Raise (RuntimeError "shape is invalid for input size").
Proof.
  intros (Hl1 & Ha & _) Hh Hhn Hm Hb Hn Hx. unfold Block.forward, bind, lift.
  assert (E : exists y, LayerNorm.forward (Block.ln1 blk) x = Ok y
                        /\ shape y = shape x)
    by (apply LayerNorm_forward_shape with (pre := [b; n]);
        rewrite Hx, Hl1; reflexivity).
  destruct E as [y [-> Sy]]. rewrite Hx in Sy.
  rewrite Attention_forward_indivisible
    with (b := b) (n := n) (c := c) (hn := hn); auto.
Qed.

Lemma ViT_forward_indivisible {Mask : Type} (cfg : ViT.config)
      (w0 w1 w : world G) (m : ViT.t R) (B : nat) (x : Tensor R)
      (mask : option Mask) :
  ViT.init cfg w0 = Ok (m, w1) ->
  (0 < ViT.patch_size cfg)%Z -> (0 < ViT.img_size cfg)%Z ->
  (0 < ViT.in_ch cfg)%Z -> (0 < ViT.num_heads cfg)%Z ->
  (0 < ViT.embed_dim cfg)%Z -> (1 <= ViT.depth cfg)%Z ->
  (ViT.img_size cfg mod ViT.patch_size cfg = 0)%Z ->
  (ViT.embed_dim cfg mod ViT.num_heads cfg <> 0)%Z ->
  1 <= B ->
  shape x = [B; Z.to_nat (ViT.in_ch cfg); Z.to_nat (ViT.img_size cfg);
             Z.to_nat (ViT.img_size cfg)] ->
  ViT.forward m x mask w
  = Raise (RuntimeError "shape is invalid for input size").
Proof.
  intros Hinit HP HS HC HH HD Hdepth Hdiv Hind HB Hx.
  apply ViT_init_inv in Hinit.
  destruct Hinit as (Hpat & Hemb & Hpos & Hcls & Hlen & Hblocks & _).
  remember (Z.to_nat (ViT.patch_size cfg)) as p eqn:Ep.
  remember (Z.to_nat (ViT.img_size cfg)) as s eqn:Es.
  remember (Z.to_nat (ViT.in_ch cfg)) as c eqn:Ec.
  remember (Z.to_nat (ViT.embed_dim cfg)) as d eqn:Ed.
  remember (Z.to_nat (ViT.num_heads cfg)) as hn eqn:Eh.
  assert (EP : ViT.patch_size cfg = Z.of_nat p) by lia.
  assert (ES : ViT.img_size cfg = Z.of_nat s) by lia.
  assert (EC : ViT.in_ch cfg = Z.of_nat c) by lia.
  assert (ED : ViT.embed_dim cfg = Z.of_nat d) by lia.
  assert (EH : ViT.num_heads cfg = Z.of_nat hn) by lia.
  rewrite EP, ES, EC in *. clear Ep Es Ec.
  assert (Hsp : s mod p = 0).
  { apply Nat2Z.inj. rewrite Nat2Z.inj_mod. exact Hdiv. }
  assert (Hdh : d mod hn <> 0).
  { intros E. apply Hind. rewrite ED, EH, <- Nat2Z.inj_mod, E.
    reflexivity. }
  assert (Hps : p <= s) by (apply divides_le; lia).
  rewrite <- !Nat2Z.inj_mul, Nat2Z.id in Hemb.
  replace (Z.to_nat ((Z.of_nat s / Z.of_nat p) ^ 2 + 1))
    with (1 + s / p * (s / p)) in Hpos
    by (rewrite Z.pow_2_r, <- Nat2Z.inj_div, <- Nat2Z.inj_mul; lia).
  unfold ViT.forward, bind, lift. rewrite Hx.
  assert (E0 : exists y, expand [Z.of_nat B; -1; -1]%Z (ViT.cls_emb m) = Ok y
                         /\ shape y = [B; 1; d])
    by (apply expand_batch; exact Hcls).
  destruct E0 as [cls [-> Scls]].
  rewrite Hpat.
  rewrite forward_view with (b := B) (c := c) (h := s) (w := s);
    try assumption; try lia.
  match goal with
  | |- context [Linear.forward (ViT.patch_embed m) ?t] =>
      assert (E : exists y, Linear.forward (ViT.patch_embed m) t = Ok y
                            /\ shape y = [B; s / p * (s / p)] ++ [d])
        by (apply Linear_forward_shape with (i := c * p * p);
            [exact Hemb|reflexivity])
  end.
  destruct E as [e [-> Se]].
  assert (E1 : exists y, cat 1 cls e = Ok y
                         /\ shape y = [B; 1 + s / p * (s / p); d])
    by (apply cat_tokens; assumption).
  destruct E1 as [t [-> St]].
  assert (E2 : exists y, tadd_inplace t (ViT.pos_emb m) = Ok y
                         /\ shape y = [B; 1 + s / p * (s / p); d])
    by (apply tadd_inplace_batch; assumption).
  destruct E2 as [t' [-> St']].
  unfold Transformer.forward.
  destruct (Transformer.blocks (ViT.transfomer m)) as [|blk bs];
    [simpl in Hlen; lia|].
  apply Forall_inv in Hblocks. destruct Hblocks as [Hbd Hbh].
  simpl. unfold bind.
  rewrite Block_forward_indivisible
    with (b := B) (n := 1 + s / p * (s / p)) (c := d) (hn := hn);
    auto; try lia.
Qed.

(** C2, as amended.  For a configuration whose image size is a positive
    multiple of the patch size, with arguments the library's constructors
    accept and a head count Hn >= 1 that does not divide the embedding
    dimension, [ViT.__init__] raises nothing and returns a model; when
    depth >= 1, every forward call of that model on a batch of B >= 1
    images of the configured size raises the library's RuntimeError for
    the reshape in [Attention.forward]. *)
Theorem heads_checked_at_forward {Mask : Type} (cfg : ViT.config)
        (w0 : world G) :
  (0 < ViT.patch_size cfg)%Z -> (0 < ViT.img_size cfg)%Z ->
  (ViT.img_size cfg mod ViT.patch_size cfg = 0)%Z ->
  library_accepts cfg = true ->
  (0 < ViT.in_ch cfg)%Z -> (0 < ViT.num_heads cfg)%Z ->
  (ViT.embed_dim cfg mod ViT.num_heads cfg <> 0)%Z ->
  exists (m : ViT.t R) w1,
    ViT.init cfg w0 = Ok (m, w1)
    /\ ((1 <= ViT.depth cfg)%Z ->
        forall (B : nat) (x : Tensor R) (mask : option Mask) (w : world G),
          1 <= B ->
          shape x = [B; Z.to_nat (ViT.in_ch cfg);
                     Z.to_nat (ViT.img_size cfg);
                     Z.to_nat (ViT.img_size cfg)] ->
          ViT.forward m x mask w
          = Raise (RuntimeError "shape is invalid for input size")).
Proof.
  intros HP HS Hdiv Hacc HC HH Hind.
  assert (E : exists (m : ViT.t R) w1, ViT.init cfg w0 = Ok (m, w1))
    by (apply ViT_init_ok; [lia|assumption|assumption]).
  destruct E as (m & w1 & Hinit). exists m, w1. split; [exact Hinit|].
  intros Hdepth B x mask w HB Hx.
  apply library_accepts_inv in Hacc. destruct Hacc as (_ & HD & _).
  eapply ViT_forward_indivisible; eassumption.
Qed.
End ForwardFailure.

(** C2 as stated fails: with embed_dim = 3 and num_heads = 2 the
    constructor returns a model. *)
Lemma indivisible_heads_construct :
  let cfg := ViT.mkConfig 2 1 1 2 true 3 1 2 2 0 in
  (ViT.embed_dim cfg mod ViT.num_heads cfg <> 0)%Z
  /\ exists (m : ViT.t Z) w1, ViT.init cfg (mkWorld 0 []) = Ok (m, w1).
Proof.
  split; [discriminate|].
  eexists. eexists. vm_compute. reflexivity.
Qed.

(** The amended C2 at that configuration, on one 2 x 2 image. *)
Lemma heads_checked_at_forward_witness :
  let cfg := ViT.mkConfig 2 1 1 2 true 3 1 2 2 0 in
  exists (m : ViT.t Z) w1,
    ViT.init cfg (mkWorld 0 []) = Ok (m, w1)
    /\ ViT.forward m (mkTensor [1; 1; 2; 2] [1; 2; 3; 4]%Z)
                   (@None unit) w1
       = Raise (RuntimeError "shape is invalid for input size").
Proof.
  intros cfg.
  destruct (@heads_checked_at_forward Z nat Scalar_Z Random_Z unit cfg
              (mkWorld 0 []))
    as (m & w1 & Hinit & Hfwd);
    try reflexivity; try discriminate.
  exists m, w1. split; [exact Hinit|].
  apply Hfwd with (B := 1); [discriminate|lia|reflexivity].
Defined.



(** ** Concrete instances *)

(** C5 at two configurations: image size 3 with patch size 2 is rejected,
    image size 4 with patch size 2 is accepted. *)
Lemma init_validates_image_size_witness :
  @ViT.init Z nat Scalar_Z Random_Z (ViT.mkConfig 3 2 1 2 true 4 1 2 2 0)
            (mkWorld 0 [])
  = Raise (ValueError "Image size must be divisible by patch size.")
  /\ exists (m : ViT.t Z) w',
      ViT.init (ViT.mkConfig 4 2 1 2 true 4 1 2 2 0) (mkWorld 0 [])
      = Ok (m, w').
Proof.
  split.
  - apply (proj1 (@init_validates_image_size Z nat Scalar_Z Random_Z
                    (ViT.mkConfig 3 2 1 2 true 4 1 2 2 0) (mkWorld 0 [])));
      discriminate.
  - apply (proj1 (proj2 (@init_validates_image_size Z nat Scalar_Z Random_Z
                           (ViT.mkConfig 4 2 1 2 true 4 1 2 2 0)
                           (mkWorld 0 []))));
      first [discriminate | reflexivity].
Defined.

(** C6 at a model constructed with drop_rate = 0, run from two different
    states of the random source and of standard output. *)
Lemma forward_deterministic_witness :
  let cfg := ViT.mkConfig 2 1 1 2 true 4 1 2 2 0 in
  let x := mkTensor [1; 1; 2; 2] [1; 2; 3; 4]%Z in
  exists (m : ViT.t Z) w1,
    ViT.init cfg (mkWorld 0 []) = Ok (m, w1)
    /\ value (ViT.forward m x (@None unit) (mkWorld 5 []))
       = value (ViT.forward m x (@None unit) (mkWorld 9 ["earlier output"])).
Proof.
  intros cfg x. eexists. eexists. split; [vm_compute; reflexivity|].
  eapply (proj1 (proj2 (@forward_deterministic Z nat Scalar_Z Random_Z unit))
            cfg (mkWorld 0 [])).
  - vm_compute. reflexivity.
  - reflexivity.
Defined.

(** * Further properties *)

(** ** Shapes through the feed-forward, block and stack *)


Section ForwardShapes.
Context {R G : Type} {SR : Scalar R} {RG : Random R G}.

Lemma MLP_forward_shape (m : MLP.t R) (i h o : nat) (pre : list nat)
      (x : Tensor R) (w : world G) :
  MLP_dims m i h o -> shape x = pre ++ [i] ->
  exists y w', MLP.forward m x w = Ok (y, w') /\ shape y = pre ++ [o].
Proof.
  intros [H1 H2] Hx. unfold MLP.forward, bind, lift, ret.
  assert (E1 : exists y, Linear.forward (MLP.fc1 m) x = Ok y
                         /\ shape y = pre ++ [h])
    by (apply Linear_forward_shape with (i := i); assumption).
  destruct E1 as [y1 [-> S1]].
  assert (E2 : exists y, Linear.forward (MLP.fc2 m) (tmap rgelu y1) = Ok y
                         /\ shape y = pre ++ [o])
    by (apply Linear_forward_shape with (i := h); assumption).
  destruct E2 as [y2 [-> S2]].
  destruct (Dropout_forward_shape (MLP.dropout m) y2 w) as (y & w' & Hy & Sy).
  exists y, w'. split; [exact Hy|]. now rewrite Sy.
Qed.

Lemma Block_forward_shape {Mask : Type} (blk : Block.t R) (b n c hn : nat)
      (x : Tensor R) (mask : option Mask) (w : world G) :
  Block_dims blk c -> Attention.num_heads (Block.attn blk) = Z.of_nat hn ->
  1 <= hn -> c mod hn = 0 -> shape x = [b; n; c] ->
  exists y w', Block.forward blk x mask w = Ok (y, w') /\ shape y = [b; n; c].
Proof.
  intros (Hl1 & Ha & Hl2 & hd & Hm) Hh Hhn Hdiv Hx.
  unfold Block.forward, bind, lift.
  assert (E1 : exists y, LayerNorm.forward (Block.ln1 blk) x = Ok y
                         /\ shape y = shape x)
    by (apply LayerNorm_forward_shape with (pre := [b; n]);
        rewrite Hx, Hl1; reflexivity).
  destruct E1 as [x1 [-> S1]]. rewrite Hx in S1.
  assert (E2 : exists y w1,
             Attention.forward (Block.attn blk) x1 mask w = Ok (y, w1)
             /\ shape y = [b; n; c])
    by (apply Attention_forward_shape with (hn := hn); assumption).
  destruct E2 as (a & w1 & -> & Sa).
  assert (E3 : exists y, tadd x a = Ok y /\ shape y = shape x)
    by (apply tadd_same_shape; now rewrite Sa, Hx).
  destruct E3 as [y [-> Sy]]. rewrite Hx in Sy.
  assert (E4 : exists z, LayerNorm.forward (Block.ln2 blk) y = Ok z
                         /\ shape z = shape y)
    by (apply LayerNorm_forward_shape with (pre := [b; n]);
        rewrite Sy, Hl2; reflexivity).
  destruct E4 as [x2 [-> S2]]. rewrite Sy in S2.
  assert (E5 : exists f w2, MLP.forward (Block.mlp blk) x2 w1 = Ok (f, w2)
                            /\ shape f = [b; n] ++ [c])
    by (apply MLP_forward_shape with (i := c) (h := hd); assumption).
  destruct E5 as (f & w2 & -> & Sf).
  assert (E6 : exists z, tadd y f = Ok z /\ shape z = shape y)
    by (apply tadd_same_shape; now rewrite Sf, Sy).
  destruct E6 as [z [-> Sz]]. exists z, w2. split; [reflexivity|].
  now rewrite Sz.
Qed.

Lemma blocks_forward_shape {Mask : Type} (c hn : nat) (mask : option Mask)
      (bs : list (Block.t R)) :
  1 <= hn -> c mod hn = 0 ->
  Forall (fun blk => Block_dims blk c
                     /\ Attention.num_heads (Block.attn blk) = Z.of_nat hn)
         bs ->
  forall (b n : nat) (x : Tensor R) (w : world G),
    shape x = [b; n; c] ->
    exists y w',
      Transformer.forward_blocks bs x mask w = Ok (y, w')
      /\ shape y = [b; n; c].
Proof.
  intros Hhn Hdiv Hbs. induction Hbs as [|blk bs [Hd Hh] _ IH];
    intros b n x w Hx; simpl.
  - unfold ret. eauto.
  - unfold bind.
    assert (E : exists y w1, Block.forward blk x mask w = Ok (y, w1)
                             /\ shape y = [b; n; c])
      by (apply Block_forward_shape with (hn := hn); assumption).
    destruct E as (y & w1 & -> & Sy). now apply IH.
Qed.

Lemma select_first_shape (b n d : nat) (t : Tensor R) :
  shape t = [b; S n; d] ->
  exists y, select_first t = Ok y /\ shape y = [b; d].
Proof.
  intros Hs. unfold select_first. rewrite Hs. simpl.
  eexists. split; reflexivity.
Qed.
End ForwardShapes.

Section ForwardTheorems.
Context {R G : Type} {SR : Scalar R} {RG : Random R G}.

(** A feed-forward module built by [MLP.__init__] maps an input whose last
    axis is [in_features] to an output with the same leading axes and a last
    axis of [out_features], where an [out_features] that is None or 0 stands
    for [in_features]. *)
Theorem MLP_output_shape (i : Z) (h o : option Z) (p : Q) (w0 w1 w : world G)
        (m : MLP.t R) (pre : list nat) (x : Tensor R) :
  MLP.init i h o p w0 = Ok (m, w1) ->
  shape x = pre ++ [Z.to_nat i] ->
  exists y w',
    MLP.forward m x w = Ok (y, w')
    /\ shape y
       = pre ++ [Z.to_nat (if falsy o then i
                           else match o with Some z => z | None => i end)].
Proof.
  intros Hinit Hx. apply MLP_init_inv in Hinit.
  destruct Hinit as (_ & hd & Hd).
  eapply MLP_forward_shape; eassumption.
Qed.

(** A block built by [Block.__init__] for dimension D and a head count
    Hn >= 1 dividing D returns, for an input of shape (B, N, D), an output of
    the same shape. *)
Theorem Block_preserves_shape {Mask : Type} (D Hn ratio : Z) (p : Q)
        (w0 w1 w : world G) (blk : Block.t R) (B N : nat) (x : Tensor R)
        (mask : option Mask) :
  Block.init D Hn ratio p w0 = Ok (blk, w1) ->
  (0 < Hn)%Z -> (D mod Hn = 0)%Z ->
  shape x = [B; N; Z.to_nat D] ->
  exists y w',
    Block.forward blk x mask w = Ok (y, w') /\ shape y = [B; N; Z.to_nat D].
Proof.
  intros Hinit HH Hm Hx. apply Block_init_inv in Hinit.
  destruct Hinit as (Hd & Hh & _ & HD).
  apply Block_forward_shape with (hn := Z.to_nat Hn); try assumption.
  - rewrite Z2Nat.id by lia. exact Hh.
  - lia.
  - now apply to_nat_mod.
Qed.

(** A stack built by [Transformer.__init__] holds max(depth, 0) blocks and,
    for a head count Hn >= 1 dividing D, returns for an input of shape
    (B, N, D) an output of the same shape. *)
Theorem Transformer_preserves_shape {Mask : Type} (depth D Hn ratio : Z)
        (p : Q) (w0 w1 w : world G) (t : Transformer.t R) (B N : nat)
        (x : Tensor R) (mask : option Mask) :
  Transformer.init depth D Hn ratio p w0 = Ok (t, w1) ->
  (0 < Hn)%Z -> (D mod Hn = 0)%Z ->
  shape x = [B; N; Z.to_nat D] ->
  List.length (Transformer.blocks t) = Z.to_nat depth
  /\ exists y w',
      Transformer.forward t x mask w = Ok (y, w')
      /\ shape y = [B; N; Z.to_nat D].
Proof.
  intros Hinit HH Hm Hx. unfold Transformer.init in Hinit. minv.
  match goal with
  | Hbs : Transformer.init_blocks _ _ _ _ _ _ = Ok _ |- _ =>
      apply init_blocks_inv in Hbs; destruct Hbs as (Hl & Hds & _)
  end.
  simpl. split; [exact Hl|]. unfold Transformer.forward. simpl.
  apply blocks_forward_shape with (hn := Z.to_nat Hn); try assumption.
  - lia.
  - destruct (Z.eq_dec D 0) as [->|]; [now rewrite Nat.Div0.mod_0_l|].
    destruct (Z.lt_ge_cases D 0).
    + replace (Z.to_nat D) with 0 by lia. now rewrite Nat.Div0.mod_0_l.
    + apply to_nat_mod; lia.
  - eapply Forall_impl; [|exact Hds]. intros blk [Hd Hh]. split; [exact Hd|].
    rewrite Z2Nat.id by lia. exact Hh.
Qed.

End ForwardTheorems.

(** ** The whole forward pass *)

Section ViTForward.
Context {R G : Type} {SR : Scalar R} {RG : Random R G}.

Lemma ViT_init_head (cfg : ViT.config) (w w' : world G) (m : ViT.t R) :
  ViT.init cfg w = Ok (m, w') ->
  match ViT.out m with
  | ViT.HeadMLP h =>
      exists hd, MLP_dims h (Z.to_nat (ViT.embed_dim cfg)) hd
                   (Z.to_nat (ViT_out_dim cfg))
  | ViT.HeadLinear l =>
      Linear_dims l (Z.to_nat (ViT.embed_dim cfg))
                  (Z.to_nat (ViT_out_dim cfg))
  end.
Proof.
  unfold ViT.init, ViT_out_dim.
  destruct (ViT.patch_size cfg =? 0)%Z; [discriminate|].
  destruct (negb _); [discriminate|].
  intros H. minv. destruct (ViT.use_mlp cfg); minv; simpl.
  - match goal with
    | Hm : MLP.init _ _ _ _ _ = Ok _ |- _ =>
        apply MLP_init_inv in Hm; destruct Hm as (_ & hd & Hd)
    end.
    exists hd. exact Hd.
  - match goal with
    | Hl : Linear.init _ _ _ _ = Ok _ |- _ => apply Linear_init_inv in Hl
    end.
    assumption.
Qed.

(** The part of [ViT.forward] before the transformer: for a batch of B
    images with the configured number of channels and any height and width
    of at least one patch, the token sequence has one class token followed
    by floor(H/P)*floor(W/P) embedded patches. *)
Lemma ViT_tokens (m : ViT.t R) (B c h wd p d : nat) (x : Tensor R) :
  ViT.patches m = ImgPatches.init (Z.of_nat p) ->
  Linear_dims (ViT.patch_embed m) (c * p * p) d ->
  shape (ViT.cls_emb m) = [1; 1; d] ->
  shape x = [B; c; h; wd] ->
  1 <= B -> 1 <= c -> 1 <= p -> p <= h -> p <= wd ->
  exists cls e t,
    expand [Z.of_nat B; -1; -1]%Z (ViT.cls_emb m) = Ok cls
    /\ ImgPatches.forward (ViT.patches m) x
       = Ok (mkTensor [B; h / p * (wd / p); c * p * p]
                      (data (patch_view p x B c h wd)))
    /\ Linear.forward (ViT.patch_embed m)
         (mkTensor [B; h / p * (wd / p); c * p * p]
                   (data (patch_view p x B c h wd))) = Ok e
    /\ cat 1 cls e = Ok t
    /\ shape t = [B; 1 + h / p * (wd / p); d].
Proof.
  intros Hpat Hemb Hcls Hx HB Hc Hp Hh Hw.
  assert (E0 : exists y, expand [Z.of_nat B; -1; -1]%Z (ViT.cls_emb m) = Ok y
                         /\ shape y = [B; 1; d])
    by (apply expand_batch; exact Hcls).
  destruct E0 as [cls [Ecls Scls]].
  assert (E1 : exists y,
             Linear.forward (ViT.patch_embed m)
               (mkTensor [B; h / p * (wd / p); c * p * p]
                         (data (patch_view p x B c h wd))) = Ok y
             /\ shape y = [B; h / p * (wd / p)] ++ [d])
    by (apply Linear_forward_shape with (i := c * p * p);
        [exact Hemb|reflexivity]).
  destruct E1 as [e [Ee Se]].
  assert (E2 : exists y, cat 1 cls e = Ok y
                         /\ shape y = [B; 1 + h / p * (wd / p); d])
    by (apply cat_tokens; assumption).
  destruct E2 as [t [Et St]].
  exists cls, e, t. repeat split; try assumption.
  rewrite Hpat. apply forward_view; assumption.
Qed.

Lemma tadd_inplace_mismatch (b n n' d : nat) (x pe : Tensor R) :
  shape x = [b; S (S n); d] -> shape pe = [1; S (S n'); d] -> n <> n' ->
  tadd_inplace x pe = Raise (RuntimeError "shapes are not broadcastable").
Proof.
  intros Hx Hp Hne. unfold tadd_inplace, broadcast_shapes. rewrite Hx, Hp.
  cbn [rev app broadcast_rev].
  assert (E : exists r, (if b =? 1 then Ok [b]
                         else if b =? 1 then Ok [1]
                              else if 1 =? 1 then Ok [b]
                                   else Raise (RuntimeError
                                     "shapes are not broadcastable"))
                        = Ok r)
    by (destruct (b =? 1); simpl; eauto).
  destruct E as [r ->].
  destruct (Nat.eqb_spec (S (S n)) (S (S n'))); [lia|]. reflexivity.
Qed.
End ViTForward.

Section ViTTheorems.
Context {R G : Type} {SR : Scalar R} {RG : Random R G}.

Lemma ViT_init_nat (cfg : ViT.config) (w w' : world G) (m : ViT.t R) :
  ViT.init cfg w = Ok (m, w') ->
  (0 < ViT.patch_size cfg)%Z -> (0 <= ViT.in_ch cfg)%Z ->
  ViT.patches m = ImgPatches.init (Z.of_nat (Z.to_nat (ViT.patch_size cfg)))
  /\ Linear_dims (ViT.patch_embed m)
       (Z.to_nat (ViT.in_ch cfg) * Z.to_nat (ViT.patch_size cfg)
        * Z.to_nat (ViT.patch_size cfg))
       (Z.to_nat (ViT.embed_dim cfg))
  /\ shape (ViT.cls_emb m) = [1; 1; Z.to_nat (ViT.embed_dim cfg)].
Proof.
  intros Hinit HP HC. apply ViT_init_inv in Hinit.
  destruct Hinit as (Hpat & Hemb & _ & Hcls & _).
  rewrite Z2Nat.id by lia. repeat split; try assumption.
  - destruct Hemb as [He _]. rewrite He. do 2 f_equal. nia.
  - destruct Hemb as [_ He]. destruct (Linear.bias _); exact He.
Qed.


(** For a model constructed with a positive patch size P, a positive number
    of channels and an image size other than 0, a batch of at least one
    image with the configured channels and height and width at least P,
    whose number of patches (H // P) * (W // P) differs from the configured
    (img_size // P)^2, is rejected inside forward by the in-place addition
    of the positional embedding: the library raises its broadcasting
    RuntimeError.  The image size must not be 0: the configured number of
    patches is then at least 1, so the positional embedding has at least
    two rows and cannot broadcast over a different number of tokens. *)
Theorem ViT_forward_wrong_size {Mask : Type} (cfg : ViT.config)
        (w0 w1 w : world G) (m : ViT.t R) (B h wd : nat) (x : Tensor R)
        (mask : option Mask) :
  ViT.init cfg w0 = Ok (m, w1) ->
  (0 < ViT.patch_size cfg)%Z -> (0 < ViT.in_ch cfg)%Z ->
  ViT.img_size cfg <> 0%Z ->
  1 <= B ->
  shape x = [B; Z.to_nat (ViT.in_ch cfg); h; wd] ->
  Z.to_nat (ViT.patch_size cfg) <= h ->
  Z.to_nat (ViT.patch_size cfg) <= wd ->
  Z.of_nat (h / Z.to_nat (ViT.patch_size cfg)
            * (wd / Z.to_nat (ViT.patch_size cfg)))
  <> ((ViT.img_size cfg / ViT.patch_size cfg) ^ 2)%Z ->
  ViT.forward m x mask w
  = Raise (RuntimeError "shapes are not broadcastable").
Proof.
  intros Hinit HP HC HS HB Hx Hh Hw Hnp.
  pose proof Hinit as Hnat. apply ViT_init_nat in Hnat; [|lia|lia].
  destruct Hnat as (Hpat & Hemb & Hcls).
  assert (Hdivides : (ViT.img_size cfg mod ViT.patch_size cfg = 0)%Z).
  { unfold ViT.init in Hinit.
    destruct (ViT.patch_size cfg =? 0)%Z; [discriminate|].
    destruct (Z.eqb_spec (ViT.img_size cfg mod ViT.patch_size cfg) 0);
      [assumption|discriminate]. }
  apply ViT_init_inv in Hinit.
  destruct Hinit as (_ & _ & Hpos & _).
  set (p := Z.to_nat (ViT.patch_size cfg)) in *.
  set (c := Z.to_nat (ViT.in_ch cfg)) in *.
  set (d := Z.to_nat (ViT.embed_dim cfg)) in *.
  assert (Htok : exists cls e t,
             expand [Z.of_nat B; -1; -1]%Z (ViT.cls_emb m) = Ok cls
             /\ ImgPatches.forward (ViT.patches m) x
                = Ok (mkTensor [B; h / p * (wd / p); c * p * p]
                               (data (patch_view p x B c h wd)))
             /\ Linear.forward (ViT.patch_embed m)
                  (mkTensor [B; h / p * (wd / p); c * p * p]
                            (data (patch_view p x B c h wd))) = Ok e
             /\ cat 1 cls e = Ok t
             /\ shape t = [B; 1 + h / p * (wd / p); d])
    by (apply ViT_tokens; try assumption; lia).
  destruct Htok as (cls & e & t & Ecls & Epat & Ee & Et & St).
  unfold ViT.forward, bind, lift. rewrite Hx, Ecls, Epat, Ee, Et.
  assert (Hq : (ViT.img_size cfg / ViT.patch_size cfg <> 0)%Z).
  { intros E.
    pose proof (Z.div_mod (ViT.img_size cfg) (ViT.patch_size cfg)) as Hdm.
    rewrite E, Hdivides in Hdm. lia. }
  assert (Hn1 : 1 <= h / p * (wd / p)).
  { assert (1 <= h / p) by (apply Nat.div_le_lower_bound; lia).
    assert (1 <= wd / p) by (apply Nat.div_le_lower_bound; lia). nia. }
  remember ((ViT.img_size cfg / ViT.patch_size cfg) ^ 2)%Z as npz eqn:Enp.
  assert (Hnpz : (1 <= npz)%Z) by (subst npz; rewrite Z.pow_2_r; nia).
  assert (E : tadd_inplace t (ViT.pos_emb m)
              = Raise (RuntimeError "shapes are not broadcastable")).
  { apply tadd_inplace_mismatch
      with (b := B) (n := h / p * (wd / p) - 1) (n' := Z.to_nat npz - 1)
           (d := d).
    - rewrite St. do 2 f_equal. lia.
    - rewrite Hpos. do 2 f_equal. lia.
    - lia. }
  rewrite E. reflexivity.
Qed.

Lemma tadd_inplace_row (b n d : nat) (x pe : Tensor R) :
  shape x = [b; n; d] -> shape pe = [1; 1; d] ->
  exists y, tadd_inplace x pe = Ok y /\ shape y = [b; n; d].
Proof.
  intros Hx Hp. unfold tadd_inplace, broadcast_shapes. rewrite Hx, Hp.
  cbn [rev app broadcast_rev]. rewrite !Nat.eqb_refl.
  destruct (Nat.eqb_spec n 1); destruct (Nat.eqb_spec b 1);
    cbn [rev app Nat.eqb].
  all: destruct (list_eq_dec Nat.eq_dec [b; n; d] [b; n; d]);
    [|contradiction].
  all: eexists; split; reflexivity.
Qed.

(** The image size 0 passes the divisibility check of the constructor and
    configures no patch: the positional embedding then has the single row
    of the class token, which broadcasts over any number of tokens, and
    forward accepts images of every height and width H, W >= P and returns
    logits of shape (B, n), as for a matching image. *)
Theorem ViT_forward_zero_img_size {Mask : Type} (cfg : ViT.config)
        (w0 w1 w : world G) (m : ViT.t R) (B h wd : nat) (x : Tensor R)
        (mask : option Mask) :
  ViT.init cfg w0 = Ok (m, w1) ->
  ViT.img_size cfg = 0%Z ->
  (0 < ViT.patch_size cfg)%Z -> (0 < ViT.in_ch cfg)%Z ->
  (0 < ViT.num_heads cfg)%Z ->
  (ViT.embed_dim cfg mod ViT.num_heads cfg = 0)%Z ->
  1 <= B ->
  shape x = [B; Z.to_nat (ViT.in_ch cfg); h; wd] ->
  Z.to_nat (ViT.patch_size cfg) <= h ->
  Z.to_nat (ViT.patch_size cfg) <= wd ->
  shape (ViT.pos_emb m) = [1; 1; Z.to_nat (ViT.embed_dim cfg)]
  /\ exists y w',
      ViT.forward m x mask w = Ok (y, w')
      /\ shape y = [B; Z.to_nat (ViT_out_dim cfg)].
Proof.
  intros Hinit HS HP HC HH Hdiv HB Hx Hh Hw.
  pose proof Hinit as Hhead. apply ViT_init_head in Hhead.
  pose proof Hinit as Hnat. apply ViT_init_nat in Hnat; [|lia|lia].
  destruct Hnat as (Hpat & Hemb & Hcls).
  apply ViT_init_inv in Hinit.
  destruct Hinit as (_ & _ & Hpos & _ & _ & Hblocks & Hnorm).
  rewrite HS in Hpos. rewrite Z.div_0_l in Hpos by lia.
  change (Z.to_nat (0 ^ 2 + 1)) with 1 in Hpos.
  split; [exact Hpos|].
  set (p := Z.to_nat (ViT.patch_size cfg)) in *.
  set (c := Z.to_nat (ViT.in_ch cfg)) in *.
  set (d := Z.to_nat (ViT.embed_dim cfg)) in *.
  assert (Htok : exists cls e t,
             expand [Z.of_nat B; -1; -1]%Z (ViT.cls_emb m) = Ok cls
             /\ ImgPatches.forward (ViT.patches m) x
                = Ok (mkTensor [B; h / p * (wd / p); c * p * p]
                               (data (patch_view p x B c h wd)))
             /\ Linear.forward (ViT.patch_embed m)
                  (mkTensor [B; h / p * (wd / p); c * p * p]
                            (data (patch_view p x B c h wd))) = Ok e
             /\ cat 1 cls e = Ok t
             /\ shape t = [B; 1 + h / p * (wd / p); d])
    by (apply ViT_tokens; try assumption; lia).
  destruct Htok as (cls & e & t & Ecls & Epat & Ee & Et & St).
  unfold ViT.forward, bind, lift. rewrite Hx, Ecls, Epat, Ee, Et.
  assert (E2 : exists y, tadd_inplace t (ViT.pos_emb m) = Ok y
                         /\ shape y = [B; 1 + h / p * (wd / p); d])
    by (apply tadd_inplace_row; assumption).
  destruct E2 as [t' [-> St']].
  assert (E3 : exists y w2,
             Transformer.forward_blocks
               (Transformer.blocks (ViT.transfomer m)) t' mask w = Ok (y, w2)
             /\ shape y = [B; 1 + h / p * (wd / p); d]).
  { apply blocks_forward_shape with (hn := Z.to_nat (ViT.num_heads cfg));
      try assumption; try lia.
    - subst d. destruct (Z.lt_ge_cases 0 (ViT.embed_dim cfg)).
      + apply to_nat_mod; lia.
      + replace (Z.to_nat (ViT.embed_dim cfg)) with 0 by lia.
        apply Nat.Div0.mod_0_l.
    - eapply Forall_impl; [|exact Hblocks]. intros blk [Hd Hhd].
      split; [exact Hd|]. rewrite Z2Nat.id by lia. exact Hhd. }
  destruct E3 as (y1 & w2 & E3 & Sy1).
  unfold Transformer.forward. rewrite E3.
  assert (E4 : exists y, select_first y1 = Ok y /\ shape y = [B; d])
    by (apply select_first_shape with (n := h / p * (wd / p)); exact Sy1).
  destruct E4 as [y2 [-> Sy2]].
  assert (E5 : exists y, LayerNorm.forward (ViT.norm m) y2 = Ok y
                         /\ shape y = shape y2)
    by (apply LayerNorm_forward_shape with (pre := [B]);
        rewrite Sy2, Hnorm; reflexivity).
  destruct E5 as [y3 [-> Sy3]]. rewrite Sy2 in Sy3.
  destruct (ViT.out m) as [hm|hl].
  - destruct Hhead as [hd Hd].
    apply MLP_forward_shape with (pre := [B]) (i := d) (h := hd);
      assumption.
  - assert (E6 : exists y, Linear.forward hl y3 = Ok y
                           /\ shape y = [B] ++ [Z.to_nat (ViT_out_dim cfg)])
      by (apply Linear_forward_shape with (i := d); assumption).
    destruct E6 as [y [-> Sy]]. eauto.
Qed.

(** A batch with a number of channels other than [in_ch] is rejected inside
    forward by the patch-embedding layer. *)
Theorem ViT_forward_wrong_channels {Mask : Type} (cfg : ViT.config)
        (w0 w1 w : world G) (m : ViT.t R) (B c h wd : nat) (x : Tensor R)
        (mask : option Mask) :
  ViT.init cfg w0 = Ok (m, w1) ->
  (0 < ViT.patch_size cfg)%Z -> (0 <= ViT.in_ch cfg)%Z ->
  1 <= B -> 1 <= c -> c <> Z.to_nat (ViT.in_ch cfg) ->
  shape x = [B; c; h; wd] ->
  Z.to_nat (ViT.patch_size cfg) <= h ->
  Z.to_nat (ViT.patch_size cfg) <= wd ->
  ViT.forward m x mask w
  = Raise (RuntimeError "mat1 and mat2 shapes cannot be multiplied").
Proof.
  intros Hinit HP HC HB Hc Hne Hx Hh Hw.
  pose proof Hinit as Hnat. apply ViT_init_nat in Hnat; [|lia|lia].
  destruct Hnat as (Hpat & [Hemb _] & Hcls).
  set (p := Z.to_nat (ViT.patch_size cfg)) in *.
  assert (E0 : exists y, expand [Z.of_nat B; -1; -1]%Z (ViT.cls_emb m) = Ok y
                         /\ shape y = [B; 1; Z.to_nat (ViT.embed_dim cfg)])
    by (apply expand_batch; exact Hcls).
  destruct E0 as [cls [Ecls _]].
  unfold ViT.forward, bind, lift. rewrite Hx, Ecls, Hpat.
  rewrite forward_view with (b := B) (c := c) (h := h) (w := wd);
    try assumption; try lia.
  unfold Linear.forward. rewrite Hemb. simpl shape.
  unfold last_dim. cbn [last].
  destruct (Nat.eqb_spec (c * p * p)
              (Z.to_nat (ViT.in_ch cfg) * p * p)) as [E|E]; [|reflexivity].
  exfalso. apply Hne.
  assert (1 <= p) by lia.
  apply Nat.mul_cancel_r in E; [|lia].
  apply Nat.mul_cancel_r in E; [|lia]. exact E.
Qed.
End ViTTheorems.

(** ** Errors of construction *)

Section ConstructionErrors.
Context {R G : Type} {SR : Scalar R} {RG : Random R G}.

Lemma Linear_init_negative (i o : Z) (b : bool) (w : world G) :
  (i < 0 \/ o < 0)%Z ->
  @Linear.init R G RG i o b w
  = Raise (RuntimeError "trying to create tensor with negative dimension").
Proof.
  intros H. unfold Linear.init.
  destruct (Z.ltb_spec i 0), (Z.ltb_spec o 0); try reflexivity. lia.
Qed.

(** The steps of [ViT.__init__] up to the transformer stack succeed
    whenever the image size is a multiple of the non-zero patch size and
    neither the channel count nor the embedding dimension is negative. *)
Lemma ViT_init_prefix (cfg : ViT.config) (w : world G) :
  ViT.patch_size cfg <> 0%Z ->
  (ViT.img_size cfg mod ViT.patch_size cfg)%Z = 0%Z ->
  (0 <= ViT.in_ch cfg)%Z -> (0 <= ViT.embed_dim cfg)%Z ->
  exists (l : Linear.t R) (pe ce : Tensor R) (w1 : world G),
      ViT.init cfg w
      = bind (Transformer.init (ViT.depth cfg) (ViT.embed_dim cfg)
                (ViT.num_heads cfg) (ViT.mlp_ratio cfg) (ViT.drop_rate cfg))
             (fun tr =>
                bind (lift (LayerNorm.init (ViT.embed_dim cfg)))
                  (fun nm =>
                     bind (if ViT.use_mlp cfg then
                             bind (MLP.init (ViT.embed_dim cfg)
                                     (Some (ViT.embed_dim cfg
                                            * ViT.mlp_ratio cfg)%Z)
                                     (Some (ViT.num_classes cfg)) 0)
                                  (fun h => ret (ViT.HeadMLP h))
                           else
                             bind (Linear.init (ViT.embed_dim cfg)
                                     (ViT.num_classes cfg) true)
                                  (fun hl => ret (ViT.HeadLinear hl)))
                          (fun out =>
                             ret (ViT.mk
                                    (ImgPatches.init (ViT.patch_size cfg))
                                    l pe ce tr nm out)))) w1.
Proof.
  intros HP Hm Hc Hd.
  assert (E1 : exists (l : Linear.t R) w1,
             Linear.init
               (ViT.in_ch cfg * ViT.patch_size cfg * ViT.patch_size cfg)
               (ViT.embed_dim cfg) true w = Ok (l, w1))
    by (apply Linear_init_ok; nia).
  destruct E1 as (l & w1 & E1).
  assert (F2 : Forall (fun d => 0 <= d)%Z
                 [1; (ViT.img_size cfg / ViT.patch_size cfg) ^ 2 + 1;
                  ViT.embed_dim cfg]%Z)
    by (repeat constructor; try lia; rewrite Z.pow_2_r; nia).
  destruct (zeros_ok (R := R) F2) as [pe [E2 _]].
  assert (F3 : Forall (fun d => 0 <= d)%Z [1; 1; ViT.embed_dim cfg]%Z)
    by (repeat constructor; lia).
  destruct (zeros_ok (R := R) F3) as [ce [E3 _]].
  exists l, pe, ce, w1. unfold ViT.init.
  destruct (Z.eqb_spec (ViT.patch_size cfg) 0); [contradiction|].
  rewrite Hm. change (negb (0 =? 0)%Z) with false. cbv iota.
  unfold bind at 1. rewrite E1.
  unfold bind at 1. unfold lift at 1. rewrite E2.
  unfold bind at 1. unfold lift at 1. rewrite E3.
  reflexivity.
Qed.

Lemma Block_init_zero_dim (heads ratio : Z) (p : Q) (w : world G) :
  @Block.init R G SR RG 0 heads ratio p w = Raise ZeroDivisionError.
Proof. reflexivity. Qed.

Lemma Block_init_bad_drop (dim heads ratio : Z) (p : Q) (w : world G) :
  (0 < dim)%Z -> Qle_bool 0 p && Qle_bool p 1 = false ->
  @Block.init R G SR RG dim heads ratio p w
  = Raise (ValueError "dropout probability has to be between 0 and 1").
Proof.
  intros Hd Hp. unfold Block.init, bind, lift.
  assert (E1 : exists ln : LayerNorm.t R, LayerNorm.init dim = Ok ln)
    by (apply LayerNorm_init_ok; lia).
  destruct E1 as [ln ->].
  unfold Attention.init, bind, lift.
  destruct (Z.eqb_spec dim 0); [lia|].
  assert (E2 : exists (q : Linear.t R) w2,
             Linear.init dim (dim * 3) false w = Ok (q, w2))
    by (apply Linear_init_ok; lia).
  destruct E2 as (q & w2 & ->).
  unfold Dropout.init. rewrite Hp. reflexivity.
Qed.

Lemma Transformer_init_first_block (depth dim heads ratio : Z) (p : Q)
      (w : world G) (e : exn) :
  (1 <= depth)%Z ->
  @Block.init R G SR RG dim heads ratio p w = Raise e ->
  @Transformer.init R G SR RG depth dim heads ratio p w = Raise e.
Proof.
  intros Hd Hb. unfold Transformer.init.
  destruct (Z.to_nat depth) as [|n] eqn:En; [lia|].
  cbn [Transformer.init_blocks]. unfold bind. rewrite Hb. reflexivity.
Qed.

(** With embed_dim = 0 and depth >= 1 construction raises
    ZeroDivisionError: [Attention.__init__] computes 1./dim**0.5. *)
Theorem ViT_init_zero_embed_dim (cfg : ViT.config) (w : world G) :
  ViT.patch_size cfg <> 0%Z ->
  (ViT.img_size cfg mod ViT.patch_size cfg)%Z = 0%Z ->
  (0 <= ViT.in_ch cfg)%Z -> ViT.embed_dim cfg = 0%Z ->
  (1 <= ViT.depth cfg)%Z ->
  @ViT.init R G SR RG cfg w = Raise ZeroDivisionError.
Proof.
  intros HP Hm Hc Hd Hdepth.
  destruct (@ViT_init_prefix cfg w HP Hm Hc) as (l & pe & ce & w1 & E);
    [lia|].
  rewrite E. unfold bind at 1.
  rewrite Transformer_init_first_block with (e := ZeroDivisionError);
    [reflexivity|assumption|].
  rewrite Hd. apply Block_init_zero_dim.
Qed.

(** With depth >= 1 and a positive embedding dimension, a drop_rate outside
    [0, 1] makes construction raise the ValueError of [nn.Dropout]. *)
Theorem ViT_init_bad_drop_rate (cfg : ViT.config) (w : world G) :
  ViT.patch_size cfg <> 0%Z ->
  (ViT.img_size cfg mod ViT.patch_size cfg)%Z = 0%Z ->
  (0 <= ViT.in_ch cfg)%Z -> (0 < ViT.embed_dim cfg)%Z ->
  (1 <= ViT.depth cfg)%Z ->
  Qle_bool 0 (ViT.drop_rate cfg) && Qle_bool (ViT.drop_rate cfg) 1 = false ->
  @ViT.init R G SR RG cfg w
  = Raise (ValueError "dropout probability has to be between 0 and 1").
Proof.
  intros HP Hm Hc Hd Hdepth Hp.
  destruct (@ViT_init_prefix cfg w HP Hm Hc) as (l & pe & ce & w1 & E);
    [lia|].
  rewrite E. unfold bind at 1.
  rewrite Transformer_init_first_block
    with (e := ValueError "dropout probability has to be between 0 and 1");
    [reflexivity|assumption|].
  now apply Block_init_bad_drop.
Qed.
End ConstructionErrors.

(** ** Errors of the inputs *)

Section InputErrors.
Context {R G : Type} {SR : Scalar R} {RG : Random R G}.

Lemma patches_need_rank_4 (self : ImgPatches.t) (img : Tensor R) :
  List.length (shape img) <> 4 ->
  ImgPatches.forward self img
  = Raise (ValueError "not enough or too many values to unpack").
Proof.
  intros H. unfold ImgPatches.forward.
  destruct (shape img) as [|b [|c [|h [|w [|? ?]]]]]; try reflexivity.
  simpl in H. lia.
Qed.

(** A patch size that is zero or negative makes [ImgPatches.forward] raise
    a RuntimeError on every rank-4 input: [unfold] needs a positive step. *)
Lemma patches_need_positive_size (P : Z) (img : Tensor R) :
  List.length (shape img) = 4 -> (P <= 0)%Z ->
  exists msg,
    ImgPatches.forward (ImgPatches.init P) img = Raise (RuntimeError msg).
Proof.
  intros Hl HP. unfold ImgPatches.forward.
  destruct (shape img) as [|b [|c [|h [|w [|? ?]]]]] eqn:Hs;
    try discriminate Hl.
  unfold unfold. rewrite Hs. simpl.
  destruct (Z.ltb_spec (Z.of_nat h) P); [simpl; eauto|].
  destruct (Z.leb_spec P 0); [simpl; eauto|lia].
Qed.

Lemma patches_empty_raise (p b c h w : nat) (img : Tensor R) :
  shape img = [b; c; h; w] -> 1 <= p -> p <= h -> p <= w ->
  b = 0 \/ c = 0 ->
  ImgPatches.forward (ImgPatches.init (Z.of_nat p)) img
  = Raise (RuntimeError "unspecified dimension size -1 is ambiguous").
Proof.
  intros Hs Hp Hh Hw Hz. unfold ImgPatches.forward. rewrite Hs. simpl.
  rewrite (@unfold_ok _ _ 2 p h img) by (rewrite ?Hs; simpl; auto).
  rewrite Hs. simpl.
  rewrite (@unfold_ok _ _ 3 p w) by (simpl; auto).
  simpl. rewrite <- !Nat2Z.inj_mul.
  unfold reshape, count_infer, known_size. simpl.
  destruct (Z.ltb_spec (Z.of_nat b) (-1)); [lia|].
  destruct (Z.ltb_spec (Z.of_nat (c * p * p)) (-1)); [lia|].
  destruct (Z.eqb_spec (Z.of_nat b) (-1)); [lia|].
  destruct (Z.eqb_spec (Z.of_nat (c * p * p)) (-1)); [lia|].
  simpl. rewrite !Nat2Z.id.
  assert (E1 : b * (c * p * p * 1) = 0) by (destruct Hz; subst; lia).
  assert (E2 : b * (c * (h / p * (w / p * (p * (p * 1))))) = 0)
    by (destruct Hz; subst; lia).
  rewrite E1, E2. reflexivity.
Qed.

(** An empty batch, or an image with no channel, is rejected by
    [ImgPatches.forward]: the patch count -1 of the reshape cannot be
    inferred from zero elements. *)
Theorem patches_reject_empty (p b c h w : nat) (img : Tensor R) :
  shape img = [b; c; h; w] -> 1 <= p -> p <= h -> p <= w ->
  b = 0 \/ c = 0 ->
  ImgPatches.forward (ImgPatches.init (Z.of_nat p)) img
  = Raise (RuntimeError "unspecified dimension size -1 is ambiguous").
Proof. apply patches_empty_raise. Qed.

Lemma Attention_needs_rank_3 {Mask : Type} (a : Attention.t R)
        (x : Tensor R) (mask : option Mask) (w : world G) :
  List.length (shape x) <> 3 ->
  Attention.forward a x mask w
  = Raise (ValueError "not enough or too many values to unpack").
Proof.
  intros H. unfold Attention.forward.
  destruct (shape x) as [|b [|n [|c [|? ?]]]]; try reflexivity.
  simpl in H. lia.
Qed.

(** A head count of zero passes [Attention.__init__] and fails in forward:
    every input of shape (B, N, D) raises ZeroDivisionError, from
    [c // self.num_heads]. *)
Theorem Attention_zero_heads {Mask : Type} (D : Z) (ad pd : Q)
        (w0 w1 w : world G) (a : Attention.t R) (B N : nat) (x : Tensor R)
        (mask : option Mask) :
  Attention.init D 0 ad pd w0 = Ok (a, w1) ->
  shape x = [B; N; Z.to_nat D] ->
  Attention.forward a x mask w = Raise ZeroDivisionError.
Proof.
  intros Hinit Hx. apply Attention_init_inv in Hinit.
  destruct Hinit as (Hh & _ & [Hqkv _] & _).
  unfold Attention.forward, bind, lift. rewrite Hx.
  unfold Attention.qkv_heads.
  assert (E : exists y, Linear.forward (Attention.qkv a) x = Ok y
                        /\ shape y = [B; N] ++ [Z.to_nat D * 3])
    by (apply Linear_forward_shape with (i := Z.to_nat D); assumption).
  destruct E as [y [-> _]]. rewrite Hh. reflexivity.
Qed.

(** Input checks of [Attention.forward] for a constructed module: an input
    that does not have exactly three axes raises ValueError (the unpacking
    of [x.shape]); an input of shape (B, N, c) with c different from the
    module's dimension is rejected by the joint projection. *)
Theorem Attention_rejects_input {Mask : Type} (D Hn : Z) (ad pd : Q)
        (w0 w1 w : world G) (a : Attention.t R) (x : Tensor R)
        (mask : option Mask) :
  Attention.init D Hn ad pd w0 = Ok (a, w1) ->
  (List.length (shape x) <> 3 ->
   Attention.forward a x mask w
   = Raise (ValueError "not enough or too many values to unpack"))
  /\ (forall B N c : nat,
         shape x = [B; N; c] -> c <> Z.to_nat D ->
         Attention.forward a x mask w
         = Raise (RuntimeError "mat1 and mat2 shapes cannot be multiplied")).
Proof.
  intros Hinit. split; [apply Attention_needs_rank_3|].
  intros B N c Hx Hc. apply Attention_init_inv in Hinit.
  destruct Hinit as (_ & _ & [[Hqkv _] _] & _).
  unfold Attention.forward, bind, lift. rewrite Hx.
  unfold Attention.qkv_heads, Linear.forward. rewrite Hqkv, Hx.
  unfold last_dim. cbn [last].
  destruct (Nat.eqb_spec c (Z.to_nat D)); [contradiction|reflexivity].
Qed.
End InputErrors.

Section ViTInputErrors.
Context {R G : Type} {SR : Scalar R} {RG : Random R G}.

Lemma expand_any_batch (m : ViT.t R) (d b : nat) :
  shape (ViT.cls_emb m) = [1; 1; d] ->
  exists cls, expand [Z.of_nat b; -1; -1]%Z (ViT.cls_emb m) = Ok cls.
Proof.
  intros H.
  assert (E : exists y, expand [Z.of_nat b; -1; -1]%Z (ViT.cls_emb m) = Ok y
                        /\ shape y = [b; 1; d])
    by (apply expand_batch; exact H).
  destruct E as [cls [E _]]. eauto.
Qed.

(** [ViT.forward] needs a rank-4 input: a scalar tensor raises IndexError
    ([x.shape[0]]), any other rank raises the ValueError of the unpacking in
    [ImgPatches.forward]. *)
Theorem ViT_forward_needs_rank_4 {Mask : Type} (cfg : ViT.config)
        (w0 w1 w : world G) (m : ViT.t R) (x : Tensor R)
        (mask : option Mask) :
  ViT.init cfg w0 = Ok (m, w1) ->
  List.length (shape x) <> 4 ->
  ViT.forward m x mask w
  = Raise (match shape x with
           | [] => IndexError
           | _ :: _ => ValueError "not enough or too many values to unpack"
           end).
Proof.
  intros Hinit Hr. apply ViT_init_inv in Hinit.
  destruct Hinit as (_ & _ & _ & Hcls & _).
  unfold ViT.forward, bind, lift.
  destruct (shape x) as [|b sh] eqn:Hs; [reflexivity|].
  destruct (@expand_any_batch m _ b Hcls) as [cls ->].
  rewrite patches_need_rank_4 by (rewrite Hs; exact Hr). reflexivity.
Qed.

(** An empty batch is rejected by [ViT.forward]. *)
Theorem ViT_forward_empty_batch {Mask : Type} (cfg : ViT.config)
        (w0 w1 w : world G) (m : ViT.t R) (c h wd : nat) (x : Tensor R)
        (mask : option Mask) :
  ViT.init cfg w0 = Ok (m, w1) ->
  (0 < ViT.patch_size cfg)%Z ->
  shape x = [0; c; h; wd] ->
  Z.to_nat (ViT.patch_size cfg) <= h ->
  Z.to_nat (ViT.patch_size cfg) <= wd ->
  ViT.forward m x mask w
  = Raise (RuntimeError "unspecified dimension size -1 is ambiguous").
Proof.
  intros Hinit HP Hx Hh Hw. apply ViT_init_inv in Hinit.
  destruct Hinit as (Hpat & _ & _ & Hcls & _).
  unfold ViT.forward, bind, lift. rewrite Hx.
  destruct (@expand_any_batch m _ 0 Hcls) as [cls ->].
  rewrite Hpat.
  replace (ViT.patch_size cfg)
    with (Z.of_nat (Z.to_nat (ViT.patch_size cfg))) by lia.
  rewrite patches_empty_raise
    with (b := 0) (c := c) (h := h) (w := wd); auto; lia.
Qed.

(** A negative patch size that divides the image size passes
    [ViT.__init__]; the model it returns raises a RuntimeError on every
    rank-4 input. *)
Theorem ViT_negative_patch_size {Mask : Type} (cfg : ViT.config)
        (w0 : world G) :
  (ViT.patch_size cfg < 0)%Z ->
  (ViT.img_size cfg mod ViT.patch_size cfg = 0)%Z ->
  library_accepts cfg = true ->
  exists (m : ViT.t R) w1,
    ViT.init cfg w0 = Ok (m, w1)
    /\ forall (x : Tensor R) (mask : option Mask) (w : world G),
        List.length (shape x) = 4 ->
        exists msg, ViT.forward m x mask w = Raise (RuntimeError msg).
Proof.
  intros HP Hm Hacc.
  assert (E : exists (m : ViT.t R) w1, ViT.init cfg w0 = Ok (m, w1))
    by (apply ViT_init_ok; [lia|assumption|assumption]).
  destruct E as (m & w1 & Hinit). exists m, w1. split; [exact Hinit|].
  intros x mask w Hr. apply ViT_init_inv in Hinit.
  destruct Hinit as (Hpat & _ & _ & Hcls & _).
  unfold ViT.forward, bind, lift.
  destruct (shape x) as [|b sh] eqn:Hs; [discriminate Hr|].
  destruct (@expand_any_batch m _ b Hcls) as [cls ->].
  rewrite Hpat.
  destruct (@patches_need_positive_size _ _ (ViT.patch_size cfg) x)
    as [msg ->]; [now rewrite Hs|lia|].
  eauto.
Qed.
End ViTInputErrors.

(** ** Standard output and the random source *)


Section Effects.
Context {R G : Type} {SR : Scalar R} {RG : Random R G}.
Variable Q : nat -> world G -> world G -> Prop.
Variable ok : Dropout.t -> Prop.
Hypothesis Q_refl : forall w, Q 0 w w.
Hypothesis Q_trans :
  forall j k w1 w2 w3, Q j w1 w2 -> Q k w2 w3 -> Q (j + k) w1 w3.
Hypothesis Q_print :
  forall w, Q 1 w (mkWorld (w_rng w) (w_stdout w ++ [mask_notice])).
Hypothesis Q_dropout :
  forall d (x y : Tensor R) w w',
    ok d -> Dropout.forward d x w = Ok (y, w') -> Q 0 w w'.

Lemma emits_bind {A B} (j k : nat) (c : M G A) (f : A -> M G B) :
  emits Q j c -> (forall a, emits Q k (f a)) -> emits Q (j + k) (bind c f).
Proof.
  intros Hc Hf w b w' H. apply bind_inv in H.
  destruct H as (a & w1 & H1 & H2).
  eapply Q_trans; [eapply Hc; exact H1|eapply Hf; exact H2].
Qed.

Lemma emits_then_pure {A B} (j : nat) (c : M G A) (f : A -> M G B) :
  emits Q j c -> (forall a, emits Q 0 (f a)) -> emits Q j (bind c f).
Proof.
  intros Hc Hf. rewrite <- (Nat.add_0_r j). now apply emits_bind.
Qed.

Lemma emits_ret {A} (a : A) : emits Q 0 (ret a).
Proof. intros w a' w' H. apply ret_inv in H. destruct H as [_ ->]. auto. Qed.

Lemma emits_lift {A} (r : result A) : emits Q 0 (lift r).
Proof. intros w a w' H. apply lift_inv in H. destruct H as [_ ->]. auto. Qed.

Lemma emits_raise {A} (e : exn) : emits Q 0 (@raise G A e).
Proof. intros w a w' H. discriminate H. Qed.

Lemma emits_dropout (d : Dropout.t) (x : Tensor R) :
  ok d -> emits Q 0 (Dropout.forward d x).
Proof. intros Hd w y w' H. eapply Q_dropout; eassumption. Qed.

Lemma emits_notice {Mask : Type} (mask : option Mask) :
  emits Q (notice_count mask)
        (match mask with
         | Some _ => print "Mask is yet to be implemented."
         | None => ret tt
         end).
Proof.
  destruct mask; simpl.
  - intros w a w' H. unfold print in H. injection H as _ <-. apply Q_print.
  - apply emits_ret.
Qed.

Ltac emits_pure :=
  repeat (apply (@emits_bind _ _ 0);
          [first [apply emits_lift | apply emits_ret]|]; intros ?).

Lemma MLP_emits (m : MLP.t R) (x : Tensor R) :
  Forall ok (MLP_dropouts m) -> emits Q 0 (MLP.forward m x).
Proof.
  intros Hd. inversion Hd; subst. unfold MLP.forward.
  emits_pure. now apply emits_dropout.
Qed.

Lemma Attention_emits {Mask : Type} (a : Attention.t R) (x : Tensor R)
      (mask : option Mask) :
  Forall ok (Attention_dropouts a) ->
  emits Q (notice_count mask) (Attention.forward a x mask).
Proof.
  intros Hd. unfold Attention_dropouts in Hd.
  inversion Hd as [|? ? Hd1 Hd']; subst.
  inversion Hd' as [|? ? Hd2 _]; subst.
  unfold Attention.forward.
  destruct (shape x) as [|b [|n [|c [|? ?]]]];
    try (intros ? ? ? H; discriminate H).
  apply (@emits_bind _ _ 0); [apply emits_lift|]. intros [[q k] v].
  apply (@emits_bind _ _ 0); [apply emits_lift|]. intros dot.
  apply emits_then_pure; [apply emits_notice|]. intros _.
  apply (@emits_bind _ _ 0); [apply emits_ret|]. intros attn.
  apply (@emits_bind _ _ 0); [now apply emits_dropout|]. intros attn'.
  emits_pure. now apply emits_dropout.
Qed.

Lemma Block_emits {Mask : Type} (b : Block.t R) (x : Tensor R)
      (mask : option Mask) :
  Forall ok (Block_dropouts b) ->
  emits Q (notice_count mask) (Block.forward b x mask).
Proof.
  intros Hd. unfold Block_dropouts in Hd. apply Forall_app in Hd.
  destruct Hd as [Ha Hm]. unfold Block.forward.
  apply (@emits_bind _ _ 0); [apply emits_lift|]. intros x1.
  apply emits_then_pure; [now apply Attention_emits|]. intros a.
  emits_pure.
  apply (@emits_bind _ _ 0); [now apply MLP_emits|]. intros f.
  apply emits_lift.
Qed.

Lemma blocks_emit {Mask : Type} (bs : list (Block.t R))
      (mask : option Mask) :
  Forall ok (flat_map Block_dropouts bs) ->
  forall x,
    emits Q (List.length bs * notice_count mask)
          (Transformer.forward_blocks bs x mask).
Proof.
  induction bs as [|b bs IH]; intros Hd x; simpl.
  - apply emits_ret.
  - cbn [flat_map] in Hd. apply Forall_app in Hd. destruct Hd as [Hb Hbs].
    apply emits_bind; [now apply Block_emits|]. intros y. now apply IH.
Qed.

Lemma ViT_emits {Mask : Type} (m : ViT.t R) (x : Tensor R)
      (mask : option Mask) :
  Forall ok (ViT_dropouts m) ->
  emits Q (List.length (Transformer.blocks (ViT.transfomer m))
           * notice_count mask)
        (ViT.forward m x mask).
Proof.
  intros Hd. unfold ViT_dropouts in Hd. apply Forall_app in Hd.
  destruct Hd as [Ht Hh]. unfold ViT.forward.
  do 6 (apply (@emits_bind _ _ 0); [apply emits_lift|]; intros ?).
  apply emits_then_pure;
    [unfold Transformer.forward; now apply blocks_emit|]. intros y.
  emits_pure.
  destruct (ViT.out m) as [h|l].
  - now apply MLP_emits.
  - apply emits_lift.
Qed.
End Effects.

Section EffectTheorems.
Context {R G : Type} {SR : Scalar R} {RG : Random R G}.

Lemma printed_trans (j k : nat) (w1 w2 w3 : world G) :
  printed j w1 w2 -> printed k w2 w3 -> printed (j + k) w1 w3.
Proof.
  unfold printed. intros H1 H2.
  now rewrite H2, H1, repeat_app, app_assoc.
Qed.

Lemma only_printed_trans (j k : nat) (w1 w2 w3 : world G) :
  only_printed j w1 w2 -> only_printed k w2 w3 -> only_printed (j + k) w1 w3.
Proof.
  unfold only_printed. intros -> ->. simpl.
  now rewrite repeat_app, app_assoc.
Qed.

Lemma Dropout_printed (d : Dropout.t) (x y : Tensor R) (w w' : world G) :
  True -> Dropout.forward d x w = Ok (y, w') -> printed 0 w w'.
Proof.
  intros _. unfold Dropout.forward, printed. simpl. rewrite app_nil_r.
  destruct (Dropout.inert d || (numel (shape x) =? 0)).
  - intros H. now injection H as _ <-.
  - destruct (Qeq_bool (Dropout.p d) 1).
    + intros H. now injection H as _ <-.
    + destruct (draws _ _ _) as [ks g]. intros H. now injection H as _ <-.
Qed.

Lemma Dropout_only_printed (d : Dropout.t) (x y : Tensor R)
      (w w' : world G) :
  Dropout.inert d = true -> Dropout.forward d x w = Ok (y, w') ->
  only_printed 0 w w'.
Proof.
  intros Hd. unfold Dropout.forward, only_printed. rewrite Hd. simpl.
  rewrite app_nil_r. intros H. injection H as _ <-. now destruct w.
Qed.

(** What a successful [ViT.forward] leaves on standard output: with a mask,
    one notice for every block of the transformer (each block's attention
    prints it); without a mask, nothing. *)
Theorem forward_prints_one_notice_per_block {Mask : Type} (m : ViT.t R)
        (x y : Tensor R) (mask : option Mask) (w w' : world G) :
  ViT.forward m x mask w = Ok (y, w') ->
  w_stdout w'
  = w_stdout w
    ++ repeat mask_notice
         (match mask with
          | Some _ => List.length (Transformer.blocks (ViT.transfomer m))
          | None => 0
          end).
Proof.
  intros H.
  assert (E : printed (List.length (Transformer.blocks (ViT.transfomer m))
                       * notice_count mask) w w').
  { eapply (@ViT_emits R G SR RG printed (fun _ => True)); try eassumption.
    - intros w0. unfold printed. simpl. now rewrite app_nil_r.
    - apply printed_trans.
    - intros w0. reflexivity.
    - apply Dropout_printed.
    - apply Forall_forall. auto. }
  unfold printed in E. rewrite E. destruct mask; simpl.
  - now rewrite Nat.mul_1_r.
  - now rewrite Nat.mul_0_r.
Qed.

(** With every dropout layer inert, a successful [ViT.forward] leaves the
    random source as it found it: the only trace of the call is the notices
    on standard output. *)
Theorem inference_leaves_random_source {Mask : Type} (m : ViT.t R)
        (x y : Tensor R) (mask : option Mask) (w w' : world G) :
  Forall (fun d => Dropout.inert d = true) (ViT_dropouts m) ->
  ViT.forward m x mask w = Ok (y, w') ->
  w_rng w' = w_rng w.
Proof.
  intros Hd H.
  assert (E : only_printed
                (List.length (Transformer.blocks (ViT.transfomer m))
                 * notice_count mask) w w').
  { eapply (@ViT_emits R G SR RG only_printed
              (fun d => Dropout.inert d = true)); try eassumption.
    - intros w0. unfold only_printed. simpl. rewrite app_nil_r.
      now destruct w0.
    - apply only_printed_trans.
    - intros w0. reflexivity.
    - apply Dropout_only_printed. }
  unfold only_printed in E. rewrite E. reflexivity.
Qed.
End EffectTheorems.

(** ** The order of the patches *)

Lemma flat_map_cons_inner {B} (i : nat) (g : list nat -> list B)
      (l : list (list nat)) :
  flat_map g (map (cons i) l) = flat_map (fun x => g (i :: x)) l.
Proof.
  induction l as [|x l IH]; simpl; [reflexivity|]. now rewrite IH.
Qed.

Lemma flat_map_flat_map {A B C} (g : B -> list C) (h : A -> list B)
      (l : list A) :
  flat_map g (flat_map h l) = flat_map (fun x => flat_map g (h x)) l.
Proof.
  induction l as [|x l IH]; simpl; [reflexivity|].
  now rewrite flat_map_app, IH.
Qed.

Lemma map_flat_map {A B C} (f : B -> C) (g : A -> list B) (l : list A) :
  map f (flat_map g l) = flat_map (fun x => map f (g x)) l.
Proof.
  induction l as [|x l IH]; simpl; [reflexivity|].
  now rewrite map_app, IH.
Qed.

Lemma indices_app (s1 s2 : list nat) :
  indices (s1 ++ s2)
  = flat_map (fun i => map (app i) (indices s2)) (indices s1).
Proof.
  induction s1 as [|d s1 IH]; simpl.
  - rewrite app_nil_r. symmetry. apply map_id.
  - rewrite flat_map_flat_map. apply flat_map_ext. intros i.
    rewrite IH, map_flat_map, flat_map_cons_inner.
    apply flat_map_ext. intros x. now rewrite map_map.
Qed.

(** Block [k] of a concatenation of blocks of equal length. *)
Lemma flat_map_block {A B} (g : A -> list B) (n : nat) (dflt : A) :
  (forall a, List.length (g a) = n) ->
  forall (l : list A) (k : nat),
    k < List.length l ->
    firstn n (skipn (k * n) (flat_map g l)) = g (nth k l dflt).
Proof.
  intros Hg. induction l as [|a l IH]; intros k Hk; simpl in Hk; [lia|].
  simpl. destruct k as [|k].
  - simpl. rewrite firstn_app, Hg, Nat.sub_diag. simpl.
    rewrite app_nil_r. rewrite <- (Hg a). apply firstn_all.
  - rewrite skipn_app, Hg.
    rewrite skipn_all2 by (rewrite Hg; simpl; lia).
    replace (S k * n - n) with (k * n) by (simpl; lia).
    simpl. apply IH. lia.
Qed.

Lemma grid_index (nh nw k : nat) :
  k < nh * nw ->
  in_bounds [nh; nw] [k / nw; k mod nw]
  /\ offset [nh; nw] [k / nw; k mod nw] = k.
Proof.
  intros Hk. assert (Hnw : nw <> 0) by nia. split.
  - unfold in_bounds. repeat constructor.
    + apply Nat.Div0.div_lt_upper_bound. lia.
    + now apply Nat.mod_upper_bound.
  - simpl. pose proof (Nat.div_mod_eq k nw). lia.
Qed.

Lemma indices_grid (nh nw : nat) :
  indices [nh; nw] = map (fun k => [k / nw; k mod nw]) (seq 0 (nh * nw)).
Proof.
  apply nth_ext with (d := []) (d' := [0 / nw; 0 mod nw]).
  - now rewrite indices_length, length_map, length_seq; simpl; lia.
  - intros k Hk. rewrite indices_length in Hk. simpl in Hk.
    rewrite Nat.mul_1_r in Hk.
    rewrite map_nth with (f := fun k => [k / nw; k mod nw]).
    rewrite seq_nth by exact Hk. simpl.
    destruct (@grid_index nh nw k Hk) as [Hb Ho].
    rewrite <- Ho at 1. now apply indices_nth.
Qed.

Lemma flat_map_map_inner {A B C} (g : B -> list C) (f : A -> B) (l : list A) :
  flat_map g (map f l) = flat_map (fun x => g (f x)) l.
Proof.
  induction l as [|x l IH]; simpl; [reflexivity|]. now rewrite IH.
Qed.

Lemma flat_map_ext_in {A B} (f g : A -> list B) (l : list A) :
  (forall a, In a l -> f a = g a) -> flat_map f l = flat_map g l.
Proof.
  induction l as [|x l IH]; intros H; simpl; [reflexivity|].
  rewrite H by (left; reflexivity). rewrite IH; [reflexivity|].
  intros a Ha. apply H. now right.
Qed.

Section PatchOrder.
Context {R : Type} {SR : Scalar R}.



Lemma channel_block_length (p : nat) (img : Tensor R) (b c h w bi ch k : nat) :
  shape img = [b; c; h; w] ->
  List.length (channel_block p img bi ch k) = p * p.
Proof.
  intros Hs. unfold channel_block. rewrite Hs.
  rewrite length_map, indices_length. simpl. lia.
Qed.

Lemma patch_view_image (p b c h w bi : nat) (img : Tensor R) :
  shape img = [b; c; h; w] -> 1 <= p -> bi < b ->
  firstn (h / p * (w / p) * (c * p * p))
         (skipn (bi * (h / p * (w / p) * (c * p * p)))
                (data (patch_view p img b c h w)))
  = flat_map (fun ch =>
                flat_map (fun k => channel_block p img bi ch k)
                         (seq 0 (h / p * (w / p))))
             (seq 0 c).
Proof.
  intros Hs Hp Hbi.
  pose proof (Nat.Div0.mul_div_le h p) as Hh.
  pose proof (Nat.Div0.mul_div_le w p) as Hw.
  unfold patch_view. unfold tgen at 1. cbn [data].
  set (F := fun idx : list nat => tget _ (unfold_src 3 p idx)).
  replace (h / p * (w / p) * (c * p * p))
    with (numel [c; h / p; w / p; p; p]) by (simpl; nia).
  cbn [indices]. fold (indices [c; h / p; w / p; p; p]).
  rewrite map_flat_map.
  rewrite flat_map_block with (dflt := 0)
    by (try (intros a; now rewrite !length_map, indices_length);
        now rewrite length_seq).
  rewrite seq_nth by exact Hbi. cbn [Nat.add].
  cbn [indices]. fold (indices [h / p; w / p; p; p]).
  change [h / p; w / p; p; p] with ([h / p; w / p] ++ [p; p]).
  rewrite indices_app, (indices_grid (h / p) (w / p)).
  rewrite !map_flat_map. apply flat_map_ext_in. intros ch Hch.
  apply in_seq in Hch.
  rewrite !map_flat_map, flat_map_map_inner.
  apply flat_map_ext_in. intros k Hk. apply in_seq in Hk.
  rewrite !map_map. unfold channel_block. rewrite Hs.
  apply map_ext_in. intros i2 Hi2. apply indices_in_bounds in Hi2.
  invert_bounds.
  assert (Hkb : k / (w / p) < h / p)
    by (apply Nat.Div0.div_lt_upper_bound; lia).
  assert (Hkm : k mod (w / p) < w / p)
    by (apply Nat.mod_upper_bound; nia).
  match goal with
  | Hr : ?r < p, Hq : ?q < p |- _ =>
      assert (k mod (w / p) * p + q < w) by nia;
      assert (k mod (w / p) * p + r < w) by nia
  end.
  subst F. cbv beta. unfold unfold_src. simpl.
  rewrite tget_tgen by prove_bounds.
  unfold unfold_src. simpl. reflexivity.
Qed.
End PatchOrder.

Section PatchOrderTheorems.
Context {R : Type} {SR : Scalar R}.

(** What [ImgPatches.forward] returns, for every number of channels: the
    rows of image [bi], read one after the other, are the blocks of channel
    0 in row-major order of the grid, then the blocks of channel 1, and so
    on (channel-major order), each block flattened row by row. *)
Theorem patches_channel_major (p b c h w bi : nat) (img : Tensor R) :
  shape img = [b; c; h; w] ->
  1 <= c -> 1 <= p -> p <= h -> p <= w -> bi < b ->
  exists out,
    ImgPatches.forward (ImgPatches.init (Z.of_nat p)) img = Ok out
    /\ sequence_data out bi
       = flat_map (fun ch =>
                     flat_map (fun k => channel_block p img bi ch k)
                              (seq 0 (h / p * (w / p))))
                  (seq 0 c).
Proof.
  intros Hs Hc Hp Hh Hw Hbi. eexists. split.
  - apply forward_view; try eassumption. lia.
  - unfold sequence_data. cbn [shape data].
    now apply patch_view_image.
Qed.

Lemma firstn_skipn_within {A} (d n j o : nat) (l : list A) :
  j < n ->
  firstn d (skipn (j * d) (firstn (n * d) (skipn o l)))
  = firstn d (skipn (o + j * d) l).
Proof.
  intros Hj. rewrite firstn_skipn_comm, firstn_firstn.
  replace (Nat.min (j * d + d) (n * d)) with (j * d + d) by nia.
  rewrite <- firstn_skipn_comm, skipn_skipn. f_equal. f_equal. lia.
Qed.

(** With a single channel the patches are the blocks: patch [j] of image
    [bi] is block [j] of the grid, in row-major order. *)
Theorem patches_single_channel (p b h w bi j : nat) (img : Tensor R) :
  shape img = [b; 1; h; w] ->
  1 <= p -> p <= h -> p <= w -> bi < b -> j < h / p * (w / p) ->
  exists out,
    ImgPatches.forward (ImgPatches.init (Z.of_nat p)) img = Ok out
    /\ patch_at out bi j = block_patch p img bi j.
Proof.
  intros Hs Hp Hh Hw Hbi Hj. eexists. split.
  - apply forward_view; try eassumption; lia.
  - unfold patch_at. cbn [shape data].
    pose proof (@patch_view_image _ _ p b 1 h w bi img Hs Hp Hbi) as E.
    cbn [seq flat_map] in E. rewrite app_nil_r in E.
    replace ((bi * (h / p * (w / p)) + j) * (1 * p * p))
      with (bi * (h / p * (w / p) * (1 * p * p)) + j * (1 * p * p)) by lia.
    rewrite <- firstn_skipn_within with (n := h / p * (w / p))
      by exact Hj.
    rewrite E.
    replace (1 * p * p) with (p * p) by lia.
    rewrite flat_map_block with (dflt := 0);
      [|intros k; now apply channel_block_length with (b := b) (c := 1)
                                                      (h := h) (w := w)
       |now rewrite length_seq].
    rewrite seq_nth by exact Hj. cbn [Nat.add].
    unfold block_patch, channel_block. rewrite Hs.
    cbn [indices seq flat_map]. fold (indices [p; p]).
    rewrite app_nil_r, map_map. reflexivity.
Qed.
End PatchOrderTheorems.

(** The channel-major order at the 2-channel image of the C1 failure. *)
Lemma patches_channel_major_witness :
  let img := mkTensor [1; 2; 1; 2] [1; 2; 3; 4]%Z in
  exists out,
    ImgPatches.forward (ImgPatches.init 1) img = Ok out
    /\ sequence_data out 0
       = flat_map (fun ch => flat_map (fun k => channel_block 1 img 0 ch k)
                                      (seq 0 2))
                  (seq 0 2).
Proof.
  intros img.
  apply (@patches_channel_major Z Scalar_Z 1 1 2 1 2 0 img);
    first [reflexivity | lia].
Defined.

(** One channel, a 2 x 4 image and patch size 2: patch 1 is block 1. *)
Lemma patches_single_channel_witness :
  let img := mkTensor [1; 1; 2; 4] [1; 2; 3; 4; 5; 6; 7; 8]%Z in
  exists out,
    ImgPatches.forward (ImgPatches.init 2) img = Ok out
    /\ patch_at out 0 1 = block_patch 2 img 0 1.
Proof.
  intros img.
  apply (@patches_single_channel Z Scalar_Z 2 1 2 4 0 1 img);
    first [reflexivity | simpl; lia].
Defined.

(** ** Concrete instances of the further properties *)

Ltac by_computation := first [reflexivity | lia | vm_compute; reflexivity
                              | vm_compute; lia | discriminate].

Lemma MLP_output_shape_witness :
  exists (m : MLP.t Z) w1,
    MLP.init 3 None (Some 0%Z) 0 (mkWorld 0 []) = Ok (m, w1)
    /\ exists y w',
        MLP.forward m (mkTensor [2; 3] [1; 2; 3; 4; 5; 6]%Z) w1 = Ok (y, w')
        /\ shape y = [2; 3].
Proof.
  eexists. eexists. split; [vm_compute; reflexivity|].
  eapply (@MLP_output_shape Z nat Scalar_Z Random_Z 3 None (Some 0%Z) 0
            (mkWorld 0 []) _ _ _ [2]).
  all: by_computation.
Defined.

Lemma Block_preserves_shape_witness :
  exists (blk : Block.t Z) w1,
    Block.init 4 2 2 0 (mkWorld 0 []) = Ok (blk, w1)
    /\ exists y w',
        Block.forward blk (mkTensor [1; 2; 4] [1; 2; 3; 4; 5; 6; 7; 8]%Z)
                      (@None unit) w1 = Ok (y, w')
        /\ shape y = [1; 2; 4].
Proof.
  eexists. eexists. split; [vm_compute; reflexivity|].
  eapply (@Block_preserves_shape Z nat Scalar_Z Random_Z unit 4 2 2 0
            (mkWorld 0 []) _ _ _ 1 2).
  all: by_computation.
Defined.

Lemma Transformer_preserves_shape_witness :
  exists (t : Transformer.t Z) w1,
    Transformer.init 2 4 2 2 0 (mkWorld 0 []) = Ok (t, w1)
    /\ List.length (Transformer.blocks t) = 2
    /\ exists y w',
        Transformer.forward t (mkTensor [1; 2; 4] [1; 2; 3; 4; 5; 6; 7; 8]%Z)
                            (@None unit) w1 = Ok (y, w')
        /\ shape y = [1; 2; 4].
Proof.
  eexists. eexists. split; [vm_compute; reflexivity|].
  eapply (@Transformer_preserves_shape Z nat Scalar_Z Random_Z unit 2 4 2 2 0
            (mkWorld 0 []) _ _ _ 1 2).
  all: by_computation.
Defined.


Lemma ViT_forward_wrong_size_witness :
  exists (m : ViT.t Z) w1,
    ViT.init (ViT.mkConfig 2 1 1 2 true 4 1 2 2 0) (mkWorld 0 [])
    = Ok (m, w1)
    /\ ViT.forward m (mkTensor [1; 1; 1; 2] [1; 2]%Z) (@None unit) w1
       = Raise (RuntimeError "shapes are not broadcastable").
Proof.
  eexists. eexists. split; [vm_compute; reflexivity|].
  eapply (@ViT_forward_wrong_size Z nat Scalar_Z Random_Z unit
            (ViT.mkConfig 2 1 1 2 true 4 1 2 2 0) (mkWorld 0 []) _ _ _
            1 1 2).
  all: by_computation.
Defined.

Lemma ViT_forward_zero_img_size_witness :
  exists (m : ViT.t Z) w1,
    ViT.init (ViT.mkConfig 0 1 1 2 true 4 1 2 2 0) (mkWorld 0 [])
    = Ok (m, w1)
    /\ shape (ViT.pos_emb m) = [1; 1; 4]
    /\ exists y w',
        ViT.forward m (mkTensor [1; 1; 1; 2] [1; 2]%Z) (@None unit) w1
        = Ok (y, w')
        /\ shape y = [1; 2].
Proof.
  eexists. eexists. split; [vm_compute; reflexivity|].
  eapply (@ViT_forward_zero_img_size Z nat Scalar_Z Random_Z unit
            (ViT.mkConfig 0 1 1 2 true 4 1 2 2 0) (mkWorld 0 []) _ _ _
            1 1 2).
  all: by_computation.
Defined.

Lemma ViT_forward_wrong_channels_witness :
  exists (m : ViT.t Z) w1,
    ViT.init (ViT.mkConfig 2 1 1 2 true 4 1 2 2 0) (mkWorld 0 [])
    = Ok (m, w1)
    /\ ViT.forward m (mkTensor [1; 2; 2; 2] [1; 2; 3; 4; 5; 6; 7; 8]%Z)
                   (@None unit) w1
       = Raise (RuntimeError "mat1 and mat2 shapes cannot be multiplied").
Proof.
  eexists. eexists. split; [vm_compute; reflexivity|].
  eapply (@ViT_forward_wrong_channels Z nat Scalar_Z Random_Z unit
            (ViT.mkConfig 2 1 1 2 true 4 1 2 2 0) (mkWorld 0 []) _ _ _
            1 2 2 2).
  all: by_computation.
Defined.

Lemma ViT_init_zero_embed_dim_witness :
  @ViT.init Z nat Scalar_Z Random_Z (ViT.mkConfig 2 1 1 2 true 0 1 2 2 0)
            (mkWorld 0 [])
  = Raise ZeroDivisionError.
Proof.
  apply (@ViT_init_zero_embed_dim Z nat Scalar_Z Random_Z
           (ViT.mkConfig 2 1 1 2 true 0 1 2 2 0) (mkWorld 0 []));
    by_computation.
Defined.

Lemma ViT_init_bad_drop_rate_witness :
  @ViT.init Z nat Scalar_Z Random_Z
            (ViT.mkConfig 2 1 1 2 true 4 1 2 2 (3 # 2)) (mkWorld 0 [])
  = Raise (ValueError "dropout probability has to be between 0 and 1").
Proof.
  apply (@ViT_init_bad_drop_rate Z nat Scalar_Z Random_Z
           (ViT.mkConfig 2 1 1 2 true 4 1 2 2 (3 # 2)) (mkWorld 0 []));
    by_computation.
Defined.

Lemma patches_reject_empty_witness :
  ImgPatches.forward (ImgPatches.init 2) (mkTensor [0; 1; 2; 2] (@nil Z))
  = Raise (RuntimeError "unspecified dimension size -1 is ambiguous").
Proof.
  apply (@patches_reject_empty Z Scalar_Z 2 0 1 2 2
           (mkTensor [0; 1; 2; 2] (@nil Z)));
    first [reflexivity | lia | left; reflexivity].
Defined.

Lemma Attention_zero_heads_witness :
  exists (a : Attention.t Z) w1,
    Attention.init 4 0 0 0 (mkWorld 0 []) = Ok (a, w1)
    /\ Attention.forward a (mkTensor [1; 2; 4] [1; 2; 3; 4; 5; 6; 7; 8]%Z)
                         (@None unit) w1
       = Raise ZeroDivisionError.
Proof.
  eexists. eexists. split; [vm_compute; reflexivity|].
  eapply (@Attention_zero_heads Z nat Scalar_Z Random_Z unit 4 0 0
            (mkWorld 0 []) _ _ _ 1 2).
  all: by_computation.
Defined.

Lemma Attention_rejects_input_witness :
  exists (a : Attention.t Z) w1,
    Attention.init 4 2 0 0 (mkWorld 0 []) = Ok (a, w1)
    /\ Attention.forward a (mkTensor [2; 4] [1; 2; 3; 4; 5; 6; 7; 8]%Z)
                         (@None unit) w1
       = Raise (ValueError "not enough or too many values to unpack")
    /\ Attention.forward a (mkTensor [1; 2; 3] [1; 2; 3; 4; 5; 6]%Z)
                         (@None unit) w1
       = Raise (RuntimeError "mat1 and mat2 shapes cannot be multiplied").
Proof.
  eexists. eexists. split; [vm_compute; reflexivity|].
  match goal with
  | |- Attention.forward ?a ?x1 ?mk ?w = _
       /\ Attention.forward _ ?x2 _ _ = _ =>
      pose proof (@Attention_rejects_input Z nat Scalar_Z Random_Z unit
                    4 2 0 0 (mkWorld 0 []) w w a x1 mk eq_refl) as H1;
      pose proof (@Attention_rejects_input Z nat Scalar_Z Random_Z unit
                    4 2 0 0 (mkWorld 0 []) w w a x2 mk eq_refl) as H2
  end.
  split.
  - apply (proj1 H1). discriminate.
  - apply (proj2 H2 1 2 3); [reflexivity|discriminate].
Defined.

Lemma ViT_forward_needs_rank_4_witness :
  exists (m : ViT.t Z) w1,
    ViT.init (ViT.mkConfig 2 1 1 2 true 4 1 2 2 0) (mkWorld 0 [])
    = Ok (m, w1)
    /\ ViT.forward m (mkTensor [2; 2] [1; 2; 3; 4]%Z) (@None unit) w1
       = Raise (ValueError "not enough or too many values to unpack").
Proof.
  eexists. eexists. split; [vm_compute; reflexivity|].
  eapply (@ViT_forward_needs_rank_4 Z nat Scalar_Z Random_Z unit
            (ViT.mkConfig 2 1 1 2 true 4 1 2 2 0) (mkWorld 0 [])).
  all: by_computation.
Defined.

Lemma ViT_forward_empty_batch_witness :
  exists (m : ViT.t Z) w1,
    ViT.init (ViT.mkConfig 2 1 1 2 true 4 1 2 2 0) (mkWorld 0 [])
    = Ok (m, w1)
    /\ ViT.forward m (mkTensor [0; 1; 2; 2] []) (@None unit) w1
       = Raise (RuntimeError "unspecified dimension size -1 is ambiguous").
Proof.
  eexists. eexists. split; [vm_compute; reflexivity|].
  eapply (@ViT_forward_empty_batch Z nat Scalar_Z Random_Z unit
            (ViT.mkConfig 2 1 1 2 true 4 1 2 2 0) (mkWorld 0 []) _ _ _
            1 2 2).
  all: by_computation.
Defined.

Lemma ViT_negative_patch_size_witness :
  exists (m : ViT.t Z) w1,
    ViT.init (ViT.mkConfig 2 (-1) 1 2 true 4 1 2 2 0) (mkWorld 0 [])
    = Ok (m, w1)
    /\ exists msg,
        ViT.forward m (mkTensor [1; 1; 2; 2] [1; 2; 3; 4]%Z) (@None unit) w1
        = Raise (RuntimeError msg).
Proof.
  destruct (@ViT_negative_patch_size Z nat Scalar_Z Random_Z unit
              (ViT.mkConfig 2 (-1) 1 2 true 4 1 2 2 0) (mkWorld 0 []))
    as (m & w1 & Hinit & Hfwd); try reflexivity.
  exists m, w1. split; [exact Hinit|]. apply Hfwd. reflexivity.
Defined.

(** A model of depth 2 called with a mask prints two notices. *)
Lemma forward_prints_one_notice_per_block_witness :
  exists (m : ViT.t Z) w1 y w',
    ViT.init (ViT.mkConfig 2 1 1 2 true 4 2 2 2 0) (mkWorld 0 [])
    = Ok (m, w1)
    /\ ViT.forward m (mkTensor [1; 1; 2; 2] [1; 2; 3; 4]%Z) (Some tt) w1
       = Ok (y, w')
    /\ w_stdout w' = [mask_notice; mask_notice].
Proof.
  eexists. eexists. eexists. eexists.
  split; [vm_compute; reflexivity|].
  match goal with
  | |- ViT.forward ?m ?x ?mk ?w = Ok (?y, ?w') /\ _ =>
      assert (H : ViT.forward m x mk w = Ok (y, w'))
        by (vm_compute; reflexivity);
      split; [exact H|];
      exact (@forward_prints_one_notice_per_block Z nat Scalar_Z Random_Z
               unit m x y mk w w' H)
  end.
Defined.

Lemma inference_leaves_random_source_witness :
  exists (m : ViT.t Z) w1 y w',
    ViT.init (ViT.mkConfig 2 1 1 2 true 4 1 2 2 0) (mkWorld 0 [])
    = Ok (m, w1)
    /\ ViT.forward m (mkTensor [1; 1; 2; 2] [1; 2; 3; 4]%Z) (@None unit) w1
       = Ok (y, w')
    /\ w_rng w' = w_rng w1.
Proof.
  eexists. eexists. eexists. eexists.
  split; [vm_compute; reflexivity|].
  match goal with
  | |- ViT.forward ?m ?x ?mk ?w = Ok (?y, ?w') /\ _ =>
      assert (H : ViT.forward m x mk w = Ok (y, w'))
        by (vm_compute; reflexivity);
      split; [exact H|];
      apply (@inference_leaves_random_source Z nat Scalar_Z Random_Z
               unit m x y mk w w'); [repeat constructor|exact H]
  end.
Defined.

(** ** The parameters a constructed model starts with *)

Section InitialEmbeddings.
Context {R G : Type} {SR : Scalar R} {RG : Random R G}.

Lemma zeros_value (sizes : list Z) (t : Tensor R) :
  ViT.zeros sizes = Ok t ->
  t = mkTensor (map Z.to_nat sizes) (repeat r0 (numel (map Z.to_nat sizes))).
Proof.
  unfold ViT.zeros. destruct (existsb _ _); [discriminate|].
  intros H. now injection H as <-.
Qed.

(** A freshly constructed model has an all-zero class embedding of shape
    (1, 1, D) and an all-zero positional embedding of shape
    (1, num_patches + 1, D), with num_patches = (img_size // patch_size)^2:
    one position for the class token and one per patch. *)
Theorem ViT_init_zero_embeddings (cfg : ViT.config) (w0 w1 : world G)
        (m : ViT.t R) :
  ViT.init cfg w0 = Ok (m, w1) ->
  let d := Z.to_nat (ViT.embed_dim cfg) in
  let n := Z.to_nat ((ViT.img_size cfg / ViT.patch_size cfg) ^ 2 + 1) in
  ViT.cls_emb m = mkTensor [1; 1; d] (repeat r0 d)
  /\ ViT.pos_emb m = mkTensor [1; n; d] (repeat r0 (n * d)).
Proof.
  unfold ViT.init.
  destruct (ViT.patch_size cfg =? 0)%Z; [discriminate|].
  destruct (negb _); [discriminate|].
  intros H. minv.
  repeat match goal with
         | Hz : ViT.zeros _ = Ok _ |- _ => apply zeros_value in Hz; subst
         end.
  cbn [ViT.cls_emb ViT.pos_emb map numel]. split; do 2 f_equal; lia.
Qed.
End InitialEmbeddings.

Lemma ViT_init_zero_embeddings_witness :
  exists (m : ViT.t Z) w1,
    ViT.init (ViT.mkConfig 2 1 1 2 true 4 1 2 2 0) (mkWorld 0 [])
    = Ok (m, w1)
    /\ ViT.cls_emb m = mkTensor [1; 1; 4] (repeat 0%Z 4)
    /\ ViT.pos_emb m = mkTensor [1; 5; 4] (repeat 0%Z 20).
Proof.
  eexists. eexists. split; [vm_compute; reflexivity|].
  match goal with
  | |- ViT.cls_emb ?m = _ /\ _ =>
      exact (@ViT_init_zero_embeddings Z nat Scalar_Z Random_Z
               (ViT.mkConfig 2 1 1 2 true 4 1 2 2 0) (mkWorld 0 []) _ m
               eq_refl)
  end.
Defined.
